(** * sekai-codebase / dataset_downloading: download-and-process pipeline

    A shallow embedding of
      - [dataset_downloading/download_and_process.py]
      - [dataset_downloading/download_and_process_compatible.py]
      - [dataset_downloading/multi_download.py]
    and the properties of the partitioner, the fetch loop, the segmenting
    state machine and the per-job pipeline of the worker.

    Python integers are [Z]; Python lists are [list]; strings are
    [string].  Code that can raise returns a [res]; code that touches the
    file system, the downloader or the GPU engine runs in the monad [M],
    a state monad over [world] whose results are [res]. *)

From Stdlib Require Import ZArith String Ascii Bool Lia Arith.
From Stdlib Require Import DecimalString.
From Stdlib Require Import List.
Import ListNotations.
Open Scope string_scope.
Open Scope list_scope.
Open Scope Z_scope.

Set Implicit Arguments.

(* ================================================================== *)
(** ** Python exceptions and results *)

(** The exception classes the modelled code can meet.  All of them are
    subclasses of Python's [Exception], so a [except Exception] clause (and a
    bare [except:]) catches every one of them. *)
Inductive exn : Type :=
  | ZeroDivisionError
  | AssertionError
  | TimeoutExpired          (* subprocess.TimeoutExpired *)
  | CalledProcessError      (* subprocess.CalledProcessError *)
  | FileNotFoundError
  | PermissionError
  | ValueError
  | IndexError
  | OverflowError
  | RuntimeError.

Definition exn_eqb (a b : exn) : bool :=
  match a, b with
  | ZeroDivisionError, ZeroDivisionError
  | AssertionError, AssertionError
  | TimeoutExpired, TimeoutExpired
  | CalledProcessError, CalledProcessError
  | FileNotFoundError, FileNotFoundError
  | PermissionError, PermissionError
  | ValueError, ValueError
  | IndexError, IndexError
  | OverflowError, OverflowError
  | RuntimeError, RuntimeError => true
  | _, _ => false
  end.

(** [ZeroDivisionError] and [OverflowError] are the subclasses of
    [ArithmeticError] here. *)
Definition is_arithmetic_error (e : exn) : bool :=
  (exn_eqb e ZeroDivisionError || exn_eqb e OverflowError)%bool.

Inductive res (A : Type) : Type :=
  | Ret (a : A)
  | Raise (e : exn).
Arguments Ret {A} a.
Arguments Raise {A} e.

(* ================================================================== *)
(** ** Partitioner: [split_urls] *)

Section Slices.
Variable A : Type.

Definition len (l : list A) : Z := Z.of_nat (List.length l).

(** Python's index normalisation for a slice bound: a negative bound
    counts from the end, and the result is clamped to [0, len]. *)
Definition slice_bound (n i : Z) : Z :=
  let j := if i <? 0 then i + n else i in
  Z.max 0 (Z.min j n).

(** [l[a:b]] *)
Definition py_slice (l : list A) (a b : Z) : list A :=
  let a' := slice_bound (len l) a in
  let b' := slice_bound (len l) b in
  firstn (Z.to_nat (b' - a')) (skipn (Z.to_nat a') l).

(** [math.ceil(n / w)].  Python computes the quotient of the two integers
    as one double, rounded to nearest, and rounds that double up.
    - A divisor of zero raises.
    - A positive quotient of at most 2^-1075, half the smallest positive
      double, is rounded to [0.0], and the result is [0] ([underflows]).
    - Otherwise, for [n] below 2^53, the double lies on the same side of
      every integer as the exact quotient, and the result is the ceiling of
      the exact quotient, written here with floor division.
    For [n] from 2^53 on the rounding of the quotient can lose a fraction
    (the double nearest to (2^53 + 1) / 2^53 is 1.0); the properties below
    that depend on the value are stated for [in_double_range]. *)
Definition underflows (n w : Z) : bool :=
  ((0 <? n) && (n * 2 ^ 1075 <=? w))%bool.

Definition math_ceil_div (n w : Z) : res Z :=
  if w =? 0 then Raise ZeroDivisionError
  else if underflows n w then Ret 0
  else Ret (- ((- n) / w)).

(** The arguments for which the double-precision quotient neither loses
    a fraction nor underflows. *)
Definition in_double_range (n w : Z) : bool :=
  ((n <? 2 ^ 53) && negb (underflows n w))%bool.

(** The body of [for i in range(num_workers)], with the [break]; [k]
    counts the iterations [range] still has to give. *)
Fixpoint split_loop (urls : list A) (urls_per_worker : Z) (k : nat)
         (i : Z) (split : list (list A)) : list (list A) :=
  match k with
  | O => split
  | S k' =>
      let start_idx := i * urls_per_worker in
      let end_idx := Z.min ((i + 1) * urls_per_worker) (len urls) in
      if start_idx >=? len urls then split
      else
        let worker_urls := py_slice urls start_idx end_idx in
        split_loop urls urls_per_worker k' (i + 1) (split ++ [worker_urls])
  end.

Definition split_urls (urls : list A) (num_workers : Z) : res (list (list A)) :=
  match math_ceil_div (len urls) num_workers with
  | Raise e => Raise e
  | Ret urls_per_worker =>
      Ret (split_loop urls urls_per_worker (Z.to_nat num_workers) 0 [])
  end.

(** Sizes of the shards, and their spread. *)
Definition shard_sizes (shards : list (list A)) : list Z := map len shards.

Definition max_size (shards : list (list A)) : Z :=
  fold_right Z.max 0 (shard_sizes shards).

Definition min_size (shards : list (list A)) : Z :=
  match shard_sizes shards with
  | [] => 0
  | x :: xs => fold_right Z.min x xs
  end.

(** A call that fails with a typed configuration error: it raises, and
    what it raises is not an arithmetic error. *)
Definition config_failure (r : res (list (list A))) : bool :=
  match r with
  | Raise e => negb (is_arithmetic_error e)
  | Ret _ => false
  end.

(** Shape of the shards: every shard but the last is full, and the last
    holds between one and [c] jobs. *)
Fixpoint full_but_last (c : Z) (shards : list (list A)) : Prop :=
  match shards with
  | [] => True
  | [s] => 1 <= len s <= c
  | s :: rest => len s = c /\ full_but_last c rest
  end.

End Slices.

(* ================================================================== *)
(** ** Strings, paths and names *)

(** [s.endswith(suffix)] *)
Definition endswith (s suffix : string) : bool :=
  let n := String.length s in
  let m := String.length suffix in
  if (n <? m)%nat then false
  else String.eqb (substring (n - m) m s) suffix.

(** [s.startswith(p)] *)
Definition startswith (s p : string) : bool := prefix p s.

(** [s.replace(old, new)] for a non-empty [old]: occurrences are replaced
    from left to right without overlap.  [skip] counts the characters of an
    occurrence already replaced that are still to be dropped. *)
Fixpoint replace_from (old new s : string) (skip : nat) : string :=
  match s with
  | EmptyString => EmptyString
  | String ch rest =>
      match skip with
      | S skip' => replace_from old new rest skip'
      | O =>
          if prefix old s
          then (new ++ replace_from old new rest (String.length old - 1))%string
          else String ch (replace_from old new rest O)
      end
  end.

Definition str_replace (s old new : string) : string := replace_from old new s O.

(** [os.path.join(a, b)] on POSIX. *)
Definition os_path_join (a b : string) : string :=
  if startswith b "/" then b
  else if (String.eqb a "" || endswith a "/")%bool then (a ++ b)%string
  else (a ++ "/" ++ b)%string.

(** [f"{n}"] for an integer: its decimal digits, after a minus sign when
    it is negative. *)
Definition decimal (n : Z) : string := NilZero.string_of_int (Z.to_int n).

Fixpoint zeros (k : nat) : string :=
  match k with
  | O => EmptyString
  | S k' => String "0" (zeros k')
  end.

(** ["{:07d}".format(z)]: decimal digits padded with zeros to seven
    characters, the sign (for a negative number) counting as one. *)
Definition format_07d (z : Z) : string :=
  if z <? 0
  then let d := decimal (- z) in ("-" ++ zeros (6 - String.length d) ++ d)%string
  else let d := decimal z in (zeros (7 - String.length d) ++ d)%string.

(* ================================================================== *)
(** ** The world the scripts act on *)

Inductive level : Type := INFO | WARNING | ERROR.

(** What the code does to the outside, in the order it does it.  A call
    leaves its event when it returns; a call that raises leaves none. *)
Inductive event : Type :=
  | EvRun (url : string)              (* subprocess.run(["yt-dlp", ..., url], timeout=300) *)
  | EvSleep (secs : Z)                (* time.sleep(secs) *)
  | EvLog (lv : level)                (* logging.info / warning / error *)
  | EvRemove (path : string)          (* os.remove(path) returned *)
  | EvWrite (path : string)           (* open(path, "wb") ... f.write(file) returned *)
  | EvDecoderInit (path : string)     (* decoder.initialize(path) *)
  | EvDecode (frame_idx : Z)          (* one step of iterating the decoder *)
  | EvDecoderFinish                   (* decoder.finish() *)
  | EvEncoderInit                     (* encoder.initialize() *)
  | EvEncode (frame_idx : Z)          (* encoder(frames) *)
  | EvEncoderFinish.                  (* encoder.finish() *)

(** A file is kept with the directory it was created in: the entry [(d, n)]
    is the file of path [os.path.join(d, n)].  A file opened by its full
    path [p] is the entry [("", p)].  The list is in the order of
    creation. *)
Definition entry : Type := (string * string)%type.

Definition entry_path (e : entry) : string := os_path_join (fst e) (snd e).

(** The local variables of a worker that the exception handler of its job
    loop reads or updates: they keep their value when the [try] body is left
    by an exception.  [video_path] is [None] while it is unbound or bound
    to [None]. *)
Record locals : Type := mkLocals {
  processed_count : Z;
  failed_count : Z;
  video_path : option string
}.

Record world : Type := mkWorld {
  files : list entry;
  runs : nat;               (* downloader invocations made so far *)
  trace : list event;       (* oldest first *)
  vars : locals
}.

(** What one call of [subprocess.run] on the downloader does. *)
Inductive run_outcome : Type :=
  | Exited (returncode : Z) (created : list string)
      (* the process ended; [created] are the file names it left in the
         output directory *)
  | RunRaised (e : exn).
      (* [subprocess.run] raised: [TimeoutExpired] after 300 s, or anything
         else (the executable is missing, ...) *)

(** One item the decoder yields, or the error it raises instead (an error
    of the engine shows as an error of the iteration). *)
Inductive decoded : Type :=
  | Frame
  | DecodeError (e : exn).

(** The behaviour of everything outside the scripts. *)
Record env : Type := mkEnv {
  ytdlp : nat -> string -> run_outcome;
      (* outcome of the [n]-th downloader invocation, made for a URL *)
  listdir_error : nat -> option exn;
      (* [os.listdir] raising when the directory is scanned after [n]
         invocations *)
  remove_error : string -> option exn;
      (* an [os.remove] that the system refuses for this path *)
  manifest : string -> res (list (Z * Z));
      (* the clip file at a path, read and parsed line by line *)
  video : string -> list decoded;
      (* what the decoder yields for the video file at a path *)
  cuda_init_error : option exn;
      (* CUDA context / decoder / encoder construction raising *)
  ffmpeg_error : string -> option exn;
      (* [subprocess.run(ffmpeg ..., check=True)] raising for an output file *)
  listdir_rank : string -> Z;
      (* the order in which the file system lists names: lower rank first *)
  open_error : nat -> string -> option exn;
      (* [open(path, "wb")] raising, when called after [n] events *)
  call_error : nat -> event -> option exn
      (* the call that would leave this event -- a call of the decoder or
         of the encoder, or [f.write] -- raising instead, when made after
         [n] events *)
}.

(* ================================================================== *)
(** ** The monad of effectful code: state and exceptions *)

Definition M (A : Type) : Type := world -> res A * world.

Definition ret {A} (a : A) : M A := fun w => (Ret a, w).

Definition raise {A} (e : exn) : M A := fun w => (Raise e, w).

Definition bind {A B} (m : M A) (k : A -> M B) : M B :=
  fun w => match m w with
           | (Ret a, w') => k a w'
           | (Raise e, w') => (Raise e, w')
           end.

(** [try: m  except Exception as e: h e] *)
Definition try_except {A} (m : M A) (h : exn -> M A) : M A :=
  fun w => match m w with
           | (Ret a, w') => (Ret a, w')
           | (Raise e, w') => h e w'
           end.

Notation "x <- m ;; k" := (bind m (fun x => k))
  (at level 61, m at next level, right associativity).
Notation "m ;;; k" := (bind m (fun _ => k))
  (at level 61, right associativity).

Definition emit (ev : event) : M unit :=
  fun w => (Ret tt, mkWorld (files w) (runs w) (trace w ++ [ev]) (vars w)).

Definition logging (lv : level) : M unit := emit (EvLog lv).

Definition time_sleep (secs : Z) : M unit := emit (EvSleep secs).

(** *** File system primitives *)

Definition path_eqb (p : string) (e : entry) : bool := String.eqb (entry_path e) p.

Definition has_entry (d n : string) (fs : list entry) : bool :=
  existsb (fun e => (String.eqb (fst e) d && String.eqb (snd e) n)%bool) fs.

(** Files left by the downloader under [--no-overwrites]: a name already
    present in the directory is kept as it is. *)
Fixpoint create_files (d : string) (names : list string) (fs : list entry) : list entry :=
  match names with
  | [] => fs
  | n :: rest =>
      create_files d rest (if has_entry d n fs then fs else fs ++ [(d, n)])
  end.

Definition os_path_exists (p : string) : M bool :=
  fun w => (Ret (existsb (path_eqb p) (files w)), w).

Definition os_remove (E : env) (p : string) : M unit :=
  fun w =>
    if existsb (path_eqb p) (files w) then
      match remove_error E p with
      | Some e => (Raise e, w)
      | None =>
          (Ret tt, mkWorld (filter (fun e => negb (path_eqb p e)) (files w))
                           (runs w) (trace w ++ [EvRemove p]) (vars w))
      end
    else (Raise FileNotFoundError, w).

(** The names of the files of a directory, in the order of creation. *)
Definition listing (d : string) (fs : list entry) : list string :=
  map snd (filter (fun e => String.eqb (fst e) d) fs).

(** The order in which the file system lists names is its own: here the
    order of [rank], names of equal rank staying in the order they have. *)
Fixpoint place (rank : string -> Z) (x : string) (l : list string) : list string :=
  match l with
  | [] => [x]
  | y :: l' => if rank x <=? rank y then x :: l else y :: place rank x l'
  end.

Definition in_dir_order (rank : string -> Z) (l : list string) : list string :=
  fold_right (place rank) [] l.

Definition os_listdir (E : env) (d : string) : M (list string) :=
  fun w => match listdir_error E (runs w) with
           | Some e => (Raise e, w)
           | None => (Ret (in_dir_order (listdir_rank E) (listing d (files w))), w)
           end.

(** A file comes to exist at the path [p] (an existing one is replaced). *)
Definition with_file (p : string) (fs : list entry) : list entry :=
  if existsb (path_eqb p) fs then fs else fs ++ [("", p)].

(** A file written by another program (the event is the same as for a
    file the script writes itself). *)
Definition create_file (p : string) : M unit :=
  fun w => (Ret tt,
            mkWorld (with_file p (files w)) (runs w) (trace w ++ [EvWrite p]) (vars w)).

(** [with open(p, "wb") as f: f.write(...)].  [open] can raise, and then
    there is no file; [f.write] can raise, and then the file is there
    without its content having been written. *)
Definition write_file (E : env) (p : string) : M unit :=
  fun w =>
    match open_error E (List.length (trace w)) p with
    | Some ex => (Raise ex, w)
    | None =>
        match call_error E (List.length (trace w)) (EvWrite p) with
        | Some ex =>
            (Raise ex, mkWorld (with_file p (files w)) (runs w) (trace w) (vars w))
        | None =>
            (Ret tt,
             mkWorld (with_file p (files w)) (runs w) (trace w ++ [EvWrite p]) (vars w))
        end
    end.

(** A call of the decoder or of the encoder: it raises, or it returns and
    leaves its event. *)
Definition call (E : env) (ev : event) : M unit :=
  fun w =>
    match call_error E (List.length (trace w)) ev with
    | Some ex => (Raise ex, w)
    | None => emit ev w
    end.

(** [subprocess.run(cmd, capture_output=True, text=True, timeout=300)] for
    the downloader command line; the value is [result.returncode]. *)
Definition subprocess_run (E : env) (url temp_video_dir : string) : M Z :=
  fun w =>
    let w1 := mkWorld (files w) (S (runs w)) (trace w ++ [EvRun url]) (vars w) in
    match ytdlp E (runs w) url with
    | Exited rc created =>
        (Ret rc, mkWorld (create_files temp_video_dir created (files w1))
                         (runs w1) (trace w1) (vars w1))
    | RunRaised e => (Raise e, w1)
    end.

(* ================================================================== *)
(** ** Fetch: [download_single_video] *)

(** What the body of a [for] loop asks for when it ends: the next
    iteration, or [return r] out of the function. *)
Inductive flow (R : Type) : Type :=
  | Continue
  | Return (r : R).
Arguments Continue {R}.
Arguments Return {R} r.

(** The tuple [(success, video_path, video_id)] the function returns: it is
    either [(True, path, id)] or [(False, None, None)]. *)
Inductive fetch_result : Type :=
  | Fetched (video_path video_id : string)
  | NotFetched.

Definition success (r : fetch_result) : bool :=
  match r with
  | Fetched _ _ => true
  | NotFetched => false
  end.

(** [for file in os.listdir(temp_video_dir): if file.endswith(".mp4"): return ...] *)
Fixpoint find_mp4 (temp_video_dir : string) (names : list string) : flow fetch_result :=
  match names with
  | [] => Continue
  | file :: rest =>
      if endswith file ".mp4" then
        let video_id := str_replace file ".mp4" "" in
        Return (Fetched (os_path_join temp_video_dir file) video_id)
      else find_mp4 temp_video_dir rest
  end.

(** The body of [for attempt in range(max_retries)]: the [try] statement. *)
Definition download_attempt (E : env) (url temp_video_dir : string)
           (max_retries attempt : Z) : M (flow fetch_result) :=
  try_except
    (returncode <- subprocess_run E url temp_video_dir ;;
     if returncode =? 0 then
       names <- os_listdir E temp_video_dir ;;
       match find_mp4 temp_video_dir names with
       | Return r => ret (Return r)
       | Continue => ret (Return NotFetched)
       end
     else
       logging WARNING ;;;
       (if attempt <? max_retries - 1 then time_sleep 5 else ret tt) ;;;
       ret Continue)
    (fun e =>
       match e with
       | TimeoutExpired => logging WARNING ;;; ret Continue
       | _ => logging ERROR ;;; ret Continue
       end).

(** The loop; [k] counts the iterations [range(max_retries)] still gives. *)
Fixpoint download_loop (E : env) (url temp_video_dir : string)
         (max_retries : Z) (k : nat) (attempt : Z) : M fetch_result :=
  match k with
  | O => ret NotFetched
  | S k' =>
      f <- download_attempt E url temp_video_dir max_retries attempt ;;
      match f with
      | Return r => ret r
      | Continue => download_loop E url temp_video_dir max_retries k' (attempt + 1)
      end
  end.

Definition download_single_video (E : env) (url temp_video_dir : string)
           (max_retries : Z) : M fetch_result :=
  download_loop E url temp_video_dir max_retries (Z.to_nat max_retries) 0.

(** The downloader invocations and the sleeps of a trace, in order. *)
Definition is_schedule_event (ev : event) : bool :=
  match ev with
  | EvRun _ | EvSleep _ => true
  | _ => false
  end.

Definition schedule (t : list event) : list event := filter is_schedule_event t.

(** *** Vocabulary for the behaviour of the downloader *)

(** The [n]-th invocation fails: the process exits with a nonzero code, or
    [subprocess.run] raises (timeout or any other exception). *)
Definition invocation_fails (E : env) (url : string) (n : nat) : bool :=
  match ytdlp E n url with
  | Exited rc _ => negb (rc =? 0)
  | RunRaised _ => true
  end.

(** The [n]-th invocation fails by a nonzero exit code. *)
Definition exits_nonzero (E : env) (url : string) (n : nat) : bool :=
  match ytdlp E n url with
  | Exited rc _ => negb (rc =? 0)
  | RunRaised _ => false
  end.

(** The [n]-th invocation succeeds: exit code 0, a [.mp4] file left in the
    directory, and the scan of the directory does not raise. *)
Definition invocation_succeeds (E : env) (url : string) (n : nat) : bool :=
  match ytdlp E n url, listdir_error E (S n) with
  | Exited rc created, None =>
      ((rc =? 0) && existsb (fun f => endswith f ".mp4") created)%bool
  | _, _ => false
  end.

(** The attempt made with the [n]-th invocation ends in an error: the
    invocation fails, or it exits with code 0 and the scan of the directory
    that follows it raises. *)
Definition attempt_fails (E : env) (url : string) (n : nat) : bool :=
  match ytdlp E n url with
  | Exited rc _ =>
      if rc =? 0 then
        match listdir_error E (S n) with
        | Some _ => true
        | None => false
        end
      else true
  | RunRaised _ => true
  end.

(** The invocations and sleeps of [k] failed attempts, the first of them
    being invocation [n0] made as attempt number [a]: a sleep of 5 seconds
    follows an attempt that exited with a nonzero code, unless it is the
    last of the [max_retries] attempts. *)
Definition schedule_from (E : env) (url : string) (max_retries : Z)
           (n0 a k : nat) : list event :=
  flat_map
    (fun i => EvRun url ::
              (if (exits_nonzero E url (n0 + i)
                   && (Z.of_nat (a + i) <? max_retries - 1))%bool
               then [EvSleep 5] else []))
    (seq 0 k).

(** The same for a call of [download_single_video]: the attempts are
    numbered from 0. *)
Definition failed_schedule (E : env) (url : string) (max_retries : Z)
           (n0 k : nat) : list event :=
  schedule_from E url max_retries n0 0 k.

(** The level at which the handlers of the [try] statement log. *)
Definition handler_level (e : exn) : level :=
  match e with
  | TimeoutExpired => WARNING
  | _ => ERROR
  end.

(** [k] invocations with a sleep of 5 seconds between each two. *)
Fixpoint spaced_runs (url : string) (k : nat) : list event :=
  match k with
  | O => []
  | S O => [EvRun url]
  | S k' => EvRun url :: EvSleep 5 :: spaced_runs url k'
  end.

(* ================================================================== *)
(** ** Segmenting: [process_one_video] / [process_one_video_cuda] *)

(** The loop [for frame_idx, frames in enumerate(decoder)].  [items] is what
    the decoder still has to yield; [clip_idx], [s], [e] and [out] are the
    loop's variables ([out] is the list [files]).  The value is
    [(clip_idx, files)] when the loop is left, by exhaustion or by [break]. *)
Fixpoint segment_loop (E : env) (vstream_filename_format : Z -> Z -> string)
         (clips : list (Z * Z)) (items : list decoded) (frame_idx : Z)
         (clip_idx s e : Z) (out : list string) : M (Z * list string) :=
  match items with
  | [] => ret (clip_idx, out)
  | DecodeError ex :: _ => raise ex
  | Frame :: rest =>
      emit (EvDecode frame_idx) ;;;
      if frame_idx =? s then
        call E EvEncoderInit ;;;
        call E (EvEncode frame_idx) ;;;
        segment_loop E vstream_filename_format clips rest (frame_idx + 1) clip_idx s e out
      else if ((s <? frame_idx) && (frame_idx <? e - 1))%bool then
        call E (EvEncode frame_idx) ;;;
        segment_loop E vstream_filename_format clips rest (frame_idx + 1) clip_idx s e out
      else if frame_idx =? e - 1 then
        call E (EvEncode frame_idx) ;;;
        call E EvEncoderFinish ;;;
        write_file E (vstream_filename_format s e) ;;;
        let out' := out ++ [vstream_filename_format s e] in
        let clip_idx' := clip_idx + 1 in
        if clip_idx' =? len clips then ret (clip_idx', out')
        else
          match nth_error clips (Z.to_nat clip_idx') with
          | Some (s', e') =>
              segment_loop E vstream_filename_format clips rest (frame_idx + 1)
                           clip_idx' s' e' out'
          | None => raise IndexError
          end
      else
        segment_loop E vstream_filename_format clips rest (frame_idx + 1) clip_idx s e out
  end.

(** [vstream_filename_format] stands for the format string: the function is
    what [vstream_filename_format.format(s, e)] gives. *)
Definition process_one_video (E : env) (video_filename : string)
           (vstream_filename_format : Z -> Z -> string)
           (clips : list (Z * Z)) : M (list string) :=
  match clips with
  | [] => ret []
  | (s0, e0) :: _ =>
      call E (EvDecoderInit video_filename) ;;;
      r <- segment_loop E vstream_filename_format clips (video E video_filename)
                        0 0 s0 e0 [] ;;
      let '(clip_idx, out) := r in
      if ((clip_idx =? len clips) && (len clips =? len out))%bool then
        call E EvDecoderFinish ;;;
        ret out
      else raise AssertionError
  end.

(** No call into the engine and no write of a file raises. *)
Definition engine_ok (E : env) : Prop :=
  (forall n p, open_error E n p = None) /\
  (forall n ev, call_error E n ev = None).

(** The same outside with an engine and a file system that never raise. *)
Definition quiet (E : env) : env :=
  mkEnv (ytdlp E) (listdir_error E) (remove_error E) (manifest E) (video E)
        (cuda_init_error E) (ffmpeg_error E) (listdir_rank E)
        (fun _ _ => None) (fun _ _ => None).

Definition event_eqb (a b : event) : bool :=
  match a, b with
  | EvRun u, EvRun v => String.eqb u v
  | EvSleep x, EvSleep y => x =? y
  | EvLog INFO, EvLog INFO | EvLog WARNING, EvLog WARNING
  | EvLog ERROR, EvLog ERROR => true
  | EvRemove p, EvRemove q => String.eqb p q
  | EvWrite p, EvWrite q => String.eqb p q
  | EvDecoderInit p, EvDecoderInit q => String.eqb p q
  | EvDecode i, EvDecode j => i =? j
  | EvDecoderFinish, EvDecoderFinish => true
  | EvEncoderInit, EvEncoderInit => true
  | EvEncode i, EvEncode j => i =? j
  | EvEncoderFinish, EvEncoderFinish => true
  | _, _ => false
  end.

(** How often an event occurs in a trace. *)
Definition count_event (ev : event) (t : list event) : nat :=
  List.length (filter (event_eqb ev) t).

(** A trace in which the decoder is never closed. *)
Definition no_finish (t : list event) : Prop :=
  count_event EvDecoderFinish t = 0%nat.

(** The frames taken from the decoder, those given to the encoder, and the
    artifacts written, in order. *)
Definition decoded_frames (t : list event) : list Z :=
  flat_map (fun ev => match ev with EvDecode i => [i] | _ => [] end) t.

Definition encoded_frames (t : list event) : list Z :=
  flat_map (fun ev => match ev with EvEncode i => [i] | _ => [] end) t.

Definition written (t : list event) : list string :=
  flat_map (fun ev => match ev with EvWrite p => [p] | _ => [] end) t.

(** The fallback of the compatible script: one [ffmpeg] run per clip. *)
Definition run_ffmpeg (E : env) (output_file : string) : M unit :=
  fun w => match ffmpeg_error E output_file with
           | Some ex => (Raise ex, w)
           | None => create_file output_file w
           end.

(** [n / 30.0] for an integer [n]: the integer is converted to a double
    first, which raises [OverflowError] when it rounds to 2^1024 or beyond,
    that is from 2^1024 - 2^970 on.  The quotient itself only goes into the
    command line of [ffmpeg]. *)
Definition float_overflows (n : Z) : bool := 2 ^ 1024 - 2 ^ 970 <=? Z.abs n.

Definition div_float (n : Z) : M unit :=
  if float_overflows n then raise OverflowError else ret tt.

Fixpoint process_with_ffmpeg (E : env) (video_path : string)
         (clips : list (Z * Z)) (output_dir video_id : string) : M (list string) :=
  match clips with
  | [] => ret []
  | (start_frame, end_frame) :: rest =>
      (* start_time = start_frame / 30.0 *)
      div_float start_frame ;;;
      (* duration = (end_frame - start_frame) / 30.0 *)
      div_float (end_frame - start_frame) ;;;
      let output_file :=
        os_path_join output_dir
          (video_id ++ "_" ++ format_07d start_frame ++ "_"
                    ++ format_07d end_frame ++ ".mp4")%string in
      done <- try_except
                (run_ffmpeg E output_file ;;;
                 logging INFO ;;;
                 ret [output_file])
                (fun ex =>
                   match ex with
                   | CalledProcessError => logging ERROR ;;; ret []
                   | _ => raise ex
                   end) ;;
      more <- process_with_ffmpeg E video_path rest output_dir video_id ;;
      ret (done ++ more)
  end.

(* ================================================================== *)
(** ** The worker: [process_worker] *)

Definition get_video_path : M (option string) :=
  fun w => (Ret (video_path (vars w)), w).

Definition set_video_path (p : option string) : M unit :=
  fun w => (Ret tt,
            mkWorld (files w) (runs w) (trace w)
                    (mkLocals (processed_count (vars w)) (failed_count (vars w)) p)).

(** [processed_count += 1] *)
Definition incr_processed : M unit :=
  fun w => (Ret tt,
            mkWorld (files w) (runs w) (trace w)
                    (mkLocals (processed_count (vars w) + 1) (failed_count (vars w))
                              (video_path (vars w)))).

(** [failed_count += 1] *)
Definition incr_failed : M unit :=
  fun w => (Ret tt,
            mkWorld (files w) (runs w) (trace w)
                    (mkLocals (processed_count (vars w)) (failed_count (vars w) + 1)
                              (video_path (vars w)))).

(** [with open(clip_file, "r") as f: clips = [tuple(map(int, ...)) for line in f]] *)
Definition read_clips (E : env) (clip_file : string) : M (list (Z * Z)) :=
  fun w => (manifest E clip_file, w).

(** Step 5 of the job: how the clips are cut.  The arguments are the video
    path, the output directory of the video, its id and the clips. *)
Definition segmenter : Type :=
  string -> string -> string -> list (Z * Z) -> M (list string).

(** [download_and_process.py]: always the GPU engine. *)
Definition segment_cuda (E : env) : segmenter :=
  fun video_path video_output_dir video_id clips =>
    let vstream_format s e :=
      os_path_join video_output_dir
        (video_id ++ "_" ++ format_07d s ++ "_" ++ format_07d e ++ ".hevc")%string in
    process_one_video E video_path vstream_format clips.

(** [download_and_process_compatible.py]: the GPU engine or [ffmpeg]. *)
Definition segment_compatible (E : env) (use_cuda : bool) : segmenter :=
  fun video_path video_output_dir video_id clips =>
    if use_cuda then segment_cuda E video_path video_output_dir video_id clips
    else process_with_ffmpeg E video_path clips video_output_dir video_id.

(** The body of [for i, url in enumerate(urls)]: one job. *)
Definition process_job (E : env) (seg : segmenter)
           (input_clip_dir output_dir temp_video_dir url : string) : M unit :=
  try_except
    (logging INFO ;;;
     (* 1. download *)
     r <- download_single_video E url temp_video_dir 3 ;;
     match r with
     | NotFetched =>
         set_video_path None ;;;
         logging ERROR ;;;
         incr_failed
     | Fetched video_path video_id =>
         set_video_path (Some video_path) ;;;
         logging INFO ;;;
         (* 2. is there a clip file? *)
         let clip_file := os_path_join input_clip_dir (video_id ++ ".txt")%string in
         found <- os_path_exists clip_file ;;
         if negb found then
           logging WARNING ;;;
           os_remove E video_path ;;;
           incr_failed
         else
           (* 3. read the clips *)
           clips <- read_clips E clip_file ;;
           if len clips =? 0 then
             logging WARNING ;;;
             os_remove E video_path
           else
             (* 4., 5. output directory, segmenting *)
             let video_output_dir := os_path_join output_dir video_id in
             logging INFO ;;;
             processed_files <- seg video_path video_output_dir video_id clips ;;
             logging INFO ;;;
             incr_processed ;;;
             (* 6. delete the source video *)
             os_remove E video_path ;;;
             logging INFO
     end)
    (fun ex =>
       logging ERROR ;;;
       try_except
         (vp <- get_video_path ;;
          match vp with
          | Some p =>
              found <- os_path_exists p ;;
              if found then os_remove E p else ret tt
          | None => ret tt
          end)
         (fun _ => ret tt) ;;;
       incr_failed).

Fixpoint process_jobs (E : env) (seg : segmenter)
         (input_clip_dir output_dir temp_video_dir : string)
         (urls : list string) : M unit :=
  match urls with
  | [] => ret tt
  | url :: rest =>
      process_job E seg input_clip_dir output_dir temp_video_dir url ;;;
      process_jobs E seg input_clip_dir output_dir temp_video_dir rest
  end.

(** A file the system lets delete. *)
Definition deletable (E : env) (e : entry) : bool :=
  match remove_error E (entry_path e) with
  | None => true
  | Some _ => false
  end.

(** [shutil.rmtree(temp_video_dir, ignore_errors=True)]: the files of the
    directory are deleted one by one; a deletion the system refuses is an
    error that is ignored, and that file stays. *)
Definition rmtree (E : env) (d : string) : M unit :=
  fun w => (Ret tt,
            mkWorld (filter (fun e => negb (String.eqb (fst e) d && deletable E e))
                            (files w))
                    (runs w) (trace w) (vars w)).

Definition init_counts : M unit :=
  fun w => (Ret tt,
            mkWorld (files w) (runs w) (trace w)
                    (mkLocals 0 0 (video_path (vars w)))).

(** [process_worker] of [download_and_process.py].  The value is the
    pair of tallies of the closing log line, or [None] when the worker
    returns early because CUDA could not be initialised. *)
Definition process_worker (E : env) (worker_id : Z) (urls : list string)
           (input_clip_dir output_dir : string) (start_delay : Z)
  : M (option (Z * Z)) :=
  (if start_delay >? 0 then logging INFO ;;; time_sleep start_delay else ret tt) ;;;
  logging INFO ;;;
  let temp_video_dir := ("/tmp/temp_videos_worker_" ++ decimal worker_id)%string in
  logging INFO ;;;
  match cuda_init_error E with
  | Some _ => logging ERROR ;;; ret None
  | None =>
      logging INFO ;;;
      init_counts ;;;
      process_jobs E (segment_cuda E) input_clip_dir output_dir temp_video_dir urls ;;;
      (* finally: *)
      logging INFO ;;;
      logging INFO ;;;
      rmtree E temp_video_dir ;;;
      logging INFO ;;;
      logging INFO ;;;
      fun w => (Ret (Some (processed_count (vars w), failed_count (vars w))), w)
  end.

(** [process_worker] of [download_and_process_compatible.py]: a failed CUDA
    initialisation falls back to [ffmpeg]. *)
Definition process_worker_compatible (E : env) (worker_id : Z) (urls : list string)
           (input_clip_dir output_dir : string) (start_delay : Z)
           (use_cuda cuda_available : bool)
  : M (Z * Z) :=
  (if start_delay >? 0 then logging INFO ;;; time_sleep start_delay else ret tt) ;;;
  logging INFO ;;;
  let temp_video_dir := ("/tmp/temp_videos_worker_" ++ decimal worker_id)%string in
  use_cuda' <- (if (use_cuda && cuda_available)%bool then
                  match cuda_init_error E with
                  | Some _ => logging WARNING ;;; ret false
                  | None => logging INFO ;;; ret true
                  end
                else logging INFO ;;; ret false) ;;
  init_counts ;;;
  process_jobs E (segment_compatible E use_cuda') input_clip_dir output_dir
               temp_video_dir urls ;;;
  logging INFO ;;;
  rmtree E temp_video_dir ;;;
  fun w => (Ret (processed_count (vars w), failed_count (vars w)), w).

(** How a job shows in the tallies: what it added to [processed_count] and
    to [failed_count]. *)
Inductive JobOutcome : Type := Completed | Skipped | Failed.

Definition recorded_outcome (before after : locals) : option JobOutcome :=
  let dp := processed_count after - processed_count before in
  let df := failed_count after - failed_count before in
  if ((dp =? 1) && (df =? 0))%bool then Some Completed
  else if ((dp =? 0) && (df =? 0))%bool then Some Skipped
  else if ((dp =? 0) && (df =? 1))%bool then Some Failed
  else None.

(* ================================================================== *)
(** ** Partitioner of [multi_download.py]: [split_urls_file] *)

(** [urls] are the stripped, non-empty lines read from [input_file].  The
    loop is the one of [split_urls]; each shard is written to its own file
    (its lines joined by newlines), and the list of the file paths is
    returned.  Here every path comes with the lines written to it. *)
Fixpoint split_files_loop (urls : list string) (urls_per_worker : Z)
         (output_dir : string) (k : nat) (i : Z)
         (split_files : list (string * list string)) : list (string * list string) :=
  match k with
  | O => split_files
  | S k' =>
      let start_idx := i * urls_per_worker in
      let end_idx := Z.min ((i + 1) * urls_per_worker) (len urls) in
      if start_idx >=? len urls then split_files
      else
        let worker_urls := py_slice urls start_idx end_idx in
        let split_file :=
          os_path_join output_dir ("urls_worker_" ++ decimal i ++ ".txt")%string in
        split_files_loop urls urls_per_worker output_dir k' (i + 1)
                         (split_files ++ [(split_file, worker_urls)])
  end.

Definition split_urls_file (urls : list string) (num_workers : Z)
           (output_dir : string) : res (list (string * list string)) :=
  match math_ceil_div (len urls) num_workers with
  | Raise e => Raise e
  | Ret urls_per_worker =>
      Ret (split_files_loop urls urls_per_worker output_dir
                            (Z.to_nat num_workers) 0 [])
  end.

(* ================================================================== *)
(** ** Concrete scenarios *)

(** An empty file system, no invocation made, nothing done yet. *)
Definition w_init : world := mkWorld [] 0 [] (mkLocals 0 0 None).

(** The same with the clip file of the video [vid] in the directory [clips]. *)
Definition w_clips : world :=
  mkWorld [("clips", "vid.txt")] 0 [] (mkLocals 0 0 None).

(** A well-behaved outside: the downloader leaves [vid.mp4], the clip file
    holds the one clip (0, 2), every video decodes to [n] frames, the
    directory is listed in the order of creation, and no call into the
    engine or the file system raises. *)
Definition env_ok (n : nat) : env :=
  mkEnv (fun _ _ => Exited 0 ["vid.mp4"])
        (fun _ => None)
        (fun _ => None)
        (fun _ => Ret [(0, 2)])
        (fun _ => repeat Frame n)
        None
        (fun _ => None)
        (fun _ => 0) (fun _ _ => None) (fun _ _ => None).

(** The downloader exits with code 1 once, then succeeds. *)
Definition env_flaky : env :=
  mkEnv (fun n _ => match n with O => Exited 1 [] | _ => Exited 0 ["vid.mp4"] end)
        (fun _ => None) (fun _ => None)
        (fun _ => Ret [(0, 2)]) (fun _ => repeat Frame 2) None (fun _ => None)
        (fun _ => 0) (fun _ _ => None) (fun _ _ => None).

(** Every invocation of the downloader runs into the timeout. *)
Definition env_timeouts : env :=
  mkEnv (fun _ _ => RunRaised TimeoutExpired)
        (fun _ => None) (fun _ => None)
        (fun _ => Ret [(0, 2)]) (fun _ => repeat Frame 2) None (fun _ => None)
        (fun _ => 0) (fun _ _ => None) (fun _ _ => None).

(** The downloader exits with code 0 and leaves no video file. *)
Definition env_no_file : env :=
  mkEnv (fun _ _ => Exited 0 ["vid.part"])
        (fun _ => None) (fun _ => None)
        (fun _ => Ret [(0, 2)]) (fun _ => repeat Frame 2) None (fun _ => None)
        (fun _ => 0) (fun _ _ => None) (fun _ _ => None).

(** The downloader exits with code 1 once, then with code 0 without leaving
    a video file. *)
Definition env_fail_then_no_file : env :=
  mkEnv (fun n _ => match n with O => Exited 1 [] | _ => Exited 0 ["vid.part"] end)
        (fun _ => None) (fun _ => None)
        (fun _ => Ret [(0, 2)]) (fun _ => repeat Frame 2) None (fun _ => None)
        (fun _ => 0) (fun _ _ => None) (fun _ _ => None).

(** The downloader exits with code 0 and leaves [vid.mp4], but every scan
    of the directory raises. *)
Definition env_scan_raises : env :=
  mkEnv (fun _ _ => Exited 0 ["vid.mp4"])
        (fun _ => Some PermissionError) (fun _ => None)
        (fun _ => Ret [(0, 2)]) (fun _ => repeat Frame 2) None (fun _ => None)
        (fun _ => 0) (fun _ _ => None) (fun _ _ => None).

(** As [env_ok 2], but the system refuses to delete any file. *)
Definition env_delete_refused : env :=
  mkEnv (fun _ _ => Exited 0 ["vid.mp4"])
        (fun _ => None)
        (fun _ => Some PermissionError)
        (fun _ => Ret [(0, 2)])
        (fun _ => repeat Frame 2)
        None
        (fun _ => None)
        (fun _ => 0) (fun _ _ => None) (fun _ _ => None).

(** A plain format string: ["{:07d}_{:07d}.hevc"]. *)
Definition plain_format (s e : Z) : string :=
  (format_07d s ++ "_" ++ format_07d e ++ ".hevc")%string.

(** The world a job's segmenting starts in, [w1] being the world its fetch
    ended in: [video_path] is bound and two more log lines are out. *)
Definition segment_start (w1 : world) (video_path : string) : world :=
  mkWorld (files w1) (runs w1) ((trace w1 ++ [EvLog INFO]) ++ [EvLog INFO])
          (mkLocals (processed_count (vars w1)) (failed_count (vars w1))
                    (Some video_path)).

(** The world a job's fetch starts in: the job's first log line is out. *)
Definition job_start (w : world) : world :=
  mkWorld (files w) (runs w) (trace w ++ [EvLog INFO]) (vars w).

(* ================================================================== *)
(** ** The thread worker: [process_worker_thread] *)

(** The body of the loop of [process_worker_thread]: one job of a thread.
    The thread keeps no tallies and its handler only logs.  [with
    thread_lock:] serialises the segmenting of the threads; for the one
    thread followed here it has no effect of its own. *)
Definition thread_job (E : env) (seg : segmenter)
           (input_clip_dir output_dir : string) (worker_id : Z) (url : string)
  : M unit :=
  try_except
    (logging INFO ;;;
     let temp_video_dir := ("/tmp/temp_videos_thread_" ++ decimal worker_id)%string in
     r <- download_single_video E url temp_video_dir 3 ;;
     match r with
     | NotFetched => ret tt
     | Fetched video_path video_id =>
         let clip_file := os_path_join input_clip_dir (video_id ++ ".txt")%string in
         found <- os_path_exists clip_file ;;
         if negb found then os_remove E video_path
         else
           clips <- read_clips E clip_file ;;
           if len clips =? 0 then os_remove E video_path
           else
             let video_output_dir := os_path_join output_dir video_id in
             logging INFO ;;;
             processed_files <- seg video_path video_output_dir video_id clips ;;
             os_remove E video_path ;;;
             logging INFO
     end)
    (fun _ => logging ERROR).

Fixpoint process_worker_thread (E : env) (worker_id : Z) (urls : list string)
         (input_clip_dir output_dir : string) : M unit :=
  match urls with
  | [] => ret tt
  | url :: rest =>
      thread_job E (segment_cuda E) input_clip_dir output_dir worker_id url ;;;
      process_worker_thread E worker_id rest input_clip_dir output_dir
  end.

(* ================================================================== *)
(** ** [multi_download.py]: [cleanup_temp_files] *)

(** [for file_path in split_files: try: os.remove(file_path) ... except
    Exception ...].  Both branches only print; what is printed is not part
    of the world. *)
Fixpoint cleanup_temp_files (E : env) (split_files : list string) : M unit :=
  match split_files with
  | [] => ret tt
  | file_path :: rest =>
      try_except (os_remove E file_path) (fun _ => ret tt) ;;;
      cleanup_temp_files E rest
  end.

(* ================================================================== *)
(** ** Vocabulary for the extra properties *)

(** The frames [s, s+1, ..., e-1]. *)
Definition frame_range (s e : Z) : list Z :=
  map (fun i => s + Z.of_nat i) (seq 0 (Z.to_nat (e - s))).

(** Clips as the manifest format promises them, for cutting with the GPU
    engine: each clip starts at or after [from], holds at least two frames,
    and the next one starts at or after its end. *)
Fixpoint clips_in_order (from : Z) (clips : list (Z * Z)) : Prop :=
  match clips with
  | [] => True
  | (s, e) :: rest => from <= s /\ s + 1 < e /\ clips_in_order e rest
  end.

(** The end of the last clip ([from] when there is none). *)
Fixpoint last_end (from : Z) (clips : list (Z * Z)) : Z :=
  match clips with
  | [] => from
  | (_, e) :: rest => last_end e rest
  end.

(** The name a format gives to a clip. *)
Definition clip_name (fmt : Z -> Z -> string) (c : Z * Z) : string :=
  fmt (fst c) (snd c).

(** A string without the character ["."]. *)
Fixpoint no_dot (s : string) : bool :=
  match s with
  | EmptyString => true
  | String ch rest => (negb (Ascii.eqb ch ".") && no_dot rest)%bool
  end.

(** The output file [process_with_ffmpeg] gives to a clip. *)
Definition ffmpeg_output (output_dir video_id : string) (c : Z * Z) : string :=
  os_path_join output_dir
    (video_id ++ "_" ++ format_07d (fst c) ++ "_" ++ format_07d (snd c) ++ ".mp4")%string.

(** The events of a fetch: invocations, sleeps and log lines. *)
Definition is_fetch_event (ev : event) : bool :=
  match ev with
  | EvRun _ | EvSleep _ | EvLog _ => true
  | _ => false
  end.

(** What a stretch of the trace of the frame loop shows: the frames
    decoded, the frames encoded and the files written, with the decoder
    left open. *)
Definition seg_trace (t : list event) (dec enc : list Z) (wr : list string) : Prop :=
  decoded_frames t = dec /\ encoded_frames t = enc /\ written t = wr /\
  count_event EvDecoderFinish t = 0%nat.

(** What the frame loop does once the current clip is complete: it leaves
    the loop when this was the last clip, and goes on with the next clip
    otherwise, [m'] frames being left in the source. *)
Definition after_clip (E : env) (fmt : Z -> Z -> string) (clips : list (Z * Z))
           (m' : nat) (next clip_idx s e : Z) (out : list string)
  : M (Z * list string) :=
  if clip_idx + 1 =? len clips then ret (clip_idx + 1, out ++ [fmt s e])
  else
    match nth_error clips (Z.to_nat (clip_idx + 1)) with
    | Some (s', e') =>
        segment_loop E fmt clips (repeat Frame m') next (clip_idx + 1) s' e'
                     (out ++ [fmt s e])
    | None => raise IndexError
    end.

(** A clip whose start and length are within the range of a double. *)
Definition in_float_range (c : Z * Z) : bool :=
  (negb (float_overflows (fst c)) && negb (float_overflows (snd c - fst c)))%bool.

(** The output files of the clips whose [ffmpeg] run does not fail. *)
Definition ffmpeg_ok_outputs (E : env) (output_dir video_id : string)
           (clips : list (Z * Z)) : list string :=
  filter (fun p => match ffmpeg_error E p with None => true | Some _ => false end)
         (map (ffmpeg_output output_dir video_id) clips).

(** As [env_ok 2], but [ffmpeg] exits with an error for the clip (0, 2) of
    the video [vid] in the directory [out]. *)
Definition env_ffmpeg_flaky : env :=
  mkEnv (fun _ _ => Exited 0 ["vid.mp4"])
        (fun _ => None)
        (fun _ => None)
        (fun _ => Ret [(0, 2)])
        (fun _ => repeat Frame 2)
        None
        (fun p => if String.eqb p "out/vid_0000000_0000002.mp4"
                  then Some CalledProcessError else None)
        (fun _ => 0) (fun _ _ => None) (fun _ _ => None).

(** As [env_ok 2], but every clip file is empty. *)
Definition env_empty_manifest : env :=
  mkEnv (fun _ _ => Exited 0 ["vid.mp4"])
        (fun _ => None)
        (fun _ => None)
        (fun _ => Ret [])
        (fun _ => repeat Frame 2)
        None
        (fun _ => None)
        (fun _ => 0) (fun _ _ => None) (fun _ _ => None).

(* ================================================================== *)
(** * Properties *)

(** ** Partitioner *)

Section SliceFacts.
Variable A : Type.
Implicit Types (l urls : list A) (split shards : list (list A)).

Lemma len_nonneg l : 0 <= len l.
Proof. unfold len; lia. Qed.

Lemma py_slice_inside l a b :
  0 <= a <= b -> b <= len l ->
  py_slice l a b = firstn (Z.to_nat (b - a)) (skipn (Z.to_nat a) l).
Proof.
  intros Hab Hb. unfold py_slice, slice_bound.
  destruct (Z.ltb_spec a 0); [lia|].
  destruct (Z.ltb_spec b 0); [lia|].
  now rewrite !Z.max_r, !Z.min_l by lia.
Qed.

Lemma firstn_then_chunk l (a b : nat) :
  (a <= b)%nat ->
  firstn a l ++ firstn (b - a) (skipn a l) = firstn b l.
Proof.
  revert l b. induction a as [|a IH]; intros l b Hab.
  - now rewrite Nat.sub_0_r.
  - destruct b as [|b]; [lia|]. destruct l as [|x l]; [cbn; now rewrite firstn_nil|].
    cbn [firstn skipn app Nat.sub]. f_equal. apply IH. lia.
Qed.

Lemma len_py_slice l a b :
  0 <= a <= b -> b <= len l -> len (py_slice l a b) = b - a.
Proof.
  intros Hab Hb. rewrite py_slice_inside by assumption.
  unfold len in *. rewrite length_firstn, length_skipn. lia.
Qed.

Lemma in_double_range_underflows n w :
  in_double_range n w = true -> underflows n w = false.
Proof.
  unfold in_double_range. intros H. apply andb_prop in H as [_ H].
  now apply negb_true_iff in H.
Qed.

(** The ceiling quotient, for a positive divisor and a quotient that does
    not underflow. *)
Lemma math_ceil_div_pos n w :
  0 <= n -> 1 <= w -> underflows n w = false ->
  exists c, math_ceil_div n w = Ret c /\ 0 <= c /\ n <= c * w /\ (c - 1) * w < n + (if n =? 0 then 1 else 0) * w.
Proof.
  intros Hn Hw Hu. unfold math_ceil_div. rewrite Hu.
  destruct (Z.eqb_spec w 0); [lia|].
  eexists; split; [reflexivity|].
  pose proof (Z.div_mod (- n) w ltac:(lia)) as E.
  pose proof (Z.mod_pos_bound (- n) w ltac:(lia)) as B.
  destruct (Z.eqb_spec n 0); nia.
Qed.

(** For a divisor other than zero the quotient is a number, and it is not
    negative when the divisor is positive. *)
Lemma math_ceil_div_total n w :
  0 <= n -> 1 <= w -> exists c, math_ceil_div n w = Ret c /\ 0 <= c.
Proof.
  intros Hn Hw. unfold math_ceil_div.
  destruct (Z.eqb_spec w 0); [lia|].
  destruct (underflows n w); [exists 0; split; [reflexivity|lia]|].
  eexists; split; [reflexivity|].
  pose proof (Z.div_mod (- n) w ltac:(lia)) as E.
  pose proof (Z.mod_pos_bound (- n) w ltac:(lia)) as B.
  nia.
Qed.

(** When the quotient underflows, every shard is the empty slice. *)
Lemma split_loop_underflow urls :
  forall k i split, concat (split_loop urls 0 k i split) = concat split.
Proof.
  induction k as [|k IH]; intros i split; cbn [split_loop]; [reflexivity|].
  destruct (i * 0 >=? len urls); [reflexivity|].
  rewrite IH, concat_app. cbn [concat].
  replace (py_slice urls (i * 0) (Z.min ((i + 1) * 0) (len urls))) with (@nil A).
  - now rewrite !app_nil_r.
  - pose proof (len_nonneg urls). rewrite !Z.mul_0_r.
    rewrite (Z.min_l 0) by lia. now rewrite py_slice_inside by lia.
Qed.

(** Loop invariant for the concatenation: what has been appended so far is
    the prefix of [urls] cut at [i * urls_per_worker]. *)
Lemma split_loop_concat urls c :
  0 <= c ->
  forall k i split,
    0 <= i ->
    concat split = firstn (Z.to_nat (Z.min (i * c) (len urls))) urls ->
    len urls <= (Z.of_nat k + i) * c ->
    concat (split_loop urls c k i split) = urls.
Proof.
  intros Hc. pose proof (len_nonneg urls) as Hl.
  assert (Hall : firstn (Z.to_nat (len urls)) urls = urls).
  { unfold len. rewrite Nat2Z.id. apply firstn_all. }
  induction k as [|k IH]; intros i split Hi Hinv Hcov; cbn [split_loop].
  - rewrite Hinv, Z.min_r by lia. exact Hall.
  - destruct (Z.geb_spec (i * c) (len urls)) as [Hge|Hlt].
    + rewrite Hinv, Z.min_r by lia. exact Hall.
    + apply IH; [lia| |lia].
      rewrite concat_app, Hinv. cbn [concat]. rewrite app_nil_r.
      rewrite Z.min_l by lia.
      assert (0 <= i * c) by nia.
      assert (i * c <= Z.min ((i + 1) * c) (len urls)) by nia.
      rewrite py_slice_inside by lia.
      rewrite Z2Nat.inj_sub by lia.
      apply firstn_then_chunk. lia.
Qed.

Lemma full_but_last_nth c shards :
  full_but_last c shards ->
  forall j, (S j < List.length shards)%nat -> len (nth j shards []) = c.
Proof.
  induction shards as [|s rest IH]; intros H j Hj; [cbn in Hj; lia|].
  destruct rest as [|s' rest]; [cbn in Hj; lia|].
  destruct H as [Hs Hrest]. destruct j as [|j]; [exact Hs|].
  cbn [nth]. apply IH; [exact Hrest|]. cbn in Hj |- *. lia.
Qed.

Lemma full_but_last_bounds c shards :
  full_but_last c shards ->
  forall s, In s shards -> 1 <= len s <= c.
Proof.
  induction shards as [|s rest IH]; intros H x Hx; [contradiction|].
  destruct rest as [|s' rest].
  - destruct Hx as [<-|[]]. exact H.
  - destruct H as [Hs Hrest]. destruct Hx as [<-|Hx].
    + pose proof (IH Hrest s' (or_introl eq_refl)). lia.
    + now apply IH.
Qed.

Lemma split_loop_shape urls c :
  1 <= c ->
  forall k i split,
    0 <= i ->
    exists rest,
      split_loop urls c k i split = split ++ rest /\
      full_but_last c rest /\
      (len urls <= i * c -> rest = []) /\
      (List.length rest <= k)%nat.
Proof.
  intros Hc. pose proof (len_nonneg urls) as Hl.
  induction k as [|k IH]; intros i split Hi; cbn [split_loop].
  - exists []. rewrite app_nil_r. cbn. repeat split; auto.
  - destruct (Z.geb_spec (i * c) (len urls)) as [Hge|Hlt].
    + exists []. rewrite app_nil_r. cbn. repeat split; auto. lia.
    + destruct (IH (i + 1) (split ++ [py_slice urls (i * c) (Z.min ((i + 1) * c) (len urls))]))
        as (rest & E & Hshape & Hnil & Hlen); [lia|].
      eexists (_ :: rest). rewrite E, <- app_assoc. split; [reflexivity|].
      assert (0 <= i * c) by nia.
      assert (Hsz : len (py_slice urls (i * c) (Z.min ((i + 1) * c) (len urls)))
                    = Z.min ((i + 1) * c) (len urls) - i * c).
      { apply len_py_slice; lia. }
      split; [|split; [lia|cbn; lia]].
      destruct rest as [|s' rest'].
      * cbn. rewrite Hsz. lia.
      * cbn [full_but_last]. split; [|exact Hshape].
        rewrite Hsz.
        destruct (Z.le_gt_cases (len urls) ((i + 1) * c)) as [Hle|Hgt].
        -- specialize (Hnil Hle). discriminate.
        -- lia.
Qed.

End SliceFacts.

Section PartitionerClaims.
Variable A : Type.
Implicit Types (urls : list A) (shards : list (list A)).

Lemma split_urls_empty (W : Z) :
  1 <= W -> split_urls (@nil A) W = Ret [].
Proof.
  intros HW. unfold split_urls, math_ceil_div.
  destruct (Z.eqb_spec W 0); [lia|].
  destruct (Z.to_nat W) as [|k] eqn:E; [lia|].
  now destruct (underflows (len (@nil A)) W).
Qed.

Lemma sizes_spread c shards :
  (forall s, In s shards -> 1 <= len s <= c) ->
  max_size shards - min_size shards <= Z.max 0 (c - 1).
Proof.
  unfold max_size, min_size, shard_sizes.
  destruct shards as [|s rest]; intros H; [cbn; lia|].
  cbn [map fold_right].
  assert (Hmax : forall l, (forall x, In x l -> 1 <= len x <= c) ->
                           fold_right Z.max 0 (map (@len A) l) <= Z.max 0 c).
  { induction l as [|x l IH]; intros Hl; cbn; [lia|].
    pose proof (Hl x (or_introl eq_refl)).
    specialize (IH (fun y Hy => Hl y (or_intror Hy))). lia. }
  assert (Hmin : forall l z, 1 <= z -> (forall x, In x l -> 1 <= len x <= c) ->
                             1 <= fold_right Z.min z (map (@len A) l)).
  { induction l as [|x l IH]; intros z Hz Hl; cbn; [lia|].
    pose proof (Hl x (or_introl eq_refl)).
    specialize (IH z Hz (fun y Hy => Hl y (or_intror Hy))). lia. }
  pose proof (H s (or_introl eq_refl)) as Hs.
  specialize (Hmax rest (fun y Hy => H y (or_intror Hy))).
  specialize (Hmin rest (len s) ltac:(lia) (fun y Hy => H y (or_intror Hy))).
  lia.
Qed.

(** C2, as the code has it.  For every job list and every worker count
    [W >= 1] for which the quotient [N / W] is within the range of a double
    ([N] below 2^53, and [W] below [N * 2^1075] so that the quotient does not
    underflow), [split_urls] returns shards whose concatenation, in shard
    order, is the input list itself: every job occurs at its own position
    exactly once, so none is duplicated and none is dropped. *)
Theorem split_urls_concat urls (W : Z) :
  1 <= W ->
  in_double_range (len urls) W = true ->
  exists shards, split_urls urls W = Ret shards /\ concat shards = urls.
Proof.
  intros HW HR. apply in_double_range_underflows in HR.
  destruct (math_ceil_div_pos (len_nonneg urls) HW HR) as (c & Ec & Hc & Hcov & _).
  unfold split_urls. rewrite Ec. eexists; split; [reflexivity|].
  apply split_loop_concat; [exact Hc|lia| |].
  - rewrite Z.mul_0_l, Z.min_l by apply len_nonneg. reflexivity.
  - rewrite Z2Nat.id by lia. lia.
Qed.

(** C6, as the code has it.  Let [W >= 1] with the quotient [N / W] within
    the range of a double.  With [c = ceil(N / W)], every shard but the
    last holds exactly [c] jobs, the last holds between 1 and [c], there
    are at most [W] shards, and therefore the sizes differ by at most
    [c - 1] (not by at most 1). *)
Theorem split_urls_sizes urls (W : Z) :
  1 <= W ->
  in_double_range (len urls) W = true ->
  exists c shards,
    math_ceil_div (len urls) W = Ret c /\
    split_urls urls W = Ret shards /\
    (forall j, (S j < List.length shards)%nat -> len (nth j shards []) = c) /\
    (forall s, In s shards -> 1 <= len s <= c) /\
    (List.length shards <= Z.to_nat W)%nat /\
    max_size shards - min_size shards <= Z.max 0 (c - 1).
Proof.
  intros HW HR. apply in_double_range_underflows in HR.
  destruct (math_ceil_div_pos (len_nonneg urls) HW HR) as (c & Ec & Hc & Hcov & _).
  exists c.
  destruct urls as [|u urls'].
  - exists []. rewrite split_urls_empty by assumption.
    split; [exact Ec|]. split; [reflexivity|].
    split; [intros j Hj; cbn in Hj; lia|].
    split; [intros s []|].
    split; cbn; lia.
  - set (urls := u :: urls') in *.
    assert (Hpos : 1 <= len urls) by (unfold len, urls; cbn [List.length]; lia).
    assert (Hc1 : 1 <= c) by nia.
    destruct (split_loop_shape urls Hc1 (Z.to_nat W) (i:=0) [] ltac:(lia))
      as (rest & E & Hshape & _ & Hlen).
    exists rest.
    split; [exact Ec|]. unfold split_urls. rewrite Ec, E. cbn [app].
    split; [reflexivity|].
    split; [now apply full_but_last_nth|].
    split; [now apply full_but_last_bounds|].
    split; [exact Hlen|].
    apply sizes_spread. now apply full_but_last_bounds.
Qed.

(** C7, as the code has it.  A worker count of zero makes the division
    raise [ZeroDivisionError]; a negative one makes [range] empty, so the
    empty shard list is returned.  No configuration check is made. *)
Theorem split_urls_nonpositive urls (W : Z) :
  W <= 0 ->
  split_urls urls W = if W =? 0 then Raise ZeroDivisionError else Ret [].
Proof.
  intros HW. unfold split_urls, math_ceil_div.
  destruct (Z.eqb_spec W 0); [reflexivity|].
  destruct (Z.to_nat W) eqn:E; [|lia].
  now destruct (underflows (len urls) W).
Qed.

End PartitionerClaims.

(** The shards [split_urls_file] writes are the shards of [split_urls]. *)
Lemma split_files_loop_shards (urls : list string) (c : Z) (d : string) (k : nat) :
  forall i acc,
    map snd (split_files_loop urls c d k i acc) = split_loop urls c k i (map snd acc).
Proof.
  induction k as [|k IH]; intros i acc; cbn [split_files_loop split_loop]; [reflexivity|].
  destruct (i * c >=? len urls); [reflexivity|].
  rewrite IH, map_app. reflexivity.
Qed.

Lemma split_urls_file_concat (urls : list string) (W : Z) (d : string) :
  1 <= W ->
  underflows (len urls) W = false ->
  exists written,
    split_urls_file urls W d = Ret written /\
    split_urls urls W = Ret (map snd written) /\
    concat (map snd written) = urls.
Proof.
  intros HW HR.
  destruct (math_ceil_div_pos (len_nonneg urls) HW HR) as (c & Ec & Hc & Hcov & _).
  unfold split_urls_file, split_urls. rewrite Ec.
  eexists. split; [reflexivity|].
  rewrite split_files_loop_shards. cbn [map]. split; [reflexivity|].
  apply split_loop_concat; [exact Hc|lia| |].
  - rewrite Z.mul_0_l, Z.min_l by apply len_nonneg. reflexivity.
  - rewrite Z2Nat.id by lia. lia.
Qed.

Lemma split_urls_concat_witness :
  1 <= 2 /\
  in_double_range (len ["a"; "b"; "c"]) 2 = true /\
  exists shards, split_urls ["a"; "b"; "c"] 2 = Ret shards /\
                 concat shards = ["a"; "b"; "c"].
Proof.
  split; [lia|]. split; [reflexivity|].
  apply (split_urls_concat ["a"; "b"; "c"] (W:=2)); [lia|reflexivity].
Defined.

(** C2 as stated fails: for one job and 2^1076 workers the quotient is
    rounded to [0.0], the shard width is 0, and every shard the loop
    appends, one per worker, is empty: whatever the call returns (the loop
    has 2^1076 iterations to make), the job is in no shard. *)
Lemma split_urls_concat_counterexample :
  ~ (forall (urls : list string) (W : Z),
        1 <= W ->
        exists shards, split_urls urls W = Ret shards /\ concat shards = urls).
Proof.
  intros H.
  remember (2 ^ 1076) as W eqn:EW.
  assert (HW : 1 <= W)
    by (pose proof (Z.pow_pos_nonneg 2 1076 ltac:(lia) ltac:(lia)); lia).
  assert (Ec : math_ceil_div (len ["a"]) W = Ret 0)
    by (rewrite EW; vm_compute; reflexivity).
  clear EW.
  destruct (H ["a"] W HW) as (shards & E & Hc).
  unfold split_urls in E. rewrite Ec in E. injection E as <-.
  rewrite split_loop_underflow in Hc. discriminate Hc.
Qed.

Lemma split_urls_sizes_witness :
  1 <= 3 /\
  in_double_range 7 3 = true /\
  exists c shards,
    math_ceil_div 7 3 = Ret c /\
    split_urls ["a"; "b"; "c"; "d"; "e"; "f"; "g"] 3 = Ret shards /\
    (forall j, (S j < List.length shards)%nat -> len (nth j shards []) = c) /\
    (forall s, In s shards -> 1 <= len s <= c) /\
    (List.length shards <= Z.to_nat 3)%nat /\
    max_size shards - min_size shards <= Z.max 0 (c - 1).
Proof.
  split; [lia|]. split; [reflexivity|].
  apply (split_urls_sizes ["a"; "b"; "c"; "d"; "e"; "f"; "g"] (W:=3)); [lia|reflexivity].
Defined.

(** C6 as stated fails: seven jobs over three workers give shards of sizes
    3, 3 and 1. *)
Lemma split_urls_balance_counterexample :
  ~ (forall (urls : list string) (W : Z),
        1 <= W ->
        forall shards, split_urls urls W = Ret shards ->
                       max_size shards - min_size shards <= 1).
Proof.
  intros H.
  specialize (H ["a"; "b"; "c"; "d"; "e"; "f"; "g"] 3 ltac:(lia) _ eq_refl).
  vm_compute in H. apply H. reflexivity.
Qed.

Lemma split_urls_nonpositive_witness :
  -2 <= 0 /\ split_urls ["a"; "b"] (-2) = Ret [].
Proof. split; [lia | apply (split_urls_nonpositive ["a"; "b"] (W:=-2)); lia]. Defined.

(** C7 as stated fails: with [W = 0] the call raises the arithmetic error
    itself. *)
Lemma split_urls_invalid_config_counterexample :
  ~ (forall (urls : list string) (W : Z),
        W <= 0 -> config_failure (split_urls urls W) = true).
Proof.
  intros H. specialize (H ["a"] 0 ltac:(lia)). discriminate H.
Qed.

(** ** Fetch *)

Section MonadFacts.

Lemma bind_assoc A B C (m : M A) (k : A -> M B) (h : B -> M C) w :
  bind (bind m k) h w = bind m (fun a => bind (k a) h) w.
Proof. unfold bind. destruct (m w) as [[a|e] w']; reflexivity. Qed.
Lemma bind_ret_r A (m : M A) w : bind m ret w = m w.
Proof. unfold bind, ret. destruct (m w) as [[a|e] w']; reflexivity. Qed.
End MonadFacts.

Section DirectoryOrder.

(** Listing a directory gives its names, each once, in some order. *)
Lemma place_In rank x l y : In y (place rank x l) <-> y = x \/ In y l.
Proof.
  induction l as [|z l IH]; cbn [place].
  - cbn. intuition.
  - destruct (rank x <=? rank z); cbn [In]; [intuition|].
    rewrite IH. intuition.
Qed.

Lemma in_dir_order_In rank l y : In y (in_dir_order rank l) <-> In y l.
Proof.
  unfold in_dir_order. induction l as [|x l IH]; cbn [fold_right]; [reflexivity|].
  rewrite place_In, IH. cbn [In]. intuition.
Qed.

Lemma in_dir_order_length rank l :
  List.length (in_dir_order rank l) = List.length l.
Proof.
  unfold in_dir_order. induction l as [|x l IH]; cbn [fold_right]; [reflexivity|].
  cbn [List.length]. rewrite <- IH.
  generalize (fold_right (place rank) [] l). intros m.
  induction m as [|z m IHm]; cbn [place]; [reflexivity|].
  destruct (rank x <=? rank z); cbn [List.length]; [reflexivity|]. now rewrite IHm.
Qed.

Lemma in_dir_order_existsb rank (P : string -> bool) l :
  existsb P (in_dir_order rank l) = existsb P l.
Proof.
  destruct (existsb P l) eqn:H.
  - apply existsb_exists in H. destruct H as (x & Hx & HP).
    apply existsb_exists. exists x. split; [now apply in_dir_order_In|exact HP].
  - destruct (existsb P (in_dir_order rank l)) eqn:H'; [|reflexivity].
    apply existsb_exists in H'. destruct H' as (x & Hx & HP).
    apply in_dir_order_In in Hx.
    assert (existsb P l = true) by (apply existsb_exists; exists x; now split).
    congruence.
Qed.

End DirectoryOrder.

Section FetchFacts.
Variable E : env.
Variables url temp_video_dir : string.
Variable max_retries : Z.

(** One attempt, written out by cases on what the outside does. *)
Lemma download_attempt_eq (attempt : Z) (w : world) :
  download_attempt E url temp_video_dir max_retries attempt w =
  let t1 := trace w ++ [EvRun url] in
  match ytdlp E (runs w) url with
  | RunRaised e =>
      (Ret Continue,
       mkWorld (files w) (S (runs w)) (t1 ++ [EvLog (handler_level e)]) (vars w))
  | Exited rc created =>
      let fs := create_files temp_video_dir created (files w) in
      if rc =? 0 then
        match listdir_error E (S (runs w)) with
        | Some e =>
            (Ret Continue,
             mkWorld fs (S (runs w)) (t1 ++ [EvLog (handler_level e)]) (vars w))
        | None =>
            (Ret (Return match find_mp4 temp_video_dir
                                        (in_dir_order (listdir_rank E)
                                                      (listing temp_video_dir fs)) with
                         | Return r => r
                         | Continue => NotFetched
                         end),
             mkWorld fs (S (runs w)) t1 (vars w))
        end
      else
        (Ret Continue,
         mkWorld fs (S (runs w))
                 ((t1 ++ [EvLog WARNING])
                    ++ (if attempt <? max_retries - 1 then [EvSleep 5] else []))
                 (vars w))
  end.
Proof.
  unfold download_attempt, try_except, bind, subprocess_run.
  destruct (ytdlp E (runs w) url) as [rc created|e]; cbn.
  - destruct (rc =? 0); cbn.
    + unfold os_listdir; cbn.
      destruct (listdir_error E (S (runs w))) as [e|]; cbn.
      * destruct e; reflexivity.
      * destruct (find_mp4 _ _); reflexivity.
    + destruct (attempt <? max_retries - 1); cbn; [reflexivity|].
      now rewrite app_nil_r.
  - destruct e; reflexivity.
Qed.

(** An attempt never raises. *)
Lemma download_attempt_total (attempt : Z) (w : world) :
  exists f w', download_attempt E url temp_video_dir max_retries attempt w = (Ret f, w').
Proof.
  rewrite download_attempt_eq. cbv zeta.
  destruct (ytdlp E (runs w) url) as [rc created|e]; [|eauto].
  destruct (rc =? 0); [|eauto].
  destruct (listdir_error E (S (runs w))); eauto.
Qed.

Lemma download_loop_total (k : nat) :
  forall attempt w,
  exists r w', download_loop E url temp_video_dir max_retries k attempt w = (Ret r, w').
Proof.
  induction k as [|k IH]; intros attempt w; cbn [download_loop].
  - unfold ret. eauto.
  - unfold bind.
    destruct (download_attempt_total attempt w) as (f & w1 & ->).
    destruct f as [|r]; [apply IH|]. unfold ret. eauto.
Qed.

(** *** Files and listings *)

Lemma in_listing d n fs : In n (listing d fs) -> In (d, n) fs.
Proof.
  unfold listing. rewrite in_map_iff. intros ([d' n'] & <- & H).
  apply filter_In in H. destruct H as [H Hd]. cbn in Hd.
  apply String.eqb_eq in Hd. now subst.
Qed.

Lemma listing_in d n fs : In (d, n) fs -> In n (listing d fs).
Proof.
  intros H. unfold listing. apply in_map_iff. exists (d, n). split; [reflexivity|].
  apply filter_In. split; [exact H|]. cbn. apply String.eqb_refl.
Qed.

Lemma has_entry_in d n fs : has_entry d n fs = true -> In (d, n) fs.
Proof.
  unfold has_entry. rewrite existsb_exists. intros ([d' n'] & Hin & H).
  cbn in H. apply andb_prop in H. destruct H as [H1 H2].
  apply String.eqb_eq in H1, H2. now subst.
Qed.

(** Files are only added by the downloader, and each name it leaves is in
    the directory afterwards. *)
Lemma create_files_spec d names :
  forall fs,
    (forall e, In e fs -> In e (create_files d names fs)) /\
    (forall n, In n names -> In (d, n) (create_files d names fs)) /\
    (forall e, In e (create_files d names fs) ->
               In e fs \/ exists n, In n names /\ e = (d, n)).
Proof.
  induction names as [|n names IH]; intros fs; cbn [create_files].
  - repeat split; auto. intros n [].
  - set (fs' := if has_entry d n fs then fs else fs ++ [(d, n)]).
    assert (Hsub : forall e, In e fs -> In e fs').
    { intros e He. unfold fs'. destruct (has_entry d n fs); [exact He|].
      apply in_or_app. now left. }
    assert (Hn : In (d, n) fs').
    { unfold fs'. destruct (has_entry d n fs) eqn:Hh.
      - now apply has_entry_in.
      - apply in_or_app. right. now left. }
    assert (Hback : forall e, In e fs' -> In e fs \/ e = (d, n)).
    { intros e He. unfold fs' in He. destruct (has_entry d n fs); [now left|].
      apply in_app_or in He. destruct He as [He|[<-|[]]]; auto. }
    destruct (IH fs') as (I1 & I2 & I3).
    split; [|split].
    + intros e He. apply I1, Hsub, He.
    + intros m [<-|Hm]; [apply I1, Hn|apply I2, Hm].
    + intros e He. destruct (I3 e He) as [He1 | (m & Hm & ->)].
      * destruct (Hback e He1) as [H | ->]; [now left|].
        right. exists n. split; [now left|reflexivity].
      * right. exists m. split; [now right|reflexivity].
Qed.

Lemma find_mp4_none d names :
  (forall f, In f names -> endswith f ".mp4" = false) ->
  find_mp4 d names = Continue.
Proof.
  induction names as [|f names IH]; intros H; cbn [find_mp4]; [reflexivity|].
  rewrite (H f (or_introl eq_refl)). apply IH. intros g Hg. apply H. now right.
Qed.

Lemma find_mp4_some d names :
  existsb (fun f => endswith f ".mp4") names = true ->
  exists f, In f names /\
            find_mp4 d names = Return (Fetched (os_path_join d f) (str_replace f ".mp4" "")).
Proof.
  induction names as [|f names IH]; intros H; cbn in H; [discriminate|].
  cbn [find_mp4]. destruct (endswith f ".mp4") eqn:Hf.
  - exists f. split; [now left|reflexivity].
  - cbn in H. destruct (IH H) as (g & Hg & Eg). exists g. split; [now right|exact Eg].
Qed.

Lemma find_mp4_fetched d names p id :
  find_mp4 d names = Return (Fetched p id) ->
  exists f, In f names /\ p = os_path_join d f.
Proof.
  induction names as [|f names IH]; cbn [find_mp4]; [discriminate|].
  destruct (endswith f ".mp4").
  - intros H. injection H as <- _. exists f. split; [now left|reflexivity].
  - intros H. destruct (IH H) as (g & Hg & Eg). exists g. split; [now right|exact Eg].
Qed.

End FetchFacts.

Section FetchLoop.
Variable E : env.
Variables url temp_video_dir : string.
Variable max_retries : Z.

Lemma flat_map_map_seq (B C : Type) (g : B -> C) (f : C -> list event) l :
  flat_map f (map g l) = flat_map (fun x => f (g x)) l.
Proof. induction l as [|x l IH]; cbn; [reflexivity|]. now rewrite IH. Qed.

Lemma schedule_from_S n0 a k :
  schedule_from E url max_retries n0 a (S k) =
  (EvRun url ::
     (if (exits_nonzero E url n0 && (Z.of_nat a <? max_retries - 1))%bool
      then [EvSleep 5] else []))
    ++ schedule_from E url max_retries (S n0) (S a) k.
Proof.
  unfold schedule_from. cbn [seq flat_map].
  rewrite !Nat.add_0_r. f_equal.
  rewrite <- seq_shift, flat_map_map_seq.
  apply flat_map_ext. intros i.
  now rewrite !Nat.add_succ_r.
Qed.

Lemma schedule_app t u : schedule (t ++ u) = schedule t ++ schedule u.
Proof. apply filter_app. Qed.

(** [k] failing attempts take the loop [k] iterations further. *)
Lemma download_loop_failures (k : nat) :
  forall (m a : nat) (w : world),
    (k <= m)%nat ->
    (forall i, (i < k)%nat -> invocation_fails E url (runs w + i) = true) ->
    exists w' t,
      download_loop E url temp_video_dir max_retries m (Z.of_nat a) w =
      download_loop E url temp_video_dir max_retries (m - k) (Z.of_nat (a + k)) w' /\
      runs w' = (runs w + k)%nat /\
      vars w' = vars w /\
      trace w' = trace w ++ t /\
      schedule t = schedule_from E url max_retries (runs w) a k /\
      (forall e, In e (files w) -> In e (files w')) /\
      (forall f, In f (listing temp_video_dir (files w')) ->
                 In f (listing temp_video_dir (files w)) \/
                 exists i rc created,
                   (i < k)%nat /\
                   ytdlp E (runs w + i) url = Exited rc created /\
                   In f created).
Proof.
  induction k as [|k IH]; intros m a w Hm Hfail.
  - exists w, []. rewrite Nat.sub_0_r, !Nat.add_0_r, app_nil_r.
    repeat split; auto.
  - destruct m as [|m]; [lia|].
    cbn [download_loop Nat.sub]. unfold bind at 1.
    rewrite download_attempt_eq. cbv zeta.
    pose proof (Hfail 0%nat ltac:(lia)) as H0.
    rewrite Nat.add_0_r in H0. unfold invocation_fails in H0.
    rewrite schedule_from_S. unfold exits_nonzero at 1.
    destruct (ytdlp E (runs w) url) as [rc created|e] eqn:Ey.
    + (* nonzero exit *)
      destruct (rc =? 0) eqn:Erc; [discriminate|]. cbn [negb andb].
      set (w1 := mkWorld _ _ _ _).
      destruct (IH m (S a) w1 ltac:(lia)) as (w' & t & El & Hr & Hv & Ht & Hs & Hf & Hl).
      { intros i Hi. cbn [runs w1].
        replace (S (runs w) + i)%nat with (runs w + S i)%nat by lia.
        apply Hfail. lia. }
      exists w'. eexists. cbv beta iota.
      replace (Z.of_nat a + 1) with (Z.of_nat (S a)) by lia.
      rewrite El.
      replace (a + S k)%nat with (S a + k)%nat by lia.
      split; [reflexivity|]. split; [rewrite Hr; cbn; lia|].
      split; [rewrite Hv; reflexivity|].
      split; [rewrite Ht; cbn [trace w1]; rewrite <- !app_assoc; reflexivity|].
      split.
      { rewrite !schedule_app, Hs. cbn [runs w1].
        rewrite Nat2Z.inj_succ in *.
        destruct (Z.of_nat a <? max_retries - 1); reflexivity. }
      destruct (create_files_spec temp_video_dir created (files w)) as (C1 & C2 & C3).
      split.
      { intros e He. apply Hf. cbn. now apply C1. }
      intros f Hin. destruct (Hl f Hin) as [Hold|(i & rc' & cr' & Hi & Ei & Hc)].
      * cbn [files w1] in Hold. apply in_listing in Hold.
        destruct (C3 _ Hold) as [Hfs|(n & Hn & En)].
        -- left. now apply listing_in.
        -- right. exists 0%nat, rc, created. rewrite Nat.add_0_r.
           injection En as ->. repeat split; [lia|exact Ey|exact Hn].
      * right. exists (S i), rc', cr'. cbn [runs w1] in Ei.
        replace (runs w + S i)%nat with (S (runs w) + i)%nat by lia.
        repeat split; [lia|exact Ei|exact Hc].
    + (* subprocess.run raised *)
      cbn [andb].
      set (w1 := mkWorld _ _ _ _).
      destruct (IH m (S a) w1 ltac:(lia)) as (w' & t & El & Hr & Hv & Ht & Hs & Hf & Hl).
      { intros i Hi. cbn [runs w1].
        replace (S (runs w) + i)%nat with (runs w + S i)%nat by lia.
        apply Hfail. lia. }
      exists w'. eexists. cbv beta iota.
      replace (Z.of_nat a + 1) with (Z.of_nat (S a)) by lia.
      rewrite El.
      replace (a + S k)%nat with (S a + k)%nat by lia.
      split; [reflexivity|]. split; [rewrite Hr; cbn; lia|].
      split; [rewrite Hv; reflexivity|].
      split; [rewrite Ht; cbn [trace w1]; rewrite <- !app_assoc; reflexivity|].
      split.
      { rewrite !schedule_app, Hs. reflexivity. }
      split; [exact Hf|].
      intros f Hin. destruct (Hl f Hin) as [Hold|(i & rc' & cr' & Hi & Ei & Hc)].
      * now left.
      * right. exists (S i), rc', cr'. cbn [runs w1] in Ei.
        replace (runs w + S i)%nat with (S (runs w) + i)%nat by lia.
        repeat split; [lia|exact Ei|exact Hc].
Qed.

(** When every failed attempt is a nonzero exit and [k] attempts are not
    all there is room for, each is followed by its sleep. *)
Lemma schedule_from_nonzero k :
  forall n0 a,
    (forall i, (i < k)%nat -> exits_nonzero E url (n0 + i) = true) ->
    Z.of_nat (a + k) <= max_retries - 1 ->
    schedule_from E url max_retries n0 a k ++ [EvRun url] = spaced_runs url (S k).
Proof.
  induction k as [|k IH]; intros n0 a Hnz Hroom; [reflexivity|].
  rewrite schedule_from_S.
  pose proof (Hnz 0%nat ltac:(lia)) as H0. rewrite Nat.add_0_r in H0. rewrite H0.
  destruct (Z.ltb_spec (Z.of_nat a) (max_retries - 1)); [|lia]. cbn [andb].
  cbn [app]. rewrite (IH (S n0) (S a)).
  - reflexivity.
  - intros i Hi. replace (S n0 + i)%nat with (n0 + S i)%nat by lia. apply Hnz. lia.
  - lia.
Qed.

Lemma schedule_from_nonzero_all k :
  forall n0 a,
    (forall i, (i < k)%nat -> exits_nonzero E url (n0 + i) = true) ->
    Z.of_nat (a + k) = max_retries ->
    schedule_from E url max_retries n0 a k = spaced_runs url k.
Proof.
  induction k as [|k IH]; intros n0 a Hnz Hroom; [reflexivity|].
  rewrite schedule_from_S.
  pose proof (Hnz 0%nat ltac:(lia)) as H0. rewrite Nat.add_0_r in H0. rewrite H0.
  cbn [andb]. destruct k as [|k].
  - destruct (Z.ltb_spec (Z.of_nat a) (max_retries - 1)); [lia|]. reflexivity.
  - destruct (Z.ltb_spec (Z.of_nat a) (max_retries - 1)); [|lia].
    cbn [app]. rewrite (IH (S n0) (S a)).
    + reflexivity.
    + intros i Hi. replace (S n0 + i)%nat with (n0 + S i)%nat by lia. apply Hnz. lia.
    + lia.
Qed.

(** Attempts that all end in an error use up the loop: the value is the
    one of the [return] after the loop. *)
Lemma download_loop_all_fail (k : nat) :
  forall attempt w,
    (forall i, (i < k)%nat -> attempt_fails E url (runs w + i) = true) ->
    exists w',
      download_loop E url temp_video_dir max_retries k attempt w = (Ret NotFetched, w') /\
      runs w' = (runs w + k)%nat.
Proof.
  induction k as [|k IH]; intros attempt w Hfail; cbn [download_loop].
  - exists w. split; [reflexivity|lia].
  - unfold bind at 1. rewrite download_attempt_eq. cbv zeta.
    pose proof (Hfail 0%nat ltac:(lia)) as H0.
    rewrite Nat.add_0_r in H0. unfold attempt_fails in H0.
    assert (Hnext : forall w1, runs w1 = S (runs w) ->
              exists w',
                download_loop E url temp_video_dir max_retries k (attempt + 1) w1
                = (Ret NotFetched, w') /\ runs w' = (runs w + S k)%nat).
    { intros w1 Hr. destruct (IH (attempt + 1) w1) as (w' & El & Hr').
      - intros i Hi. rewrite Hr.
        replace (S (runs w) + i)%nat with (runs w + S i)%nat by lia.
        apply Hfail. lia.
      - exists w'. split; [exact El|lia]. }
    destruct (ytdlp E (runs w) url) as [rc created|e].
    + destruct (rc =? 0).
      * destruct (listdir_error E (S (runs w))) as [e|]; [|discriminate].
        cbv beta iota. now apply Hnext.
      * cbv beta iota. now apply Hnext.
    + cbv beta iota. now apply Hnext.
Qed.

End FetchLoop.

Section FetchClaims.
Variable E : env.
Variables url temp_video_dir : string.
Variable max_retries : Z.

Lemma existsb_listing_created (P : string -> bool) created fs :
  existsb P created = true ->
  existsb P (in_dir_order (listdir_rank E)
               (listing temp_video_dir (create_files temp_video_dir created fs))) = true.
Proof.
  rewrite in_dir_order_existsb.
  rewrite !existsb_exists. intros (f & Hf & HP). exists f. split; [|exact HP].
  apply listing_in. now apply create_files_spec.
Qed.

(** What a call leaves behind, whatever it returns: the worker's variables
    are untouched, nothing is written or removed, and a fetched path is a
    file that exists. *)
Lemma download_loop_frame (k : nat) :
  forall attempt w r w',
    download_loop E url temp_video_dir max_retries k attempt w = (Ret r, w') ->
    vars w' = vars w /\
    (exists t, trace w' = trace w ++ t /\ written t = [] /\
               count_event EvDecoderFinish t = 0%nat) /\
    (forall p id, r = Fetched p id -> existsb (path_eqb p) (files w') = true).
Proof.
  induction k as [|k IH]; intros attempt w r w'; cbn [download_loop].
  - unfold ret. intros H. injection H as <- <-.
    split; [reflexivity|]. split; [exists []; now rewrite app_nil_r|]. discriminate.
  - unfold bind at 1. rewrite download_attempt_eq. cbv zeta.
    assert (Hstep : forall w1 t1,
               vars w1 = vars w -> trace w1 = trace w ++ t1 -> written t1 = [] ->
               count_event EvDecoderFinish t1 = 0%nat ->
               download_loop E url temp_video_dir max_retries k (attempt + 1) w1 = (Ret r, w') ->
               vars w' = vars w /\
               (exists t, trace w' = trace w ++ t /\ written t = [] /\
                          count_event EvDecoderFinish t = 0%nat) /\
               (forall p id, r = Fetched p id -> existsb (path_eqb p) (files w') = true)).
    { intros w1 t1 Hv Ht Hw Hc Hl.
      destruct (IH _ _ _ _ Hl) as (Hv' & (t & Ht' & Hw' & Hc') & Hp).
      split; [congruence|]. split; [|exact Hp].
      exists (t1 ++ t). rewrite Ht', Ht, <- app_assoc. split; [reflexivity|].
      unfold written, count_event in *.
      rewrite flat_map_app, filter_app, length_app, Hw, Hw', Hc, Hc'. now split. }
    destruct (ytdlp E (runs w) url) as [rc created|e].
    + destruct (rc =? 0).
      * destruct (listdir_error E (S (runs w))) as [e|].
        -- cbv beta iota.
           apply (Hstep _ [EvRun url; EvLog (handler_level e)]);
             [reflexivity|cbn; now rewrite <- app_assoc|reflexivity|reflexivity].
        -- cbv beta iota. unfold ret. intros H. injection H as <- <-.
           split; [reflexivity|]. split.
           { exists [EvRun url]. now cbn. }
           intros p id Hr.
           destruct (find_mp4 _ _) as [|r'] eqn:Ef; [discriminate|]. subst r'.
           apply find_mp4_fetched in Ef. destruct Ef as (f & Hf & ->).
           apply in_dir_order_In in Hf.
           cbn [files]. apply existsb_exists. exists (temp_video_dir, f).
           split; [now apply in_listing|]. unfold path_eqb, entry_path. cbn.
           apply String.eqb_refl.
      * cbv beta iota.
        destruct (attempt <? max_retries - 1).
        -- apply (Hstep _ [EvRun url; EvLog WARNING; EvSleep 5]);
             [reflexivity|cbn; now rewrite <- !app_assoc|reflexivity|reflexivity].
        -- apply (Hstep _ [EvRun url; EvLog WARNING]);
             [reflexivity|cbn; now rewrite app_nil_r, <- !app_assoc|reflexivity|reflexivity].
    + cbv beta iota.
      apply (Hstep _ [EvRun url; EvLog (handler_level e)]);
        [reflexivity|cbn; now rewrite <- app_assoc|reflexivity|reflexivity].
Qed.

(** C3, as the code has it.  Let the first [k] invocations fail (nonzero
    exit, timeout or exception).
    - If [k < max_retries] and the next invocation succeeds, the call
      returns [(True, path, id)] after exactly [k + 1] invocations.
    - If [k = max_retries], the call returns [(False, None, None)] after
      exactly [max_retries] invocations.
    In both cases a sleep of 5 seconds follows exactly those failed
    attempts that exited with a nonzero code and were not the last one
    allowed; an attempt that timed out or raised is followed by no sleep.
    When all [k] failures are nonzero exits, the invocations are therefore
    spaced by 5 seconds each. *)
Theorem download_single_video_attempts (w : world) (k : nat) :
  (forall i, (i < k)%nat -> invocation_fails E url (runs w + i) = true) ->
  (Z.of_nat k < max_retries ->
   invocation_succeeds E url (runs w + k) = true ->
   exists p id w' t,
     download_single_video E url temp_video_dir max_retries w = (Ret (Fetched p id), w') /\
     runs w' = (runs w + k + 1)%nat /\
     trace w' = trace w ++ t /\
     schedule t = failed_schedule E url max_retries (runs w) k ++ [EvRun url] /\
     ((forall i, (i < k)%nat -> exits_nonzero E url (runs w + i) = true) ->
      schedule t = spaced_runs url (S k)))
  /\
  (Z.of_nat k = max_retries ->
   exists w' t,
     download_single_video E url temp_video_dir max_retries w = (Ret NotFetched, w') /\
     runs w' = (runs w + k)%nat /\
     trace w' = trace w ++ t /\
     schedule t = failed_schedule E url max_retries (runs w) k /\
     ((forall i, (i < k)%nat -> exits_nonzero E url (runs w + i) = true) ->
      schedule t = spaced_runs url k)).
Proof.
  intros Hfail. split.
  - intros Hk Hsucc.
    destruct (@download_loop_failures E url temp_video_dir max_retries k
                (Z.to_nat max_retries) 0%nat w ltac:(lia) Hfail)
      as (w1 & t & El & Hr & Hv & Ht & Hs & _ & _).
    unfold download_single_video. change 0 with (Z.of_nat 0). rewrite El.
    destruct (Z.to_nat max_retries - k)%nat as [|m] eqn:Em; [lia|].
    cbn [download_loop]. unfold bind at 1. rewrite download_attempt_eq. cbv zeta.
    unfold invocation_succeeds in Hsucc. rewrite <- Hr in Hsucc.
    destruct (ytdlp E (runs w1) url) as [rc created|e]; [|discriminate].
    destruct (listdir_error E (S (runs w1))); [discriminate|].
    apply andb_prop in Hsucc. destruct Hsucc as [Hrc Hmp4]. rewrite Hrc.
    destruct (find_mp4_some temp_video_dir _
                (existsb_listing_created _ created (files w1) Hmp4))
      as (f & _ & ->).
    cbv beta iota. unfold ret.
    do 3 eexists. exists (t ++ [EvRun url]).
    split; [reflexivity|]. cbn [runs trace].
    split; [lia|]. split; [rewrite Ht; now rewrite <- app_assoc|].
    rewrite schedule_app, Hs. split; [reflexivity|].
    intros Hnz. cbn. apply schedule_from_nonzero; [exact Hnz|lia].
  - intros Hk.
    destruct (@download_loop_failures E url temp_video_dir max_retries k
                (Z.to_nat max_retries) 0%nat w ltac:(lia) Hfail)
      as (w1 & t & El & Hr & Hv & Ht & Hs & _ & _).
    unfold download_single_video. change 0 with (Z.of_nat 0). rewrite El.
    replace (Z.to_nat max_retries - k)%nat with 0%nat by lia.
    cbn [download_loop]. unfold ret.
    exists w1, t. split; [reflexivity|]. split; [exact Hr|]. split; [exact Ht|].
    split; [exact Hs|].
    intros Hnz. rewrite Hs. apply schedule_from_nonzero_all; [exact Hnz|lia].
Qed.

(** C9.  [download_single_video] returns a value for every input and
    every behaviour of the downloader and of the directory scan, never a
    raised exception; and when every one of the [max_retries] attempts ends
    in an error (a nonzero exit, a timeout or any other exception raised by
    [subprocess.run], or an exception raised by [os.listdir] after an exit
    with code 0), the value returned is the failure [(False, None, None)],
    after exactly [max_retries] invocations. *)
Theorem download_single_video_never_raises (w : world) :
  exists r w',
    download_single_video E url temp_video_dir max_retries w = (Ret r, w') /\
    ((forall i, (i < Z.to_nat max_retries)%nat ->
                attempt_fails E url (runs w + i) = true) ->
     r = NotFetched /\ runs w' = (runs w + Z.to_nat max_retries)%nat).
Proof.
  destruct (download_loop_total E url temp_video_dir max_retries
              (Z.to_nat max_retries) 0 w) as (r & w' & El).
  exists r, w'. split; [exact El|].
  intros Hfail.
  destruct (@download_loop_all_fail E url temp_video_dir max_retries
              (Z.to_nat max_retries) 0 w Hfail) as (w2 & El2 & Hr).
  unfold download_single_video in El. rewrite El2 in El.
  injection El as <- <-. split; [reflexivity|exact Hr].
Qed.

(** C10.  Let the first [k] invocations fail and the next one, still
    within [max_retries], exit with code 0 while no [.mp4] file is in the
    directory.  Then the call returns [(False, None, None)] on that
    attempt: exactly [k + 1] invocations were made, whatever
    [max_retries] is, and the invocation is the last thing done (no sleep
    follows it). *)
Theorem download_single_video_no_file (w : world) (k : nat) (created : list string) :
  (forall i, (i < k)%nat -> invocation_fails E url (runs w + i) = true) ->
  Z.of_nat k < max_retries ->
  ytdlp E (runs w + k) url = Exited 0 created ->
  listdir_error E (S (runs w + k)) = None ->
  (forall f, In f (listing temp_video_dir (files w)) -> endswith f ".mp4" = false) ->
  (forall i rc cr f, (i <= k)%nat -> ytdlp E (runs w + i) url = Exited rc cr ->
                     In f cr -> endswith f ".mp4" = false) ->
  exists w' t,
    download_single_video E url temp_video_dir max_retries w = (Ret NotFetched, w') /\
    runs w' = (runs w + k + 1)%nat /\
    trace w' = trace w ++ t ++ [EvRun url] /\
    schedule t = failed_schedule E url max_retries (runs w) k.
Proof.
  intros Hfail Hk Hrun Hscan Hold Hnew.
  destruct (@download_loop_failures E url temp_video_dir max_retries k
              (Z.to_nat max_retries) 0%nat w ltac:(lia) Hfail)
    as (w1 & t & El & Hr & Hv & Ht & Hs & _ & Hl).
  unfold download_single_video. change 0 with (Z.of_nat 0). rewrite El.
  destruct (Z.to_nat max_retries - k)%nat as [|m] eqn:Em; [lia|].
  cbn [download_loop]. unfold bind at 1. rewrite download_attempt_eq. cbv zeta.
  rewrite Hr, Hrun, Hscan. cbn [Z.eqb].
  rewrite find_mp4_none.
  - cbv beta iota. unfold ret. do 2 eexists.
    split; [reflexivity|]. cbn [runs trace].
    split; [lia|]. split; [rewrite Ht; now rewrite <- app_assoc|exact Hs].
  - intros f Hf. apply in_dir_order_In, in_listing in Hf.
    destruct (create_files_spec temp_video_dir created (files w1)) as (_ & _ & C3).
    destruct (C3 _ Hf) as [Hin | (n & Hn & En)].
    + apply listing_in in Hin. destruct (Hl f Hin) as [H0 | (i & rc & cr & Hi & Ei & Hc)].
      * now apply Hold.
      * apply (Hnew i rc cr f); [lia|exact Ei|exact Hc].
    + injection En as ->. apply (Hnew k 0 created n); [lia|exact Hrun|exact Hn].
Qed.

End FetchClaims.

Lemma download_single_video_attempts_witness :
  (forall i, (i < 1)%nat -> invocation_fails env_flaky "u" (runs w_init + i) = true) /\
  (3 = 3 -> exists w' t,
      download_single_video env_timeouts "u" "d" 3 w_init = (Ret NotFetched, w') /\
      runs w' = 3%nat /\ trace w' = t /\ schedule t = [EvRun "u"; EvRun "u"; EvRun "u"]) /\
  exists p id w' t,
    download_single_video env_flaky "u" "d" 3 w_init = (Ret (Fetched p id), w') /\
    runs w' = 2%nat /\
    trace w' = t /\
    schedule t = [EvRun "u"; EvSleep 5; EvRun "u"].
Proof.
  assert (H1 : forall i, (i < 1)%nat ->
                         invocation_fails env_flaky "u" (runs w_init + i) = true).
  { intros [|i] Hi; [reflexivity|lia]. }
  assert (H3 : forall i, (i < 3)%nat ->
                         invocation_fails env_timeouts "u" (runs w_init + i) = true).
  { intros i Hi. reflexivity. }
  split; [exact H1|]. split.
  - intros _.
    destruct (download_single_video_attempts env_timeouts "u" "d" 3 w_init H3)
      as [_ Hall].
    destruct (Hall eq_refl) as (w' & t & Hd & Hr & Ht & Hs & _).
    exists w', t. repeat split; assumption.
  - destruct (download_single_video_attempts env_flaky "u" "d" 3 w_init H1)
      as [Hok _].
    destruct (Hok ltac:(cbn; lia) eq_refl) as (p & id & w' & t & Hd & Hr & Ht & Hs & _).
    exists p, id, w', t. repeat split; assumption.
Defined.

(** C3 as stated fails: when the three attempts end in a timeout, the call
    fails after three invocations with no delay between them. *)
Lemma download_backoff_counterexample :
  ~ (forall (E : env) (url dir : string) (max_retries : Z) (w : world) (k : nat),
        (forall i, (i < k)%nat -> invocation_fails E url (runs w + i) = true) ->
        Z.of_nat k = max_retries ->
        exists w' t,
          download_single_video E url dir max_retries w = (Ret NotFetched, w') /\
          runs w' = (runs w + k)%nat /\
          trace w' = trace w ++ t /\
          schedule t = spaced_runs url k).
Proof.
  intros H.
  destruct (H env_timeouts "u" "d" 3 w_init 3%nat) as (w' & t & Hd & _ & Ht & Hs).
  - intros i _. reflexivity.
  - reflexivity.
  - vm_compute in Hd. injection Hd as <-. cbn in Ht. subst t. discriminate Hs.
Qed.

Lemma download_single_video_no_file_witness :
  (forall i, (i < 1)%nat ->
             invocation_fails env_fail_then_no_file "u" (runs w_init + i) = true) /\
  1 < 3 /\
  ytdlp env_fail_then_no_file (runs w_init + 1) "u" = Exited 0 ["vid.part"] /\
  listdir_error env_fail_then_no_file (S (runs w_init + 1)) = None /\
  exists w' t,
    download_single_video env_fail_then_no_file "u" "d" 3 w_init = (Ret NotFetched, w') /\
    runs w' = 2%nat /\
    trace w' = t ++ [EvRun "u"] /\
    schedule t = [EvRun "u"; EvSleep 5].
Proof.
  assert (H1 : forall i, (i < 1)%nat ->
               invocation_fails env_fail_then_no_file "u" (runs w_init + i) = true).
  { intros [|i] Hi; [reflexivity|lia]. }
  split; [exact H1|]. split; [lia|]. split; [reflexivity|]. split; [reflexivity|].
  destruct (@download_single_video_no_file env_fail_then_no_file "u" "d" 3 w_init 1
              ["vid.part"] H1)
    as (w' & t & Hd & Hr & Ht & Hs).
  - lia.
  - reflexivity.
  - reflexivity.
  - intros f [].
  - intros [|[|i]] rc cr f Hi Hy Hf; cbn in Hy; [| |lia].
    + injection Hy as <- <-. destruct Hf.
    + injection Hy as <- <-. destruct Hf as [<-|[]]. reflexivity.
  - exists w', t. repeat split; assumption.
Defined.

(** C9 where every scan of the directory raises: three invocations exit
    with code 0, three scans raise, and the call returns the failure. *)
Lemma download_single_video_never_raises_witness :
  exists w',
    download_single_video env_scan_raises "u" "d" 3 w_init = (Ret NotFetched, w') /\
    runs w' = 3%nat.
Proof.
  destruct (download_single_video_never_raises env_scan_raises "u" "d" 3 w_init)
    as (r & w' & Hd & Hall).
  destruct Hall as [-> Hr]; [intros i _; reflexivity|].
  exists w'. split; [exact Hd|exact Hr].
Defined.

(** ** Segmenting *)

Section Calls.
Variable E : env.

Lemma count_event_app ev t u :
  count_event ev (t ++ u) = (count_event ev t + count_event ev u)%nat.
Proof. unfold count_event. now rewrite filter_app, length_app. Qed.

Lemma bind_emit A ev (k : unit -> M A) w :
  bind (emit ev) k w = k tt (mkWorld (files w) (runs w) (trace w ++ [ev]) (vars w)).
Proof. reflexivity. Qed.

Lemma bind_create_file A p (k : unit -> M A) w :
  bind (create_file p) k w =
  k tt (mkWorld (with_file p (files w)) (runs w) (trace w ++ [EvWrite p]) (vars w)).
Proof. reflexivity. Qed.

(** A call raises or leaves its event. *)
Lemma bind_call_eq A ev (k : unit -> M A) w :
  bind (call E ev) k w =
  match call_error E (List.length (trace w)) ev with
  | Some ex => (Raise ex, w)
  | None => k tt (mkWorld (files w) (runs w) (trace w ++ [ev]) (vars w))
  end.
Proof. unfold bind, call. now destruct (call_error E _ ev). Qed.

Lemma bind_write_file_eq A p (k : unit -> M A) w :
  bind (write_file E p) k w =
  match open_error E (List.length (trace w)) p with
  | Some ex => (Raise ex, w)
  | None =>
      match call_error E (List.length (trace w)) (EvWrite p) with
      | Some ex =>
          (Raise ex, mkWorld (with_file p (files w)) (runs w) (trace w) (vars w))
      | None =>
          k tt (mkWorld (with_file p (files w)) (runs w) (trace w ++ [EvWrite p]) (vars w))
      end
  end.
Proof.
  unfold bind, write_file. destruct (open_error E _ p); [reflexivity|].
  now destruct (call_error E _ (EvWrite p)).
Qed.

(** With an engine and a file system that do not raise, a call is its
    event and a write is its file. *)
Lemma bind_call_ok A ev (k : unit -> M A) w :
  engine_ok E ->
  bind (call E ev) k w = k tt (mkWorld (files w) (runs w) (trace w ++ [ev]) (vars w)).
Proof. intros [_ Hc]. now rewrite bind_call_eq, Hc. Qed.

Lemma bind_write_file_ok A p (k : unit -> M A) w :
  engine_ok E ->
  bind (write_file E p) k w =
  k tt (mkWorld (with_file p (files w)) (runs w) (trace w ++ [EvWrite p]) (vars w)).
Proof. intros [Ho Hc]. now rewrite bind_write_file_eq, Ho, Hc. Qed.

Lemma engine_ok_quiet : engine_ok (quiet E).
Proof. split; reflexivity. Qed.

End Calls.

(** The calls at the head of a computation [H] says to have returned: each
    of them has left its event. *)
Ltac returned_calls H :=
  repeat first
    [ rewrite bind_emit in H
    | rewrite bind_call_eq in H;
      match type of H with
      | context [call_error ?E0 ?n0 ?ev0] =>
          destruct (call_error E0 n0 ev0); [discriminate H|]
      end
    | rewrite bind_write_file_eq in H;
      match type of H with
      | context [open_error ?E0 ?n0 ?p0] =>
          destruct (open_error E0 n0 p0); [discriminate H|]
      end;
      match type of H with
      | context [call_error ?E0 ?n0 ?ev0] =>
          destruct (call_error E0 n0 ev0); [discriminate H|]
      end ].

(** The calls at the head of a computation [H] gives the result of: where
    one of them raises, [fin] has to close the goal. *)
Ltac any_calls H fin :=
  repeat first
    [ rewrite bind_emit in H
    | rewrite bind_call_eq in H;
      match type of H with
      | context [call_error ?E0 ?n0 ?ev0] =>
          destruct (call_error E0 n0 ev0); [solve [fin]|]
      end
    | rewrite bind_write_file_eq in H;
      match type of H with
      | context [open_error ?E0 ?n0 ?p0] =>
          destruct (open_error E0 n0 p0); [solve [fin]|]
      end;
      match type of H with
      | context [call_error ?E0 ?n0 ?ev0] =>
          destruct (call_error E0 n0 ev0); [solve [fin]|]
      end ].

(** The calls at the head of the goal, for an engine and a file system
    that do not raise. *)
Ltac ok_calls Hok :=
  repeat first
    [ rewrite bind_emit
    | rewrite (bind_call_ok _ _ _ Hok)
    | rewrite (bind_write_file_ok _ _ _ Hok) ].

Section SegmentFacts.
Variable E : env.
Variable fmt : Z -> Z -> string.
Variable clips : list (Z * Z).

(** Extending a trace in two steps. *)
Lemma trace_extend (w w1 w' : world) pre :
  trace w1 = trace w ++ pre ->
  no_finish pre ->
  (exists t, trace w' = trace w1 ++ t /\ no_finish t) ->
  exists t, trace w' = trace w ++ t /\ no_finish t.
Proof.
  intros H1 Hp (t & Ht & Hn). exists (pre ++ t).
  rewrite Ht, H1, <- app_assoc. split; [reflexivity|].
  unfold no_finish in *. rewrite count_event_app. lia.
Qed.

(** The frame loop never closes the decoder. *)
Lemma segment_loop_no_finish items :
  forall frame_idx clip_idx s e out w r w',
    segment_loop E fmt clips items frame_idx clip_idx s e out w = (r, w') ->
    exists t, trace w' = trace w ++ t /\ no_finish t.
Proof.
  induction items as [|d items IH]; intros frame_idx clip_idx s e out w r w' H;
    cbn [segment_loop] in H.
  - injection H as <- <-. exists []. now rewrite app_nil_r.
  - destruct d as [|ex].
    2:{ injection H as <- <-. exists []. now rewrite app_nil_r. }
    rewrite bind_emit in H.
    destruct (frame_idx =? s).
    { any_calls H ltac:(injection H as <- <-; eexists;
                        split; [cbn [trace]; rewrite <- ?app_assoc; reflexivity|reflexivity]).
      apply IH in H.
      eapply (@trace_extend _ _ _ [EvDecode frame_idx; EvEncoderInit; EvEncode frame_idx]);
        [|reflexivity|exact H].
      cbn [trace]. now rewrite <- !app_assoc. }
    destruct ((s <? frame_idx) && (frame_idx <? e - 1))%bool.
    { any_calls H ltac:(injection H as <- <-; eexists;
                        split; [cbn [trace]; rewrite <- ?app_assoc; reflexivity|reflexivity]).
      apply IH in H.
      eapply (@trace_extend _ _ _ [EvDecode frame_idx; EvEncode frame_idx]);
        [|reflexivity|exact H].
      cbn [trace]. now rewrite <- !app_assoc. }
    destruct (frame_idx =? e - 1).
    2:{ apply IH in H.
        eapply (@trace_extend _ _ _ [EvDecode frame_idx]); [|reflexivity|exact H].
        reflexivity. }
    any_calls H ltac:(injection H as <- <-; eexists;
                      split; [cbn [trace]; rewrite <- ?app_assoc; reflexivity|reflexivity]).
    cbv zeta in H.
    set (w1 := mkWorld _ _ _ _) in H.
    assert (Hw1 : trace w1 = trace w ++ [EvDecode frame_idx; EvEncode frame_idx;
                                         EvEncoderFinish; EvWrite (fmt s e)]).
    { cbn [trace w1]. now rewrite <- !app_assoc. }
    destruct (clip_idx + 1 =? len clips).
    { injection H as <- <-. eexists. split; [exact Hw1|reflexivity]. }
    destruct (nth_error clips (Z.to_nat (clip_idx + 1))) as [[s' e']|].
    + apply IH in H. eapply trace_extend; [exact Hw1|reflexivity|exact H].
    + injection H as <- <-. eexists. split; [exact Hw1|reflexivity].
Qed.

(** C5, as the code has it.  For a job with a non-empty clip list,
    [decoder.finish()] is called exactly once when [process_one_video]
    returns (and then one file was produced per clip); when it is left by
    an exception it is not called at all.  That is so in particular when
    the loop ends with a segment count other than the number of clips: the
    assertion raises [AssertionError] before [decoder.finish()] is
    reached.  (The loop runs in the world [decoder.initialize] leaves when
    it returns; an event is there when its call has returned.) *)
Theorem process_one_video_decoder_finish (video_filename : string)
        (w : world) (r : res (list string)) (w' : world) :
  clips <> [] ->
  process_one_video E video_filename fmt clips w = (r, w') ->
  exists t,
    trace w' = trace w ++ t /\
    match r with
    | Ret out => count_event EvDecoderFinish t = 1%nat /\ len out = len clips
    | Raise _ => count_event EvDecoderFinish t = 0%nat
    end /\
    (forall w0 clip_idx out w1,
        call E (EvDecoderInit video_filename) w = (Ret tt, w0) ->
        segment_loop E fmt clips (video E video_filename) 0 0
                     (fst (hd (0, 0) clips)) (snd (hd (0, 0) clips)) [] w0
        = (Ret (clip_idx, out), w1) ->
        clip_idx <> len clips ->
        r = Raise AssertionError).
Proof.
  intros Hne H. unfold process_one_video in H.
  destruct clips as [|[s0 e0] rest] eqn:Ec; [contradiction|].
  rewrite <- Ec in *.
  replace (fst (hd (0, 0) clips)) with s0 by now rewrite Ec.
  replace (snd (hd (0, 0) clips)) with e0 by now rewrite Ec.
  rewrite bind_call_eq in H. unfold call, emit.
  destruct (call_error E (List.length (trace w)) (EvDecoderInit video_filename)) as [ex0|].
  { (* decoder.initialize raises *)
    injection H as <- <-. exists []. rewrite app_nil_r.
    split; [reflexivity|]. split; [reflexivity|].
    intros w0 ci o w2 Hinit. discriminate Hinit. }
  unfold bind at 1 in H.
  set (w0 := mkWorld _ _ _ _) in *.
  assert (Hsame : forall w0', (Ret tt, w0) = (Ret tt, w0') -> w0' = w0)
    by (intros w0' Heq; now injection Heq).
  destruct (segment_loop E fmt clips (video E video_filename) 0 0 s0 e0 [] w0)
    as [[[clip_idx out]|ex] w1] eqn:El.
  - destruct (segment_loop_no_finish _ _ _ _ _ _ _ El) as (t & Ht & Hn).
    destruct ((clip_idx =? len clips) && (len clips =? len out))%bool eqn:Ea.
    + apply andb_prop in Ea. destruct Ea as [Ea1 Ea2].
      apply Z.eqb_eq in Ea1, Ea2.
      rewrite bind_call_eq in H.
      destruct (call_error E (List.length (trace w1)) EvDecoderFinish) as [ex1|].
      * (* decoder.finish raises *)
        injection H as <- <-.
        exists ([EvDecoderInit video_filename] ++ t).
        rewrite Ht. cbn [trace w0]. rewrite <- !app_assoc.
        split; [reflexivity|]. split; [rewrite count_event_app; exact Hn|].
        intros w0' ci o w2 Hinit Heq Hci. apply Hsame in Hinit. subst w0'.
        rewrite El in Heq. injection Heq as -> _ _. contradiction.
      * injection H as <- <-.
        exists ([EvDecoderInit video_filename] ++ t ++ [EvDecoderFinish]).
        cbn [trace]. rewrite Ht. cbn [trace w0]. rewrite <- !app_assoc.
        split; [reflexivity|]. split.
        -- split; [|lia].
           rewrite !count_event_app. unfold no_finish in Hn. rewrite Hn. reflexivity.
        -- intros w0' ci o w2 Hinit Heq Hci. apply Hsame in Hinit. subst w0'.
           rewrite El in Heq. injection Heq as -> _ _. contradiction.
    + injection H as <- <-.
      exists ([EvDecoderInit video_filename] ++ t).
      rewrite Ht. cbn [trace w0]. rewrite <- !app_assoc.
      split; [reflexivity|]. split; [|reflexivity].
      rewrite count_event_app. exact Hn.
  - destruct (segment_loop_no_finish _ _ _ _ _ _ _ El) as (t & Ht & Hn).
    injection H as <- <-.
    exists ([EvDecoderInit video_filename] ++ t).
    rewrite Ht. cbn [trace w0]. rewrite <- !app_assoc.
    split; [reflexivity|]. split.
    + rewrite count_event_app. exact Hn.
    + intros w0' ci o w2 Hinit Heq. apply Hsame in Hinit. subst w0'.
      rewrite El in Heq. discriminate Heq.
Qed.

(** With an engine that does not raise, the loop is the one of the quiet
    engine. *)
Lemma segment_loop_quiet items :
  engine_ok E ->
  forall frame_idx clip_idx s e out w,
    segment_loop E fmt clips items frame_idx clip_idx s e out w
    = segment_loop (quiet E) fmt clips items frame_idx clip_idx s e out w.
Proof.
  intros Hok. pose proof (engine_ok_quiet E) as Hq.
  induction items as [|d items IH]; intros frame_idx clip_idx s e out w;
    cbn [segment_loop]; [reflexivity|].
  destruct d as [|ex]; [|reflexivity].
  rewrite !bind_emit.
  destruct (frame_idx =? s).
  { rewrite !(bind_call_ok _ _ _ Hok), !(bind_call_ok _ _ _ Hq). apply IH. }
  destruct ((s <? frame_idx) && (frame_idx <? e - 1))%bool.
  { rewrite !(bind_call_ok _ _ _ Hok), !(bind_call_ok _ _ _ Hq). apply IH. }
  destruct (frame_idx =? e - 1); [|apply IH].
  rewrite !(bind_call_ok _ _ _ Hok), !(bind_call_ok _ _ _ Hq).
  rewrite (bind_write_file_ok _ _ _ Hok), (bind_write_file_ok _ _ _ Hq).
  cbv zeta. destruct (clip_idx + 1 =? len clips); [reflexivity|].
  destruct (nth_error clips (Z.to_nat (clip_idx + 1))) as [[s' e']|]; [apply IH|reflexivity].
Qed.

Lemma process_one_video_quiet (video_filename : string) (w : world) :
  engine_ok E ->
  process_one_video E video_filename fmt clips w
  = process_one_video (quiet E) video_filename fmt clips w.
Proof.
  intros Hok. pose proof (engine_ok_quiet E) as Hq.
  unfold process_one_video. destruct clips as [|[s0 e0] rest] eqn:Ec; [reflexivity|].
  rewrite <- Ec.
  rewrite (bind_call_ok _ _ _ Hok), (bind_call_ok _ _ _ Hq).
  unfold bind at 1 3. rewrite (segment_loop_quiet _ Hok). cbn [video quiet].
  destruct (segment_loop _ _ _ _ _ _ _ _ _ _) as [[[ci out]|ex] w1]; [|reflexivity].
  destruct ((ci =? len clips) && (len clips =? len out))%bool; [|reflexivity].
  now rewrite (bind_call_ok _ _ _ Hok), (bind_call_ok _ _ _ Hq).
Qed.

End SegmentFacts.

(** C1.  With the clips [(0,3), (5,8)], a source of 8 frames, and an engine
    and a file system that do not raise, [process_one_video] returns
    exactly the two file names the format gives for (0, 3) and (5, 8), in
    this order, and writes exactly these two files; all 8 frames are taken
    from the decoder, the frames 0, 1, 2, 5, 6, 7 are given to the encoder,
    and the frames 3 and 4 are not. *)
Theorem process_one_video_two_clips (E : env) (video_filename : string)
        (fmt : Z -> Z -> string) (w : world) :
  engine_ok E ->
  video E video_filename = repeat Frame 8 ->
  exists w' t,
    process_one_video E video_filename fmt [(0, 3); (5, 8)] w
    = (Ret [fmt 0 3; fmt 5 8], w') /\
    trace w' = trace w ++ t /\
    written t = [fmt 0 3; fmt 5 8] /\
    decoded_frames t = [0; 1; 2; 3; 4; 5; 6; 7] /\
    encoded_frames t = [0; 1; 2; 5; 6; 7] /\
    In 3 (decoded_frames t) /\ In 4 (decoded_frames t) /\
    ~ In 3 (encoded_frames t) /\ ~ In 4 (encoded_frames t).
Proof.
  intros Hok Hv. rewrite (process_one_video_quiet _ _ _ _ Hok).
  unfold process_one_video. cbn [video quiet]. rewrite Hv.
  cbn -[write_file call]. unfold bind, call, emit, write_file, with_file, ret. cbn.
  do 2 eexists. split; [reflexivity|]. cbn [trace].
  rewrite <- !app_assoc. cbn [app].
  split; [reflexivity|]. cbn.
  split; [reflexivity|]. split; [reflexivity|]. split; [reflexivity|].
  split; [auto 10|]. split; [auto 10|].
  split; intros H; repeat (destruct H as [H|H]; try discriminate H); exact H.
Qed.

Lemma process_one_video_two_clips_witness :
  engine_ok (env_ok 8) /\
  video (env_ok 8) "v.mp4" = repeat Frame 8 /\
  exists w' t,
    process_one_video (env_ok 8) "v.mp4" plain_format [(0, 3); (5, 8)] w_init
    = (Ret ["0000000_0000003.hevc"; "0000005_0000008.hevc"], w') /\
    trace w' = t /\
    written t = ["0000000_0000003.hevc"; "0000005_0000008.hevc"] /\
    decoded_frames t = [0; 1; 2; 3; 4; 5; 6; 7] /\
    encoded_frames t = [0; 1; 2; 5; 6; 7].
Proof.
  assert (Hok : engine_ok (env_ok 8)) by (split; reflexivity).
  split; [exact Hok|]. split; [reflexivity|].
  destruct (@process_one_video_two_clips (env_ok 8) "v.mp4" plain_format w_init Hok eq_refl)
    as (w' & t & Hp & Ht & Hw & Hd & He & _).
  exists w', t. repeat split; assumption.
Defined.

(** The names the worker's format string gives for these two clips. *)
Lemma segment_cuda_two_clips_names :
  fst (segment_cuda (env_ok 8) "/tmp/temp_videos_worker_0/vid.mp4" "out/vid" "vid"
                    [(0, 3); (5, 8)] w_init)
  = Ret ["out/vid/vid_0000000_0000003.hevc"; "out/vid/vid_0000005_0000008.hevc"].
Proof. reflexivity. Qed.

(** A source that ends before the clip does: the assertion raises. *)
Lemma process_one_video_short_source :
  fst (process_one_video (env_ok 2) "v.mp4" plain_format [(0, 3)] w_init)
  = Raise AssertionError.
Proof. reflexivity. Qed.

Lemma process_one_video_decoder_finish_witness :
  [(0, 2)] <> [] /\
  process_one_video (env_ok 2) "v.mp4" plain_format [(0, 2)] w_init
  = (Ret ["0000000_0000002.hevc"],
     mkWorld [("", "0000000_0000002.hevc")] 0
             [EvDecoderInit "v.mp4"; EvDecode 0; EvEncoderInit; EvEncode 0;
              EvDecode 1; EvEncode 1; EvEncoderFinish;
              EvWrite "0000000_0000002.hevc"; EvDecoderFinish]
             (mkLocals 0 0 None)) /\
  exists t,
    t = [EvDecoderInit "v.mp4"; EvDecode 0; EvEncoderInit; EvEncode 0;
         EvDecode 1; EvEncode 1; EvEncoderFinish;
         EvWrite "0000000_0000002.hevc"; EvDecoderFinish] /\
    count_event EvDecoderFinish t = 1%nat.
Proof.
  assert (Hne : [(0, 2)] <> @nil (Z * Z)) by discriminate.
  split; [exact Hne|]. split; [reflexivity|].
  destruct (@process_one_video_decoder_finish (env_ok 2) plain_format [(0, 2)]
              "v.mp4" w_init _ _ Hne eq_refl) as (t & Ht & [Hc _] & _).
  exists t. split; [symmetry; exact Ht|exact Hc].
Defined.

(** C5 as stated fails: with the clip (0, 3) and a source of two frames the
    loop ends with no segment completed, the assertion raises, and
    [decoder.finish()] has not been called. *)
Lemma process_one_video_decoder_finish_counterexample :
  ~ (forall (E : env) (video_filename : string) (fmt : Z -> Z -> string)
            (clips : list (Z * Z)) (w : world) (r : res (list string)) (w' : world),
        clips <> [] ->
        process_one_video E video_filename fmt clips w = (r, w') ->
        exists t, trace w' = trace w ++ t /\ count_event EvDecoderFinish t = 1%nat).
Proof.
  intros H.
  destruct (H (env_ok 2) "v.mp4" plain_format [(0, 3)] w_init _ _
              ltac:(discriminate) eq_refl) as (t & Ht & Hc).
  cbn in Ht. subst t. discriminate Hc.
Qed.

(** ** The worker *)

Section WorkerFacts.
Variable E : env.
Variable seg : segmenter.
Variables input_clip_dir output_dir temp_video_dir url : string.

Lemma existsb_filter_negb (P : entry -> bool) (l : list entry) :
  existsb P (filter (fun e => negb (P e)) l) = false.
Proof.
  induction l as [|x l IH]; cbn; [reflexivity|].
  destruct (P x) eqn:Hx; cbn; [exact IH|]. now rewrite Hx.
Qed.

Lemma recorded_outcome_failed (before after : locals) :
  processed_count after = processed_count before ->
  failed_count after = failed_count before + 1 ->
  recorded_outcome before after = Some Failed.
Proof.
  intros Hp Hf. unfold recorded_outcome. rewrite Hp, Hf, Z.sub_diag.
  replace (failed_count before + 1 - failed_count before) with 1 by lia.
  reflexivity.
Qed.

(** C4, as the code has it.  When the fetch of a job succeeds and the clip
    file of the fetched video is absent, the job is tallied as failed
    ([failed_count] goes up by one, [processed_count] stays), nothing is
    written, and the fetched video file is deleted whenever the system
    allows the deletion. *)
Theorem process_job_manifest_missing (w w1 : world) (video_path video_id : string) :
  download_single_video E url temp_video_dir 3 (job_start w)
  = (Ret (Fetched video_path video_id), w1) ->
  existsb (path_eqb (os_path_join input_clip_dir (video_id ++ ".txt"))) (files w1)
  = false ->
  exists w2,
    process_job E seg input_clip_dir output_dir temp_video_dir url w = (Ret tt, w2) /\
    processed_count (vars w2) = processed_count (vars w) /\
    failed_count (vars w2) = failed_count (vars w) + 1 /\
    recorded_outcome (vars w) (vars w2) = Some Failed /\
    (exists t, trace w2 = trace w ++ t /\ written t = []) /\
    (remove_error E video_path = None ->
     files w2 = filter (fun e => negb (path_eqb video_path e)) (files w1) /\
     existsb (path_eqb video_path) (files w2) = false).
Proof.
  intros Hd Hm.
  destruct (download_loop_frame _ _ _ _ _ _ _ Hd) as (Hv & (t1 & Ht1 & Hw1 & _) & Hp).
  specialize (Hp _ _ eq_refl). cbn [vars trace job_start] in Hv, Ht1.
  unfold process_job, try_except, logging.
  rewrite bind_emit. unfold bind at 1. fold (job_start w). rewrite Hd.
  unfold bind, set_video_path, logging, emit, os_path_exists, os_remove,
    get_video_path, incr_failed, ret. cbn.
  rewrite Hm. cbn. rewrite Hp.
  assert (Hcount : forall (v : option string),
             recorded_outcome (vars w)
               (mkLocals (processed_count (vars w1)) (failed_count (vars w1) + 1) v)
             = Some Failed).
  { intros v. apply recorded_outcome_failed; cbn; now rewrite Hv. }
  destruct (remove_error E video_path) as [ex|] eqn:Er; cbn.
  - repeat (first [rewrite Hp | rewrite Er]; cbn). eexists. split; [reflexivity|]. cbn.
    split; [now rewrite Hv|]. split; [now rewrite Hv|].
    split; [apply Hcount|].
    split; [|discriminate].
    exists ([EvLog INFO] ++ t1 ++ [EvLog INFO; EvLog WARNING; EvLog ERROR]).
    rewrite Ht1, <- !app_assoc. split; [reflexivity|].
    unfold written in *. rewrite !flat_map_app, Hw1. reflexivity.
  - eexists. split; [reflexivity|]. cbn.
    split; [now rewrite Hv|]. split; [now rewrite Hv|].
    split; [apply Hcount|].
    split.
    + exists ([EvLog INFO] ++ t1 ++ [EvLog INFO; EvLog WARNING; EvRemove video_path]).
      rewrite Ht1, <- !app_assoc. split; [reflexivity|].
      unfold written in *. rewrite !flat_map_app, Hw1. reflexivity.
    + intros _. split; [reflexivity|]. apply existsb_filter_negb.
Qed.

(** A job whose segmenting returns and whose source video the system then
    refuses to delete is tallied twice: in [processed_count] by the [try]
    body and in [failed_count] by the handler. *)
Lemma process_job_delete_refused (w w1 w2 : world) (video_path video_id : string)
      (clips : list (Z * Z)) (out : list string) (ex : exn) :
  download_single_video E url temp_video_dir 3 (job_start w)
  = (Ret (Fetched video_path video_id), w1) ->
  existsb (path_eqb (os_path_join input_clip_dir (video_id ++ ".txt"))) (files w1)
  = true ->
  manifest E (os_path_join input_clip_dir (video_id ++ ".txt")) = Ret clips ->
  clips <> [] ->
  seg video_path (os_path_join output_dir video_id) video_id clips
      (segment_start w1 video_path) = (Ret out, w2) ->
  vars w2 = vars (segment_start w1 video_path) ->
  remove_error E video_path = Some ex ->
  exists w3,
    process_job E seg input_clip_dir output_dir temp_video_dir url w = (Ret tt, w3) /\
    processed_count (vars w3) = processed_count (vars w) + 1 /\
    failed_count (vars w3) = failed_count (vars w) + 1 /\
    recorded_outcome (vars w) (vars w3) = None.
Proof.
  intros Hd Hm Hc Hne Hs Hvars Hr.
  destruct (download_loop_frame _ _ _ _ _ _ _ Hd) as (Hv & _ & _).
  cbn [vars job_start] in Hv.
  assert (Hlen : (len clips =? 0) = false).
  { destruct clips; [contradiction|]. apply Z.eqb_neq. unfold len. cbn [List.length]. lia. }
  unfold process_job, try_except, logging.
  rewrite bind_emit. unfold bind at 1. fold (job_start w). rewrite Hd.
  unfold bind, set_video_path, emit, os_path_exists, read_clips, ret. cbn.
  rewrite Hm, Hc. cbn. rewrite Hlen.
  unfold segment_start in Hs, Hvars. cbn in Hs, Hvars |- *. rewrite Hs. cbn.
  assert (Hfinal : forall w3,
             processed_count (vars w3) = processed_count (vars w2) + 1 ->
             failed_count (vars w3) = failed_count (vars w2) + 1 ->
             processed_count (vars w3) = processed_count (vars w) + 1 /\
             failed_count (vars w3) = failed_count (vars w) + 1 /\
             recorded_outcome (vars w) (vars w3) = None).
  { intros w3 Hp Hf. rewrite Hvars in Hp, Hf. cbn in Hp, Hf. rewrite Hv in Hp, Hf.
    split; [exact Hp|]. split; [exact Hf|].
    unfold recorded_outcome. rewrite Hp, Hf.
    replace (processed_count (vars w) + 1 - processed_count (vars w)) with 1 by lia.
    replace (failed_count (vars w) + 1 - failed_count (vars w)) with 1 by lia.
    reflexivity. }
  unfold os_remove, get_video_path, incr_processed, incr_failed. cbn.
  rewrite Hvars. cbn.
  destruct (existsb (path_eqb video_path) (files w2)) eqn:Hex; cbn.
  - repeat (first [rewrite Hex | rewrite Hr]; cbn).
    eexists. split; [reflexivity|]. apply Hfinal; cbn; now rewrite Hvars.
  - repeat (rewrite Hex; cbn).
    eexists. split; [reflexivity|]. apply Hfinal; cbn; now rewrite Hvars.
Qed.

End WorkerFacts.

Lemma process_job_manifest_missing_witness :
  download_single_video (env_ok 2) "u" "tmp" 3 (job_start w_init)
  = (Ret (Fetched "tmp/vid.mp4" "vid"),
     mkWorld [("tmp", "vid.mp4")] 1 [EvLog INFO; EvRun "u"] (mkLocals 0 0 None)) /\
  existsb (path_eqb (os_path_join "clips" ("vid" ++ ".txt"))) [("tmp", "vid.mp4")] = false /\
  exists w2,
    process_job (env_ok 2) (segment_cuda (env_ok 2)) "clips" "out" "tmp" "u" w_init
    = (Ret tt, w2) /\
    failed_count (vars w2) = 1 /\ processed_count (vars w2) = 0 /\
    files w2 = [] /\ written (trace w2) = [].
Proof.
  split; [reflexivity|]. split; [reflexivity|].
  destruct (@process_job_manifest_missing (env_ok 2) (segment_cuda (env_ok 2))
              "clips" "out" "tmp" "u" w_init _ "tmp/vid.mp4" "vid" eq_refl eq_refl)
    as (w2 & Hj & Hp & Hf & _ & (t & Ht & Hw) & Hdel).
  exists w2. split; [exact Hj|]. split; [exact Hf|]. split; [exact Hp|].
  split; [apply (Hdel eq_refl)|]. rewrite Ht. exact Hw.
Defined.

(** C4 as stated fails: the job with the absent clip file is tallied as
    failed, not as skipped. *)
Lemma process_job_manifest_missing_counterexample :
  ~ (forall (E : env) (seg : segmenter) (input_clip_dir output_dir temp_video_dir url : string)
            (w w1 : world) (video_path video_id : string),
        download_single_video E url temp_video_dir 3 (job_start w)
        = (Ret (Fetched video_path video_id), w1) ->
        existsb (path_eqb (os_path_join input_clip_dir (video_id ++ ".txt"))) (files w1)
        = false ->
        exists w2,
          process_job E seg input_clip_dir output_dir temp_video_dir url w = (Ret tt, w2) /\
          recorded_outcome (vars w) (vars w2) = Some Skipped).
Proof.
  intros H.
  destruct (H (env_ok 2) (segment_cuda (env_ok 2)) "clips" "out" "tmp" "u" w_init
              _ "tmp/vid.mp4" "vid" eq_refl eq_refl) as (w2 & Hj & Ho).
  vm_compute in Hj. injection Hj as <-. discriminate Ho.
Qed.

(** C8 at a failing input.  One job: the fetch succeeds, the clip file holds
    the clip (0, 2), the video decodes to two frames, the artifact is
    written, and then the system refuses to delete the source video.  The
    worker reports the job both as processed and as failed, and the tallies
    match none of the outcomes.  With the deletion allowed, the same job is
    reported as processed only.  The worker of the compatible script tallies
    the refused deletion the same way, with the GPU engine and with
    [ffmpeg]. *)
Theorem process_worker_delete_failure :
  (exists w',
      process_worker env_delete_refused 0 ["u"] "clips" "out" 0 w_clips
      = (Ret (Some (1, 1)), w') /\
      written (trace w') = ["out/vid/vid_0000000_0000002.hevc"] /\
      recorded_outcome (vars w_clips) (vars w') = None) /\
  (exists w',
      process_worker (env_ok 2) 0 ["u"] "clips" "out" 0 w_clips
      = (Ret (Some (1, 0)), w') /\
      written (trace w') = ["out/vid/vid_0000000_0000002.hevc"] /\
      recorded_outcome (vars w_clips) (vars w') = Some Completed) /\
  (forall use_cuda, exists w',
      process_worker_compatible env_delete_refused 0 ["u"] "clips" "out" 0
                                use_cuda true w_clips
      = (Ret (1, 1), w')).
Proof.
  split; [|split].
  - eexists. split; [vm_compute; reflexivity|]. split; reflexivity.
  - eexists. split; [vm_compute; reflexivity|]. split; reflexivity.
  - intros [|]; eexists; vm_compute; reflexivity.
Qed.

(** * Further properties *)

(** ** Partitioner *)

Section PartitionerMore.
Variable A : Type.
Implicit Types (urls : list A) (split shards : list (list A)).

(** What the loop appends: the slices numbered [i], [i + 1], ... *)
Lemma split_loop_slices urls c (k : nat) :
  forall i split,
  exists rest,
    split_loop urls c k i split = split ++ rest /\
    forall j, (j < List.length rest)%nat ->
              nth j rest [] =
              py_slice urls ((i + Z.of_nat j) * c)
                       (Z.min ((i + Z.of_nat j + 1) * c) (len urls)).
Proof.
  induction k as [|k IH]; intros i split; cbn [split_loop].
  - exists []. rewrite app_nil_r. split; [reflexivity|]. intros j Hj. cbn in Hj. lia.
  - destruct (i * c >=? len urls).
    + exists []. rewrite app_nil_r. split; [reflexivity|]. intros j Hj. cbn in Hj. lia.
    + destruct (IH (i + 1) (split ++ [py_slice urls (i * c) (Z.min ((i + 1) * c) (len urls))]))
        as (rest & E & Hn).
      eexists (_ :: rest). rewrite E, <- app_assoc. split; [reflexivity|].
      intros [|j] Hj.
      * cbn [nth]. now rewrite Z.add_0_r.
      * cbn [nth]. rewrite Hn by (cbn in Hj; lia).
        now replace (i + 1 + Z.of_nat j) with (i + Z.of_nat (S j)) by lia.
Qed.

(** X1.  Shard number [j] of [split_urls] is the contiguous slice
    [urls[j*c : min((j+1)*c, N)]] of the input, [c] being
    [math.ceil(N / num_workers)]. *)
Theorem split_urls_shard_is_slice urls (W c : Z) shards :
  math_ceil_div (len urls) W = Ret c ->
  split_urls urls W = Ret shards ->
  forall j, (j < List.length shards)%nat ->
            nth j shards [] =
            py_slice urls (Z.of_nat j * c)
                     (Z.min ((Z.of_nat j + 1) * c) (len urls)).
Proof.
  intros Ec Es j Hj. unfold split_urls in Es. rewrite Ec in Es.
  destruct (split_loop_slices urls c (Z.to_nat W) 0 []) as (rest & E & Hn).
  rewrite E in Es. cbn [app] in Es. injection Es as <-.
  rewrite Hn by exact Hj. reflexivity.
Qed.

Lemma full_but_last_total c shards :
  full_but_last c shards -> shards <> [] ->
  (len shards - 1) * c < len (concat shards) <= len shards * c.
Proof.
  induction shards as [|s rest IH]; intros H Hne; [contradiction|].
  destruct rest as [|s' rest].
  - cbn [concat]. rewrite app_nil_r. cbn in H. unfold len in *. cbn [List.length]. nia.
  - destruct H as [Hs Hrest]. specialize (IH Hrest ltac:(discriminate)).
    cbn [concat] in *. unfold len in *.
    rewrite length_app. cbn [List.length] in *. nia.
Qed.

(** X2.  For a quotient [N / W] within the range of a double, the number
    [L] of shards is the least one with [L * c >= N]: it is at most
    [num_workers] and can be smaller (9 jobs and 4 workers give 3 shards of
    3), so fewer workers than asked for may be started. *)
Theorem split_urls_shard_count urls (W : Z) :
  1 <= W -> urls <> [] ->
  in_double_range (len urls) W = true ->
  exists c shards,
    math_ceil_div (len urls) W = Ret c /\
    split_urls urls W = Ret shards /\
    1 <= len shards <= W /\
    (len shards - 1) * c < len urls <= len shards * c.
Proof.
  intros HW Hne HR. apply in_double_range_underflows in HR.
  destruct (math_ceil_div_pos (len_nonneg urls) HW HR) as (c & Ec & Hc & Hcov & _).
  assert (Hpos : 1 <= len urls).
  { destruct urls; [contradiction|]. unfold len. cbn [List.length]. lia. }
  assert (Hc1 : 1 <= c) by nia.
  destruct (split_loop_shape urls Hc1 (Z.to_nat W) (i:=0) [] ltac:(lia))
    as (rest & E & Hshape & _ & Hlen).
  assert (Hcat : concat rest = urls).
  { rewrite <- (app_nil_l rest), <- E.
    apply split_loop_concat; [lia|lia| |].
    - rewrite Z.mul_0_l, Z.min_l by apply len_nonneg. reflexivity.
    - rewrite Z2Nat.id by lia. lia. }
  assert (Hrest : rest <> []).
  { intros ->. cbn in Hcat. subst urls. contradiction. }
  exists c, rest. split; [exact Ec|]. unfold split_urls. rewrite Ec, E. cbn [app].
  split; [reflexivity|].
  pose proof (@full_but_last_total c rest Hshape Hrest) as Ht. rewrite Hcat in Ht.
  split; [|exact Ht].
  split.
  - destruct rest; [contradiction|]. unfold len. cbn [List.length]. lia.
  - unfold len. lia.
Qed.

(** X3.  For [num_workers >= 1], [split_urls] returns no shard exactly when
    there is no job. *)
Theorem split_urls_empty_iff urls (W : Z) :
  1 <= W ->
  (split_urls urls W = Ret [] <-> urls = []).
Proof.
  intros HW. split.
  - intros Es.
    destruct (underflows (len urls) W) eqn:HR.
    + (* the shard width is 0: the first iteration appends a shard *)
      exfalso. unfold split_urls, math_ceil_div in Es. rewrite HR in Es.
      destruct (Z.eqb_spec W 0); [lia|]. injection Es as Es.
      unfold underflows in HR. apply andb_prop in HR as [HN _].
      apply Z.ltb_lt in HN.
      destruct (Z.to_nat W) as [|k] eqn:Ek; [lia|]. cbn [split_loop] in Es.
      destruct (Z.geb_spec (0 * 0) (len urls)); [lia|].
      destruct (split_loop_slices urls 0 k (0 + 1)
                  ([] ++ [py_slice urls (0 * 0) (Z.min ((0 + 1) * 0) (len urls))]))
        as (rest & E & _).
      rewrite E in Es. discriminate Es.
    + destruct (math_ceil_div_pos (len_nonneg urls) HW HR) as (c & Ec & Hc & Hcov & _).
      unfold split_urls in Es. rewrite Ec in Es. injection Es as Es.
      rewrite <- (split_loop_concat urls Hc (Z.to_nat W) (i:=0) []); [now rewrite Es|lia| |].
      * rewrite Z.mul_0_l, Z.min_l by apply len_nonneg. reflexivity.
      * rewrite Z2Nat.id by lia. lia.
  - intros ->. now apply split_urls_empty.
Qed.

Lemma split_loop_singletons urls (k : nat) :
  forall (i : nat) split,
    (i <= List.length urls)%nat ->
    (List.length urls <= k + i)%nat ->
    split_loop urls 1 k (Z.of_nat i) split
    = split ++ map (fun u => [u]) (skipn i urls).
Proof.
  induction k as [|k IH]; intros i split Hi Hk; cbn [split_loop].
  - rewrite skipn_all2 by lia. cbn. now rewrite app_nil_r.
  - rewrite Z.mul_1_r.
    destruct (Z.geb_spec (Z.of_nat i) (len urls)) as [Hge|Hlt].
    + unfold len in Hge. rewrite skipn_all2 by lia. cbn. now rewrite app_nil_r.
    + unfold len in Hlt.
      replace (Z.of_nat i + 1) with (Z.of_nat (S i)) by lia.
      rewrite IH by lia. rewrite <- app_assoc. f_equal.
      rewrite Z.mul_1_r, py_slice_inside by (unfold len; lia).
      rewrite Z.min_l by (unfold len; lia).
      replace (Z.to_nat (Z.of_nat (S i) - Z.of_nat i)) with 1%nat by lia.
      rewrite Nat2Z.id.
      destruct (skipn i urls) as [|u tl] eqn:Es.
      { apply (f_equal (@List.length A)) in Es. rewrite length_skipn in Es.
        cbn in Es. lia. }
      replace (skipn (S i) urls) with tl.
      * reflexivity.
      * change (S i) with (1 + i)%nat. rewrite <- skipn_skipn, Es. reflexivity.
Qed.

(** X4.  With at least as many workers as jobs, and a quotient [N / W]
    within the range of a double, every job gets a shard of its own: [N]
    shards of one job each, in input order. *)
Theorem split_urls_one_job_each urls (W : Z) :
  urls <> [] -> len urls <= W ->
  in_double_range (len urls) W = true ->
  split_urls urls W = Ret (map (fun u => [u]) urls).
Proof.
  intros Hne HW HR. apply in_double_range_underflows in HR.
  assert (Hpos : 1 <= len urls).
  { destruct urls; [contradiction|]. unfold len. cbn [List.length]. lia. }
  destruct (math_ceil_div_pos (len_nonneg urls) (w:=W) ltac:(lia) HR)
    as (c & Ec & Hc & Hcov & Hlow).
  destruct (Z.eqb_spec (len urls) 0); [lia|].
  assert (c = 1) by nia. subst c.
  unfold split_urls. rewrite Ec. f_equal.
  change 0 with (Z.of_nat 0).
  rewrite split_loop_singletons; [reflexivity|lia|unfold len in *; lia].
Qed.

End PartitionerMore.

Lemma split_urls_shard_is_slice_witness :
  math_ceil_div (len ["a"; "b"; "c"; "d"; "e"]) 2 = Ret 3 /\
  split_urls ["a"; "b"; "c"; "d"; "e"] 2 = Ret [["a"; "b"; "c"]; ["d"; "e"]] /\
  nth 1 [["a"; "b"; "c"]; ["d"; "e"]] [] = py_slice ["a"; "b"; "c"; "d"; "e"] 3 5.
Proof.
  split; [reflexivity|]. split; [reflexivity|].
  apply (@split_urls_shard_is_slice string ["a"; "b"; "c"; "d"; "e"] 2 3 _ eq_refl eq_refl 1%nat).
  apply Nat.ltb_lt. reflexivity.
Defined.

Lemma split_urls_shard_count_witness :
  1 <= 4 /\ ["1"; "2"; "3"; "4"; "5"; "6"; "7"; "8"; "9"] <> [] /\
  in_double_range 9 4 = true /\
  exists c shards,
    math_ceil_div 9 4 = Ret c /\
    split_urls ["1"; "2"; "3"; "4"; "5"; "6"; "7"; "8"; "9"] 4 = Ret shards /\
    1 <= len shards <= 4 /\
    (len shards - 1) * c < 9 <= len shards * c.
Proof.
  split; [lia|]. split; [discriminate|]. split; [reflexivity|].
  apply (@split_urls_shard_count string
           ["1"; "2"; "3"; "4"; "5"; "6"; "7"; "8"; "9"] 4); [lia|discriminate|reflexivity].
Defined.

Lemma split_urls_empty_iff_witness :
  1 <= 3 /\ (split_urls (@nil string) 3 = Ret [] <-> @nil string = []).
Proof. split; [lia | apply (@split_urls_empty_iff string [] 3); lia]. Defined.

Lemma split_urls_one_job_each_witness :
  ["a"; "b"] <> [] /\ len ["a"; "b"] <= 5 /\
  in_double_range (len ["a"; "b"]) 5 = true /\
  split_urls ["a"; "b"] 5 = Ret [["a"]; ["b"]].
Proof.
  split; [discriminate|]. split; [cbn; lia|]. split; [reflexivity|].
  apply (@split_urls_one_job_each string ["a"; "b"] 5); [discriminate|cbn; lia|reflexivity].
Defined.

(** X5.  [split_urls_file] writes shard [i] of [split_urls] to the file
    [urls_worker_<i>.txt] of the output directory, for [i = 0, 1, ...]
    without a gap, and returns these paths in this order. *)
Theorem split_urls_file_names (urls : list string) (W : Z) (d : string)
        (files_written : list (string * list string)) :
  split_urls_file urls W d = Ret files_written ->
  split_urls urls W = Ret (map snd files_written) /\
  map fst files_written =
  map (fun i => os_path_join d ("urls_worker_" ++ decimal (Z.of_nat i) ++ ".txt")%string)
      (seq 0 (List.length files_written)).
Proof.
  intros H. unfold split_urls_file, split_urls in *.
  destruct (math_ceil_div (len urls) W) as [c|e]; [|discriminate].
  injection H as <-. split.
  - rewrite split_files_loop_shards. reflexivity.
  - assert (G : forall k (i : nat) acc,
               map fst acc =
               map (fun j => os_path_join d ("urls_worker_" ++ decimal (Z.of_nat j) ++ ".txt")%string)
                   (seq 0 (List.length acc)) ->
               i = List.length acc ->
               map fst (split_files_loop urls c d k (Z.of_nat i) acc) =
               map (fun j => os_path_join d ("urls_worker_" ++ decimal (Z.of_nat j) ++ ".txt")%string)
                   (seq 0 (List.length (split_files_loop urls c d k (Z.of_nat i) acc)))).
    { induction k as [|k IH]; intros i acc Hacc Hi; cbn [split_files_loop]; [exact Hacc|].
      destruct (Z.of_nat i * c >=? len urls); [exact Hacc|].
      replace (Z.of_nat i + 1) with (Z.of_nat (S i)) by lia.
      apply IH.
      - rewrite length_app, map_app, seq_app, map_app, Hacc. cbn. now rewrite <- Hi.
      - rewrite length_app. cbn. lia. }
    apply (G (Z.to_nat W) 0%nat []); reflexivity.
Qed.

Lemma split_urls_file_names_witness :
  split_urls_file ["a"; "b"; "c"] 2 "temp_splits"
  = Ret [("temp_splits/urls_worker_0.txt", ["a"; "b"]);
         ("temp_splits/urls_worker_1.txt", ["c"])] /\
  split_urls ["a"; "b"; "c"] 2 = Ret [["a"; "b"]; ["c"]].
Proof.
  split; [reflexivity|].
  apply (@split_urls_file_names ["a"; "b"; "c"] 2 "temp_splits" _ eq_refl).
Defined.

(** ** Fetch *)

Section StringFacts.

Lemma substring_all (s : string) : substring 0 (String.length s) s = s.
Proof. induction s as [|c s IH]; cbn; [reflexivity|]. now rewrite IH. Qed.

Lemma substring_skip (x s : string) (m : nat) :
  substring (String.length x) m (x ++ s) = substring 0 m s.
Proof. induction x as [|c x IH]; cbn; [reflexivity|exact IH]. Qed.

Lemma string_length_app (x s : string) :
  String.length (x ++ s) = (String.length x + String.length s)%nat.
Proof. induction x as [|c x IH]; cbn; [reflexivity|]. now rewrite IH. Qed.

(** [(x + suffix).endswith(suffix)] *)
Lemma endswith_app (x suffix : string) : endswith (x ++ suffix) suffix = true.
Proof.
  unfold endswith. rewrite string_length_app.
  destruct (Nat.ltb_spec (String.length x + String.length suffix) (String.length suffix));
    [lia|].
  replace (String.length x + String.length suffix - String.length suffix)%nat
    with (String.length x) by lia.
  rewrite substring_skip, substring_all. apply String.eqb_refl.
Qed.

(** [(x + ".mp4").replace(".mp4", "")] gives [x] back when [x] has no dot. *)
Lemma str_replace_extension (x : string) :
  no_dot x = true -> str_replace (x ++ ".mp4") ".mp4" "" = x.
Proof.
  unfold str_replace. induction x as [|c x IH]; intros H; [reflexivity|].
  cbn [no_dot] in H. apply andb_prop in H. destruct H as [Hc Hx].
  cbn [append replace_from prefix].
  destruct (ascii_dec "." c) as [<-|_]; [discriminate Hc|].
  now rewrite IH.
Qed.

End StringFacts.

Section FetchMore.
Variable E : env.
Variables url temp_video_dir : string.
Variable max_retries : Z.

Lemma listing_app d fs gs : listing d (fs ++ gs) = listing d fs ++ listing d gs.
Proof. unfold listing. now rewrite filter_app, map_app. Qed.

Lemma find_mp4_shape d names p id :
  find_mp4 d names = Return (Fetched p id) ->
  exists file, In file names /\ endswith file ".mp4" = true /\
               p = os_path_join d file /\ id = str_replace file ".mp4" "".
Proof.
  induction names as [|f names IH]; cbn [find_mp4]; [discriminate|].
  destruct (endswith f ".mp4") eqn:Ef.
  - intros H. injection H as <- <-. exists f. repeat split; auto. now left.
  - intros H. destruct (IH H) as (g & Hg & R). exists g. split; [now right|exact R].
Qed.

Lemma all_fetch_events_app t u :
  forallb is_fetch_event t = true -> forallb is_fetch_event u = true ->
  forallb is_fetch_event (t ++ u) = true.
Proof. intros Ht Hu. rewrite forallb_app, Ht, Hu. reflexivity. Qed.

(** What every run of the loop keeps. *)
Lemma download_loop_bounds (k : nat) :
  forall attempt w,
  exists r w' t,
    download_loop E url temp_video_dir max_retries k attempt w = (Ret r, w') /\
    (runs w <= runs w' <= runs w + k)%nat /\
    ((0 < k)%nat -> (runs w < runs w')%nat) /\
    (forall e, In e (files w) -> In e (files w')) /\
    vars w' = vars w /\
    trace w' = trace w ++ t /\
    forallb is_fetch_event t = true /\
    count_event (EvRun url) t = (runs w' - runs w)%nat /\
    (forall p id, r = Fetched p id ->
                  exists file, In file (listing temp_video_dir (files w')) /\
                               endswith file ".mp4" = true /\
                               p = os_path_join temp_video_dir file /\
                               id = str_replace file ".mp4" "").
Proof.
  induction k as [|k IH]; intros attempt w; cbn [download_loop].
  - exists NotFetched, w, []. unfold ret. rewrite app_nil_r.
    split; [reflexivity|]. split; [lia|]. split; [lia|]. split; [auto|].
    split; [reflexivity|]. split; [reflexivity|]. split; [reflexivity|].
    split; [cbn; lia|]. discriminate.
  - unfold bind at 1. rewrite download_attempt_eq. cbv zeta.
    assert (Hrun : event_eqb (EvRun url) (EvRun url) = true) by apply String.eqb_refl.
    assert (Hstep : forall w1 t1,
               runs w1 = S (runs w) ->
               (forall e, In e (files w) -> In e (files w1)) ->
               vars w1 = vars w -> trace w1 = trace w ++ EvRun url :: t1 ->
               forallb is_fetch_event t1 = true ->
               count_event (EvRun url) t1 = 0%nat ->
               exists r w' t,
                 download_loop E url temp_video_dir max_retries k (attempt + 1) w1 = (Ret r, w') /\
                 (runs w <= runs w' <= runs w + S k)%nat /\
                 ((0 < S k)%nat -> (runs w < runs w')%nat) /\
                 (forall e, In e (files w) -> In e (files w')) /\
                 vars w' = vars w /\
                 trace w' = trace w ++ t /\
                 forallb is_fetch_event t = true /\
                 count_event (EvRun url) t = (runs w' - runs w)%nat /\
                 (forall p id, r = Fetched p id ->
                    exists file, In file (listing temp_video_dir (files w')) /\
                                 endswith file ".mp4" = true /\
                                 p = os_path_join temp_video_dir file /\
                                 id = str_replace file ".mp4" "")).
    { intros w1 t1 Hr Hf Hv Ht Ha Hc.
      destruct (IH (attempt + 1) w1) as (r & w' & t & El & Hb & _ & Hf' & Hv' & Ht' & Ha' & Hc' & Hp).
      exists r, w', (EvRun url :: t1 ++ t). split; [exact El|].
      split; [lia|]. split; [lia|]. split; [auto|]. split; [congruence|].
      split; [rewrite Ht', Ht, <- app_assoc; reflexivity|].
      split; [cbn; now apply all_fetch_events_app|].
      split; [|exact Hp].
      change (EvRun url :: t1 ++ t) with ([EvRun url] ++ t1 ++ t).
      rewrite !count_event_app, Hc, Hc'. unfold count_event. cbn [filter].
      rewrite Hrun. cbn [List.length]. lia. }
    destruct (ytdlp E (runs w) url) as [rc created|e].
    + destruct (create_files_spec temp_video_dir created (files w)) as (C1 & _ & _).
      destruct (rc =? 0).
      * destruct (listdir_error E (S (runs w))) as [e|].
        -- apply (Hstep _ [EvLog (handler_level e)]); auto.
           cbn. now rewrite <- app_assoc.
        -- cbv beta iota. unfold ret.
           do 2 eexists. exists [EvRun url]. split; [reflexivity|]. cbn [runs files vars trace].
           split; [lia|]. split; [lia|]. split; [exact C1|]. split; [reflexivity|].
           split; [reflexivity|]. split; [reflexivity|].
           split.
           { unfold count_event. cbn [filter]. rewrite Hrun. cbn [List.length]. lia. }
           intros p id Hr.
           destruct (find_mp4 _ _) as [|r'] eqn:Ef; [discriminate|]. subst r'.
           apply find_mp4_shape in Ef. destruct Ef as (file & Hin & R).
           exists file. split; [now apply in_dir_order_In in Hin|exact R].
      * destruct (attempt <? max_retries - 1).
        -- apply (Hstep _ [EvLog WARNING; EvSleep 5]); auto.
           cbn. now rewrite <- !app_assoc.
        -- apply (Hstep _ [EvLog WARNING]); auto.
           cbn. now rewrite app_nil_r, <- !app_assoc.
    + apply (Hstep _ [EvLog (handler_level e)]); auto.
      cbn. now rewrite <- app_assoc.
Qed.

(** X6.  Whatever the downloader does, [download_single_video] returns
    after at most [max_retries] invocations (at least one when [max_retries
    >= 1]); it removes no file, leaves the worker's variables alone, and does
    nothing but invoke the downloader, sleep and log. *)
Theorem download_single_video_bounds (w : world) :
  exists r w' t,
    download_single_video E url temp_video_dir max_retries w = (Ret r, w') /\
    Z.of_nat (runs w' - runs w) <= Z.max 0 max_retries /\
    (1 <= max_retries -> (runs w < runs w')%nat) /\
    (forall e, In e (files w) -> In e (files w')) /\
    vars w' = vars w /\
    trace w' = trace w ++ t /\
    forallb is_fetch_event t = true /\
    count_event (EvRun url) t = (runs w' - runs w)%nat.
Proof.
  unfold download_single_video.
  destruct (download_loop_bounds (Z.to_nat max_retries) 0 w)
    as (r & w' & t & El & Hb & Hpos & Hf & Hv & Ht & Ha & Hc & _).
  exists r, w', t. split; [exact El|]. split; [lia|].
  split; [intros H; apply Hpos; lia|]. repeat split; assumption.
Qed.

(** X7.  A fetched result always names a file of the directory that ends in
    [.mp4]: the path is the directory joined with that file name, and the
    id is the file name with every [.mp4] in it removed. *)
Theorem download_single_video_fetched (w w' : world) (p id : string) :
  download_single_video E url temp_video_dir max_retries w = (Ret (Fetched p id), w') ->
  exists file,
    In file (listing temp_video_dir (files w')) /\
    endswith file ".mp4" = true /\
    p = os_path_join temp_video_dir file /\
    id = str_replace file ".mp4" "".
Proof.
  intros H. unfold download_single_video in H.
  destruct (download_loop_bounds (Z.to_nat max_retries) 0 w)
    as (r & w1 & t & El & _ & _ & _ & _ & _ & _ & _ & Hp).
  rewrite H in El. injection El as <- <-. now apply Hp.
Qed.

(** X8.  The directory is scanned, not the download: when the first
    invocation exits with code 0 and has left no [.mp4] file, while the
    directory holds a [.mp4] file from before, the call returns success
    with a video that was in the directory before the call. *)
Theorem download_single_video_stale_file (w : world) (created : list string)
        (old : string) :
  1 <= max_retries ->
  ytdlp E (runs w) url = Exited 0 created ->
  listdir_error E (S (runs w)) = None ->
  (forall f, In f created -> endswith f ".mp4" = false) ->
  In old (listing temp_video_dir (files w)) ->
  endswith old ".mp4" = true ->
  exists file w',
    download_single_video E url temp_video_dir max_retries w
    = (Ret (Fetched (os_path_join temp_video_dir file) (str_replace file ".mp4" "")), w') /\
    runs w' = S (runs w) /\
    In file (listing temp_video_dir (files w)) /\
    endswith file ".mp4" = true.
Proof.
  intros Hmax Hrun Hscan Hnew Hold Hmp4. unfold download_single_video.
  destruct (Z.to_nat max_retries) as [|k] eqn:Ek; [lia|].
  cbn [download_loop]. unfold bind at 1. rewrite download_attempt_eq. cbv zeta.
  rewrite Hrun, Hscan. cbn [Z.eqb].
  destruct (create_files_spec temp_video_dir created (files w)) as (C1 & _ & C3).
  set (names := in_dir_order (listdir_rank E)
                  (listing temp_video_dir (create_files temp_video_dir created (files w)))).
  assert (Hex : existsb (fun f => endswith f ".mp4") names = true).
  { unfold names. rewrite in_dir_order_existsb. apply existsb_exists.
    exists old. split; [|exact Hmp4]. apply listing_in, C1. now apply in_listing. }
  destruct (find_mp4_some temp_video_dir names Hex) as (file & Hin & Ef).
  pose proof Ef as Es. apply find_mp4_shape in Es.
  destruct Es as (file' & Hin' & Hend & Hp & Hid).
  rewrite Ef. cbv beta iota. unfold ret.
  assert (Hfile : exists g, In g names /\ endswith g ".mp4" = true /\
                            os_path_join temp_video_dir file = os_path_join temp_video_dir g /\
                            str_replace file ".mp4" "" = str_replace g ".mp4" "")
    by (exists file'; auto).
  destruct Hfile as (g & Hg & Hgend & -> & ->).
  exists g. eexists. split; [reflexivity|]. cbn [runs]. split; [reflexivity|].
  split; [|exact Hgend].
  unfold names in Hg. apply in_dir_order_In, in_listing in Hg.
  destruct (C3 _ Hg) as [Hfs | (n & Hn & En)].
  - now apply listing_in.
  - injection En as ->. rewrite (Hnew _ Hn) in Hgend. discriminate.
Qed.

(** X9.  In a directory without files, a first invocation that exits with
    code 0 and leaves the one file [<id>.mp4], [id] having no dot, makes the
    call return [(True, <dir>/<id>.mp4 joined by os.path.join, id)] after
    this one invocation. *)
Theorem download_single_video_fresh_directory (w : world) (id : string) :
  1 <= max_retries ->
  ytdlp E (runs w) url = Exited 0 [(id ++ ".mp4")%string] ->
  listdir_error E (S (runs w)) = None ->
  listing temp_video_dir (files w) = [] ->
  no_dot id = true ->
  exists w',
    download_single_video E url temp_video_dir max_retries w
    = (Ret (Fetched (os_path_join temp_video_dir (id ++ ".mp4")) id), w') /\
    runs w' = S (runs w) /\
    listing temp_video_dir (files w') = [(id ++ ".mp4")%string].
Proof.
  intros Hmax Hrun Hscan Hempty Hid. unfold download_single_video.
  destruct (Z.to_nat max_retries) as [|k] eqn:Ek; [lia|].
  cbn [download_loop]. unfold bind at 1. rewrite download_attempt_eq. cbv zeta.
  rewrite Hrun, Hscan. cbn [Z.eqb create_files].
  destruct (has_entry temp_video_dir (id ++ ".mp4") (files w)) eqn:Hh.
  { apply has_entry_in, listing_in in Hh. rewrite Hempty in Hh. destruct Hh. }
  rewrite listing_app, Hempty. cbn [app].
  assert (Hl : listing temp_video_dir [(temp_video_dir, (id ++ ".mp4")%string)]
               = [(id ++ ".mp4")%string]).
  { unfold listing. cbn. now rewrite String.eqb_refl. }
  rewrite Hl. cbn [in_dir_order fold_right place find_mp4].
  rewrite endswith_app, str_replace_extension by exact Hid.
  cbv beta iota. unfold ret. eexists. split; [reflexivity|]. cbn [runs files].
  split; [reflexivity|]. now rewrite listing_app, Hempty, Hl.
Qed.

End FetchMore.

Lemma download_single_video_fetched_witness :
  download_single_video (env_ok 2) "u" "tmp" 3 w_init
  = (Ret (Fetched "tmp/vid.mp4" "vid"),
     mkWorld [("tmp", "vid.mp4")] 1 [EvRun "u"] (mkLocals 0 0 None)) /\
  exists file,
    In file ["vid.mp4"] /\ endswith file ".mp4" = true /\
    "tmp/vid.mp4" = os_path_join "tmp" file /\ "vid" = str_replace file ".mp4" "".
Proof.
  split; [reflexivity|].
  apply (@download_single_video_fetched (env_ok 2) "u" "tmp" 3 w_init _ _ _ eq_refl).
Defined.

Lemma download_single_video_stale_file_witness :
  1 <= 3 /\
  ytdlp env_no_file 0 "u2" = Exited 0 ["vid.part"] /\
  listdir_error env_no_file 1 = None /\
  In "old.mp4" (listing "tmp" [("tmp", "old.mp4")]) /\
  endswith "old.mp4" ".mp4" = true /\
  exists file w',
    download_single_video env_no_file "u2" "tmp" 3
      (mkWorld [("tmp", "old.mp4")] 0 [] (mkLocals 0 0 None))
    = (Ret (Fetched (os_path_join "tmp" file) (str_replace file ".mp4" "")), w') /\
    runs w' = 1%nat /\
    In file (listing "tmp" [("tmp", "old.mp4")]) /\
    endswith file ".mp4" = true.
Proof.
  split; [lia|]. split; [reflexivity|]. split; [reflexivity|].
  split; [now left|]. split; [reflexivity|].
  apply (@download_single_video_stale_file env_no_file "u2" "tmp" 3
           (mkWorld [("tmp", "old.mp4")] 0 [] (mkLocals 0 0 None)) ["vid.part"] "old.mp4");
    [lia|reflexivity|reflexivity| |now left|reflexivity].
  intros f [<-|[]]. reflexivity.
Defined.

Lemma download_single_video_fresh_directory_witness :
  1 <= 3 /\
  ytdlp (env_ok 2) (runs w_init) "u" = Exited 0 [("vid" ++ ".mp4")%string] /\
  listdir_error (env_ok 2) 1 = None /\
  listing "tmp" (files w_init) = [] /\
  no_dot "vid" = true /\
  exists w',
    download_single_video (env_ok 2) "u" "tmp" 3 w_init
    = (Ret (Fetched "tmp/vid.mp4" "vid"), w') /\
    runs w' = 1%nat /\ listing "tmp" (files w') = ["vid.mp4"].
Proof.
  split; [lia|]. split; [reflexivity|]. split; [reflexivity|]. split; [reflexivity|].
  split; [reflexivity|].
  apply (@download_single_video_fresh_directory (env_ok 2) "u" "tmp" 3 w_init "vid");
    [lia|reflexivity|reflexivity|reflexivity|reflexivity].
Defined.

(** ** Segmenting *)

Section SegmentMore.
Variable E : env.
Variable fmt : Z -> Z -> string.
Variable clips : list (Z * Z).

Lemma firstn_S_nth_error (B : Type) (l : list B) (n : nat) (x : B) :
  nth_error l n = Some x -> firstn (S n) l = firstn n l ++ [x].
Proof.
  revert l. induction n as [|n IH]; intros [|y l] H; try discriminate.
  - cbn in H. injection H as ->. reflexivity.
  - cbn [firstn app]. f_equal. now apply IH.
Qed.

Lemma written_app t u : written (t ++ u) = written t ++ written u.
Proof. apply flat_map_app. Qed.

(** Loop invariant for the names: the files produced so far are the names
    of the clips completed so far. *)
Lemma segment_loop_names items :
  forall frame_idx (n : nat) s e out w clip_idx' out' w',
    segment_loop E fmt clips items frame_idx (Z.of_nat n) s e out w
    = (Ret (clip_idx', out'), w') ->
    nth_error clips n = Some (s, e) ->
    out = map (clip_name fmt) (firstn n clips) ->
    exists (n' : nat) t,
      clip_idx' = Z.of_nat n' /\ (n' <= List.length clips)%nat /\
      out' = map (clip_name fmt) (firstn n' clips) /\
      trace w' = trace w ++ t /\
      out' = out ++ written t.
Proof.
  induction items as [|d items IH];
    intros frame_idx n s e out w ci' out' w' H Hn Hout; cbn [segment_loop] in H.
  - injection H as <- <- <-. exists n, [].
    rewrite !app_nil_r. repeat split; auto.
    apply Nat.lt_le_incl, nth_error_Some. now rewrite Hn.
  - destruct d as [|ex]; [|discriminate H].
    rewrite bind_emit in H.
    assert (Hext : forall w1 pre,
               trace w1 = trace w ++ pre -> written pre = [] ->
               (exists (n' : nat) t,
                   ci' = Z.of_nat n' /\ (n' <= List.length clips)%nat /\
                   out' = map (clip_name fmt) (firstn n' clips) /\
                   trace w' = trace w1 ++ t /\ out' = out ++ written t) ->
               exists (n' : nat) t,
                 ci' = Z.of_nat n' /\ (n' <= List.length clips)%nat /\
                 out' = map (clip_name fmt) (firstn n' clips) /\
                 trace w' = trace w ++ t /\ out' = out ++ written t).
    { intros w1 pre Hw1 Hpre (n' & t & H1 & H2 & H3 & H4 & H5).
      exists n', (pre ++ t). rewrite H4, Hw1, <- app_assoc, written_app, Hpre.
      repeat split; auto. }
    destruct (frame_idx =? s).
    { returned_calls H. apply IH in H; [|assumption..]. revert H.
      apply (Hext _ [EvDecode frame_idx; EvEncoderInit; EvEncode frame_idx]);
        [cbn; now rewrite <- !app_assoc|reflexivity]. }
    destruct ((s <? frame_idx) && (frame_idx <? e - 1))%bool.
    { returned_calls H. apply IH in H; [|assumption..]. revert H.
      apply (Hext _ [EvDecode frame_idx; EvEncode frame_idx]);
        [cbn; now rewrite <- !app_assoc|reflexivity]. }
    destruct (frame_idx =? e - 1).
    2:{ apply IH in H; [|assumption..]. revert H.
        apply (Hext _ [EvDecode frame_idx]); reflexivity. }
    returned_calls H. cbv zeta in H.
    set (w1 := mkWorld _ _ _ _) in H.
    assert (Hw1 : trace w1 = trace w ++ [EvDecode frame_idx; EvEncode frame_idx;
                                         EvEncoderFinish; EvWrite (fmt s e)]).
    { cbn [trace w1]. now rewrite <- !app_assoc. }
    assert (Hlt : (n < List.length clips)%nat).
    { apply nth_error_Some. now rewrite Hn. }
    assert (Hout1 : out ++ [fmt s e] = map (clip_name fmt) (firstn (S n) clips)).
    { rewrite (firstn_S_nth_error _ _ Hn), map_app, <- Hout. reflexivity. }
    replace (Z.of_nat n + 1) with (Z.of_nat (S n)) in H by lia.
    destruct (Z.of_nat (S n) =? len clips).
    { injection H as <- <- <-. exists (S n). eexists. split; [reflexivity|].
      split; [lia|]. split; [exact Hout1|]. split; [exact Hw1|]. reflexivity. }
    rewrite Nat2Z.id in H.
    destruct (nth_error clips (S n)) as [[s' e']|] eqn:Hn1; [|discriminate H].
    destruct (IH _ _ _ _ _ _ _ _ _ H Hn1 Hout1) as (n' & t & H1 & H2 & H3 & H4 & H5).
    exists n'. eexists. split; [exact H1|]. split; [exact H2|]. split; [exact H3|].
    split; [rewrite H4, Hw1, <- app_assoc; reflexivity|].
    rewrite H5, written_app, <- app_assoc. reflexivity.
Qed.

(** X10.  Whenever [process_one_video] returns, it returns the names the
    format gives to the clips, one per clip and in the order of the clips,
    and these are exactly the files it has written, in this order. *)
Theorem process_one_video_names (video_filename : string)
        (w w' : world) (out : list string) :
  process_one_video E video_filename fmt clips w = (Ret out, w') ->
  out = map (clip_name fmt) clips /\
  exists t, trace w' = trace w ++ t /\ written t = out.
Proof.
  intros H. unfold process_one_video in H.
  destruct clips as [|[s0 e0] rest] eqn:Ec.
  { injection H as <- <-. split; [reflexivity|]. exists []. now rewrite app_nil_r. }
  rewrite <- Ec in *. returned_calls H. unfold bind at 1 in H.
  set (w0 := mkWorld _ _ _ _) in *.
  destruct (segment_loop E fmt clips (video E video_filename) 0 0 s0 e0 [] w0)
    as [[[clip_idx out1]|ex] w1] eqn:El; [|discriminate H].
  change 0 with (Z.of_nat 0) in El at 2.
  eapply segment_loop_names in El; [|now rewrite Ec|reflexivity].
  destruct El as (n' & t & H1 & H2 & H3 & H4 & H5).
  destruct ((clip_idx =? len clips) && (len clips =? len out1))%bool eqn:Ea;
    [|discriminate H].
  returned_calls H. injection H as <- <-.
  apply andb_prop in Ea. destruct Ea as [Ea _]. apply Z.eqb_eq in Ea.
  assert (n' = List.length clips) by (unfold len in Ea; lia). subst n'.
  rewrite firstn_all in H3. split; [exact H3|].
  exists ([EvDecoderInit video_filename] ++ t ++ [EvDecoderFinish]).
  cbn [trace]. rewrite H4. cbn [trace w0]. rewrite <- !app_assoc.
  split; [reflexivity|].
  rewrite !written_app. cbn [written flat_map app]. rewrite app_nil_r.
  now rewrite H5.
Qed.

(** While the current clip is a one-frame clip [(s, s + 1)], no segment is
    completed: the test [frame_idx == s] comes first and hides the test
    [frame_idx == e - 1]. *)
Lemma segment_loop_one_frame_stuck (j : nat) (sj : Z) items :
  nth_error clips j = Some (sj, sj + 1) ->
  forall frame_idx (n : nat) s e out w clip_idx' out' w',
    segment_loop E fmt clips items frame_idx (Z.of_nat n) s e out w
    = (Ret (clip_idx', out'), w') ->
    nth_error clips n = Some (s, e) ->
    (n <= j)%nat ->
    clip_idx' <= Z.of_nat j.
Proof.
  intros Hj. induction items as [|d items IH];
    intros frame_idx n s e out w ci' out' w' H Hn Hle; cbn [segment_loop] in H.
  - injection H as <- _ _. lia.
  - destruct d as [|ex]; [|discriminate H].
    rewrite bind_emit in H.
    destruct (Z.eqb_spec frame_idx s) as [Hs|Hs].
    { returned_calls H. eapply IH; eauto. }
    destruct ((s <? frame_idx) && (frame_idx <? e - 1))%bool.
    { returned_calls H. eapply IH; eauto. }
    destruct (Z.eqb_spec frame_idx (e - 1)) as [He|He].
    2:{ eapply IH; eauto. }
    assert (n <> j).
    { intros ->. rewrite Hj in Hn. injection Hn as <- <-. lia. }
    returned_calls H. cbv zeta in H.
    replace (Z.of_nat n + 1) with (Z.of_nat (S n)) in H by lia.
    destruct (Z.of_nat (S n) =? len clips).
    { injection H as <- _ _. lia. }
    rewrite Nat2Z.id in H.
    destruct (nth_error clips (S n)) as [[s' e']|] eqn:Hn1; [|discriminate H].
    eapply IH; [exact H|exact Hn1|lia].
Qed.

(** X11.  A clip of one frame, [(s, s + 1)], anywhere in the clip list
    makes [process_one_video] fail: it never returns, whatever the video
    holds, and [decoder.finish()] is not reached. *)
Theorem process_one_video_one_frame_clip (video_filename : string)
        (j : nat) (sj : Z) (w : world) :
  nth_error clips j = Some (sj, sj + 1) ->
  exists ex w' t,
    process_one_video E video_filename fmt clips w = (Raise ex, w') /\
    trace w' = trace w ++ t /\
    count_event EvDecoderFinish t = 0%nat.
Proof.
  intros Hj. unfold process_one_video.
  destruct clips as [|[s0 e0] rest] eqn:Ec; [destruct j; discriminate Hj|].
  rewrite <- Ec in *. rewrite bind_call_eq.
  destruct (call_error E (List.length (trace w)) (EvDecoderInit video_filename)) as [ex0|].
  { exists ex0, w, []. rewrite app_nil_r. repeat split. }
  unfold bind at 1.
  set (w0 := mkWorld _ _ _ _) in *.
  destruct (segment_loop E fmt clips (video E video_filename) 0 0 s0 e0 [] w0)
    as [[[clip_idx out1]|ex] w1] eqn:El.
  - pose proof El as El'. apply segment_loop_no_finish in El'.
    destruct El' as (t & Ht & Hn).
    change 0 with (Z.of_nat 0) in El at 2.
    assert (Hle : clip_idx <= Z.of_nat j).
    { eapply segment_loop_one_frame_stuck; [exact Hj|exact El| |lia]. now rewrite Ec. }
    assert (Hlt : (j < List.length clips)%nat).
    { apply nth_error_Some. now rewrite Hj. }
    destruct (Z.eqb_spec clip_idx (len clips)) as [Heq|_]; [unfold len in Heq; lia|].
    cbn [andb]. exists AssertionError, w1, ([EvDecoderInit video_filename] ++ t).
    split; [reflexivity|]. rewrite Ht. cbn [trace w0]. rewrite <- app_assoc.
    split; [reflexivity|]. rewrite count_event_app. exact Hn.
  - apply segment_loop_no_finish in El. destruct El as (t & Ht & Hn).
    exists ex, w1, ([EvDecoderInit video_filename] ++ t).
    split; [reflexivity|]. rewrite Ht. cbn [trace w0]. rewrite <- app_assoc.
    split; [reflexivity|]. rewrite count_event_app. exact Hn.
Qed.

End SegmentMore.

Lemma process_one_video_names_witness :
  exists w',
    process_one_video (env_ok 8) "v.mp4" plain_format [(0, 3); (5, 8)] w_init
    = (Ret ["0000000_0000003.hevc"; "0000005_0000008.hevc"], w') /\
    ["0000000_0000003.hevc"; "0000005_0000008.hevc"]
    = map (clip_name plain_format) [(0, 3); (5, 8)].
Proof.
  pose (p := process_one_video (env_ok 8) "v.mp4" plain_format [(0, 3); (5, 8)] w_init).
  assert (Hp : p = (Ret ["0000000_0000003.hevc"; "0000005_0000008.hevc"], snd p))
    by (vm_compute; reflexivity).
  exists (snd p). split; [exact Hp|].
  exact (proj1 (@process_one_video_names (env_ok 8) plain_format [(0, 3); (5, 8)]
                  "v.mp4" w_init (snd p) _ Hp)).
Defined.

Lemma process_one_video_one_frame_clip_witness :
  nth_error [(0, 2); (4, 4 + 1)] 1 = Some (4, 4 + 1) /\
  exists ex w' t,
    process_one_video (env_ok 8) "v.mp4" plain_format [(0, 2); (4, 4 + 1)] w_init
    = (Raise ex, w') /\
    trace w' = trace w_init ++ t /\
    count_event EvDecoderFinish t = 0%nat.
Proof.
  assert (Hj : nth_error [(0, 2); (4, 4 + 1)] 1 = Some (4, 4 + 1)) by reflexivity.
  split; [exact Hj|].
  exact (@process_one_video_one_frame_clip (env_ok 8) plain_format [(0, 2); (4, 4 + 1)]
           "v.mp4" 1%nat 4 w_init Hj).
Defined.

Section FrameRanges.

Lemma frame_range_nil (s e : Z) : e <= s -> frame_range s e = [].
Proof. intros H. unfold frame_range. now replace (Z.to_nat (e - s)) with 0%nat by lia. Qed.

Lemma frame_range_cons (s e : Z) :
  s < e -> frame_range s e = s :: frame_range (s + 1) e.
Proof.
  intros H. unfold frame_range.
  replace (Z.to_nat (e - s)) with (S (Z.to_nat (e - (s + 1)))) by lia.
  cbn [seq map]. f_equal; [lia|].
  rewrite <- seq_shift, map_map. apply map_ext. intros i. lia.
Qed.

Lemma frame_range_app (a b c : Z) :
  a <= b <= c -> frame_range a b ++ frame_range b c = frame_range a c.
Proof.
  intros H. remember (Z.to_nat (b - a)) as d eqn:Hd.
  revert a H Hd. induction d as [|d IH]; intros a H Hd.
  - assert (a = b) by lia. subst a. now rewrite (frame_range_nil (s:=b) (e:=b)) by lia.
  - rewrite (frame_range_cons (s:=a) (e:=b)), (frame_range_cons (s:=a) (e:=c)) by lia.
    cbn [app]. f_equal. apply IH; lia.
Qed.

Lemma frame_range_last (s e : Z) :
  s < e -> frame_range s e = frame_range s (e - 1) ++ [e - 1].
Proof.
  intros H. rewrite <- (frame_range_app (a:=s) (b:=e - 1) (c:=e)) by lia.
  f_equal. rewrite frame_range_cons by lia. now rewrite frame_range_nil by lia.
Qed.

End FrameRanges.

Section SegmentOrder.
Variable E : env.
Variable fmt : Z -> Z -> string.
Variable clips : list (Z * Z).
Hypothesis Hok : engine_ok E.

Lemma seg_trace_nil : seg_trace [] [] [] [].
Proof. repeat split. Qed.

Lemma seg_trace_app t u d1 e1 w1 d2 e2 w2 :
  seg_trace t d1 e1 w1 -> seg_trace u d2 e2 w2 ->
  seg_trace (t ++ u) (d1 ++ d2) (e1 ++ e2) (w1 ++ w2).
Proof.
  intros (A1 & A2 & A3 & A4) (B1 & B2 & B3 & B4).
  unfold seg_trace, decoded_frames, encoded_frames, written in *.
  rewrite !flat_map_app, count_event_app, A1, A2, A3, A4, B1, B2, B3, B4.
  repeat split.
Qed.

(** Frames before the clip are decoded and dropped. *)
Lemma seg_skip (clip_idx s e : Z) (out : list string) (m' : nat) :
  s + 1 < e ->
  forall (d : nat) frame_idx w,
    frame_idx + Z.of_nat d = s ->
    exists w1 t,
      segment_loop E fmt clips (repeat Frame (d + m')) frame_idx clip_idx s e out w
      = segment_loop E fmt clips (repeat Frame m') s clip_idx s e out w1 /\
      trace w1 = trace w ++ t /\
      seg_trace t (frame_range frame_idx s) [] [].
Proof.
  intros Hse. induction d as [|d IH]; intros frame_idx w Hd.
  - assert (frame_idx = s) by lia. subst frame_idx. exists w, [].
    rewrite app_nil_r, frame_range_nil by lia.
    split; [reflexivity|]. split; [reflexivity|apply seg_trace_nil].
  - cbn [Nat.add repeat segment_loop]. ok_calls Hok.
    destruct (Z.eqb_spec frame_idx s); [lia|].
    destruct (Z.ltb_spec s frame_idx); [lia|]. cbn [andb].
    destruct (Z.eqb_spec frame_idx (e - 1)); [lia|].
    set (w0 := mkWorld _ _ _ _).
    destruct (IH (frame_idx + 1) w0 ltac:(lia)) as (w1 & t & El & Ht & Hs).
    exists w1, ([EvDecode frame_idx] ++ t). split; [exact El|].
    split; [rewrite Ht; cbn [trace w0]; now rewrite <- app_assoc|].
    rewrite (frame_range_cons (s:=frame_idx) (e:=s)) by lia.
    apply (@seg_trace_app [EvDecode frame_idx] t [frame_idx] [] [] _ [] []);
      [repeat split|exact Hs].
Qed.

(** Frames strictly inside the clip are decoded and encoded. *)
Lemma seg_middle (clip_idx s e : Z) (out : list string) (m' : nat) :
  forall (d : nat) frame_idx w,
    s < frame_idx ->
    frame_idx + Z.of_nat d = e - 1 ->
    exists w1 t,
      segment_loop E fmt clips (repeat Frame (d + m')) frame_idx clip_idx s e out w
      = segment_loop E fmt clips (repeat Frame m') (e - 1) clip_idx s e out w1 /\
      trace w1 = trace w ++ t /\
      seg_trace t (frame_range frame_idx (e - 1)) (frame_range frame_idx (e - 1)) [].
Proof.
  induction d as [|d IH]; intros frame_idx w Hs Hd.
  - assert (frame_idx = e - 1) by lia. subst frame_idx. exists w, [].
    rewrite app_nil_r, frame_range_nil by lia.
    split; [reflexivity|]. split; [reflexivity|apply seg_trace_nil].
  - cbn [Nat.add repeat segment_loop]. ok_calls Hok.
    destruct (Z.eqb_spec frame_idx s); [lia|].
    destruct (Z.ltb_spec s frame_idx); [|lia].
    destruct (Z.ltb_spec frame_idx (e - 1)); [|lia]. cbn [andb].
    ok_calls Hok.
    set (w0 := mkWorld _ _ _ _).
    destruct (IH (frame_idx + 1) w0 ltac:(lia) ltac:(lia)) as (w1 & t & El & Ht & Hst).
    exists w1, ([EvDecode frame_idx; EvEncode frame_idx] ++ t). split; [exact El|].
    split; [rewrite Ht; cbn [trace w0]; now rewrite <- !app_assoc|].
    rewrite (frame_range_cons (s:=frame_idx) (e:=e - 1)) by lia.
    apply (@seg_trace_app [EvDecode frame_idx; EvEncode frame_idx] t
             [frame_idx] [frame_idx] [] _ _ []); [repeat split|exact Hst].
Qed.

(** One whole clip of at least two frames, from any frame at or before its
    start, with enough frames left in the source. *)
Lemma seg_one_clip (clip_idx s e : Z) (out : list string) (m' : nat)
      (frame_idx : Z) (w : world) :
  frame_idx <= s -> s + 1 < e ->
  exists w1 t,
    segment_loop E fmt clips (repeat Frame (Z.to_nat (e - frame_idx) + m'))
                 frame_idx clip_idx s e out w
    = after_clip E fmt clips m' e clip_idx s e out w1 /\
    trace w1 = trace w ++ t /\
    seg_trace t (frame_range frame_idx e) (frame_range s e) [fmt s e].
Proof.
  intros Hfs Hse.
  replace (Z.to_nat (e - frame_idx) + m')%nat
    with (Z.to_nat (s - frame_idx) + S (Z.to_nat (e - s - 2) + S m'))%nat by lia.
  destruct (@seg_skip clip_idx s e out (S (Z.to_nat (e - s - 2) + S m')) Hse
              (Z.to_nat (s - frame_idx)) frame_idx w ltac:(lia))
    as (w1 & t1 & E1 & T1 & S1).
  rewrite E1. clear E1.
  (* the first frame of the clip *)
  cbn [repeat segment_loop]. ok_calls Hok.
  destruct (Z.eqb_spec s s); [|lia]. ok_calls Hok.
  set (w2 := mkWorld _ _ _ _).
  destruct (@seg_middle clip_idx s e out (S m') (Z.to_nat (e - s - 2)) (s + 1) w2
              ltac:(lia) ltac:(lia))
    as (w3 & t3 & E3 & T3 & S3).
  rewrite E3. clear E3.
  (* the last frame of the clip *)
  cbn [repeat segment_loop]. ok_calls Hok.
  destruct (Z.eqb_spec (e - 1) s); [lia|].
  destruct (Z.ltb_spec (e - 1) (e - 1)); [lia|]. rewrite andb_false_r.
  destruct (Z.eqb_spec (e - 1) (e - 1)); [|lia].
  ok_calls Hok. cbv zeta.
  set (w4 := mkWorld _ _ _ _).
  replace (e - 1 + 1) with e by lia.
  exists w4, (t1 ++ [EvDecode s; EvEncoderInit; EvEncode s] ++ t3
                 ++ [EvDecode (e - 1); EvEncode (e - 1); EvEncoderFinish; EvWrite (fmt s e)]).
  split; [reflexivity|]. split.
  { cbn [trace w4]. rewrite T3. cbn [trace w2]. rewrite T1.
    now rewrite <- !app_assoc. }
  replace (frame_range frame_idx e)
    with (frame_range frame_idx s ++ [s] ++ frame_range (s + 1) (e - 1) ++ [e - 1]).
  2:{ rewrite <- (frame_range_app (a:=frame_idx) (b:=s) (c:=e)) by lia. f_equal.
      rewrite (frame_range_cons (s:=s) (e:=e)) by lia. cbn [app]. f_equal.
      symmetry. apply frame_range_last. lia. }
  replace (frame_range s e)
    with ([] ++ [s] ++ frame_range (s + 1) (e - 1) ++ [e - 1]).
  2:{ cbn [app]. rewrite (frame_range_cons (s:=s) (e:=e)) by lia. f_equal.
      symmetry. apply frame_range_last. lia. }
  change [fmt s e] with ([] ++ [] ++ [] ++ [fmt s e]).
  apply seg_trace_app; [exact S1|].
  apply seg_trace_app; [repeat split|].
  apply seg_trace_app; [exact S3|repeat split].
Qed.

Lemma last_end_ge (l : list (Z * Z)) :
  forall from, clips_in_order from l -> from <= last_end from l.
Proof.
  induction l as [|[s e] l IH]; intros from H; cbn [last_end]; [lia|].
  destruct H as (H1 & H2 & H3). specialize (IH e H3). lia.
Qed.

(** All the clips from the current one on, in a source long enough. *)
Lemma seg_all_clips (rest : list (Z * Z)) :
  forall pre s e frame_idx (m' : nat) out w,
    clips = pre ++ (s, e) :: rest ->
    clips_in_order frame_idx ((s, e) :: rest) ->
    exists w' t,
      segment_loop E fmt clips
        (repeat Frame (Z.to_nat (last_end frame_idx ((s, e) :: rest) - frame_idx) + m'))
        frame_idx (Z.of_nat (List.length pre)) s e out w
      = (Ret (len clips, out ++ map (clip_name fmt) ((s, e) :: rest)), w') /\
      trace w' = trace w ++ t /\
      seg_trace t (frame_range frame_idx (last_end frame_idx ((s, e) :: rest)))
                (flat_map (fun c => frame_range (fst c) (snd c)) ((s, e) :: rest))
                (map (clip_name fmt) ((s, e) :: rest)).
Proof.
  induction rest as [|[s' e'] rest IH]; intros pre s e frame_idx m' out w Hc Ho.
  - cbn [last_end clips_in_order] in *. destruct Ho as (H1 & H2 & _).
    destruct (@seg_one_clip (Z.of_nat (List.length pre)) s e out m' frame_idx w H1 H2)
      as (w1 & t & E1 & T1 & S1).
    rewrite E1. unfold after_clip.
    assert (Hlen : Z.of_nat (List.length pre) + 1 = len clips).
    { unfold len. rewrite Hc, length_app. cbn [List.length]. lia. }
    rewrite Hlen, Z.eqb_refl. unfold ret.
    exists w1, t. split; [reflexivity|]. split; [exact T1|].
    cbn [flat_map map fst snd]. rewrite app_nil_r. exact S1.
  - cbn [last_end clips_in_order] in Ho |- *. destruct Ho as (H1 & H2 & H3).
    pose proof H3 as H3'. cbn [clips_in_order] in H3'. destruct H3' as (G1 & G2 & G3).
    pose proof (last_end_ge _ _ G3) as Hge.
    replace (Z.to_nat (last_end e' rest - frame_idx) + m')%nat
      with (Z.to_nat (e - frame_idx) + (Z.to_nat (last_end e' rest - e) + m'))%nat by lia.
    destruct (@seg_one_clip (Z.of_nat (List.length pre)) s e out
                (Z.to_nat (last_end e' rest - e) + m') frame_idx w H1 H2)
      as (w1 & t1 & E1 & T1 & S1).
    rewrite E1. unfold after_clip.
    assert (Hlen : len clips = Z.of_nat (List.length pre) + 2 + Z.of_nat (List.length rest)).
    { unfold len. rewrite Hc, length_app. cbn [List.length]. lia. }
    destruct (Z.eqb_spec (Z.of_nat (List.length pre) + 1) (len clips)); [lia|].
    replace (Z.to_nat (Z.of_nat (List.length pre) + 1)) with (S (List.length pre)) by lia.
    assert (Hnth : nth_error clips (S (List.length pre)) = Some (s', e')).
    { rewrite Hc. rewrite nth_error_app2 by lia.
      replace (S (List.length pre) - List.length pre)%nat with 1%nat by lia. reflexivity. }
    rewrite Hnth.
    replace (Z.of_nat (List.length pre) + 1)
      with (Z.of_nat (List.length (pre ++ [(s, e)])))
      by (rewrite length_app; cbn [List.length]; lia).
    destruct (IH (pre ++ [(s, e)]) s' e' e m' (out ++ [fmt s e]) w1) as (w' & t & El & Ht & Hs).
    { rewrite Hc, <- app_assoc. reflexivity. }
    { exact H3. }
    cbn [last_end] in El, Hs. rewrite El.
    exists w', (t1 ++ t). split.
    { rewrite <- app_assoc. reflexivity. }
    split; [rewrite Ht, T1; now rewrite <- app_assoc|].
    rewrite <- (frame_range_app (a:=frame_idx) (b:=e) (c:=last_end e' rest)) by lia.
    change (flat_map (fun c => frame_range (fst c) (snd c)) ((s, e) :: (s', e') :: rest))
      with (frame_range s e ++ flat_map (fun c => frame_range (fst c) (snd c)) ((s', e') :: rest)).
    change (map (clip_name fmt) ((s, e) :: (s', e') :: rest))
      with ([fmt s e] ++ map (clip_name fmt) ((s', e') :: rest)).
    apply seg_trace_app; [exact S1|exact Hs].
Qed.

End SegmentOrder.

(** X12.  For clips in order (each with at least two frames, none starting
    before the previous one ends, the first at frame 0 or later), a video
    that decodes without error to at least as many frames as the last clip
    needs, and an engine and a file system that do not raise,
    [process_one_video] returns one file per clip, named by the
    format; it decodes the frames up to the end of the last clip and no
    further, gives the encoder exactly the frames of the clips, writes
    exactly the returned files, and closes the decoder once. *)
Theorem process_one_video_ordered_clips (E : env) (video_filename : string)
        (fmt : Z -> Z -> string) (clips : list (Z * Z)) (n : nat) (w : world) :
  engine_ok E ->
  clips <> [] ->
  clips_in_order 0 clips ->
  video E video_filename = repeat Frame n ->
  last_end 0 clips <= Z.of_nat n ->
  exists w' t,
    process_one_video E video_filename fmt clips w
    = (Ret (map (clip_name fmt) clips), w') /\
    trace w' = trace w ++ t /\
    decoded_frames t = frame_range 0 (last_end 0 clips) /\
    encoded_frames t = flat_map (fun c => frame_range (fst c) (snd c)) clips /\
    written t = map (clip_name fmt) clips /\
    count_event EvDecoderFinish t = 1%nat.
Proof.
  intros Hok Hne Ho Hv Hn. unfold process_one_video.
  destruct clips as [|[s0 e0] rest] eqn:Ec; [contradiction|].
  rewrite <- Ec in *. ok_calls Hok. unfold bind at 1. rewrite Hv.
  set (w0 := mkWorld _ _ _ _).
  replace n with (Z.to_nat (last_end 0 clips - 0) + (n - Z.to_nat (last_end 0 clips)))%nat
    by lia.
  pose proof Ho as Ho'. rewrite Ec in Ho'.
  destruct (@seg_all_clips E fmt clips Hok rest [] s0 e0 0
              (n - Z.to_nat (last_end 0 clips)) [] w0 Ec Ho')
    as (w1 & t & El & Ht & (S1 & S2 & S3 & S4)).
  rewrite <- Ec in El, S1, S2, S3. cbn [List.length app] in El.
  change (Z.of_nat 0) with 0 in El.
  rewrite El.
  assert (Hl : len (map (clip_name fmt) clips) = len clips).
  { unfold len. now rewrite length_map. }
  rewrite Hl, !Z.eqb_refl. cbn [andb]. ok_calls Hok. unfold ret.
  eexists. exists ([EvDecoderInit video_filename] ++ t ++ [EvDecoderFinish]).
  split; [reflexivity|]. cbn [trace]. rewrite Ht. cbn [trace w0].
  split; [now rewrite <- !app_assoc|].
  unfold decoded_frames, encoded_frames, written in *.
  rewrite !flat_map_app, !count_event_app, S1, S2, S3, S4. cbn [flat_map app].
  rewrite !app_nil_r. repeat split.
Qed.

Lemma process_one_video_ordered_clips_witness :
  engine_ok (env_ok 8) /\
  [(0, 3); (5, 8)] <> [] /\
  clips_in_order 0 [(0, 3); (5, 8)] /\
  video (env_ok 8) "v.mp4" = repeat Frame 8 /\
  last_end 0 [(0, 3); (5, 8)] <= Z.of_nat 8 /\
  exists w' t,
    process_one_video (env_ok 8) "v.mp4" plain_format [(0, 3); (5, 8)] w_init
    = (Ret (map (clip_name plain_format) [(0, 3); (5, 8)]), w') /\
    trace w' = trace w_init ++ t /\
    decoded_frames t = frame_range 0 (last_end 0 [(0, 3); (5, 8)]) /\
    encoded_frames t
    = flat_map (fun c => frame_range (fst c) (snd c)) [(0, 3); (5, 8)] /\
    written t = map (clip_name plain_format) [(0, 3); (5, 8)] /\
    count_event EvDecoderFinish t = 1%nat.
Proof.
  assert (H0 : engine_ok (env_ok 8)) by (split; reflexivity).
  assert (H1 : [(0, 3); (5, 8)] <> @nil (Z * Z)) by discriminate.
  assert (H2 : clips_in_order 0 [(0, 3); (5, 8)]) by (cbn; lia).
  assert (H3 : video (env_ok 8) "v.mp4" = repeat Frame 8) by reflexivity.
  assert (H4 : last_end 0 [(0, 3); (5, 8)] <= Z.of_nat 8) by (cbn; lia).
  split; [exact H0|].
  split; [exact H1|]. split; [exact H2|]. split; [exact H3|]. split; [exact H4|].
  exact (@process_one_video_ordered_clips (env_ok 8) "v.mp4" plain_format
           [(0, 3); (5, 8)] 8 w_init H0 H1 H2 H3 H4).
Defined.

Section SegmentShort.
Variable E : env.
Variable fmt : Z -> Z -> string.
Variable clips : list (Z * Z).

Lemma last_end_nth (l : list (Z * Z)) :
  forall from n s e,
    nth_error l n = Some (s, e) -> S n = List.length l -> last_end from l = e.
Proof.
  induction l as [|[s0 e0] l IH]; intros from n s e Hn Hl; [destruct n; discriminate|].
  destruct n as [|n].
  - cbn in Hn. injection Hn as -> ->. destruct l; [reflexivity|cbn in Hl; lia].
  - cbn [last_end]. apply (IH e0 n s e); [exact Hn|cbn in Hl; lia].
Qed.

(** The last clip is completed at the frame before its end: the loop can
    complete every clip only when the source reaches that frame. *)
Lemma segment_loop_needs_frames items :
  forall frame_idx (n : nat) s e out w clip_idx' out' w',
    segment_loop E fmt clips items frame_idx (Z.of_nat n) s e out w
    = (Ret (clip_idx', out'), w') ->
    nth_error clips n = Some (s, e) ->
    clip_idx' = len clips ->
    last_end 0 clips <= frame_idx + len items.
Proof.
  induction items as [|d items IH];
    intros frame_idx n s e out w ci' out' w' H Hn Hci; cbn [segment_loop] in H.
  - injection H as <- _ _.
    assert ((n < List.length clips)%nat) by (apply nth_error_Some; now rewrite Hn).
    unfold len in Hci. lia.
  - destruct d as [|ex]; [|discriminate H].
    rewrite bind_emit in H.
    assert (Hlen : len (Frame :: items) = len items + 1)
      by (unfold len; cbn [List.length]; lia).
    rewrite Hlen.
    destruct (frame_idx =? s).
    { returned_calls H. specialize (IH _ _ _ _ _ _ _ _ _ H Hn Hci). lia. }
    destruct ((s <? frame_idx) && (frame_idx <? e - 1))%bool.
    { returned_calls H. specialize (IH _ _ _ _ _ _ _ _ _ H Hn Hci). lia. }
    destruct (Z.eqb_spec frame_idx (e - 1)) as [He|He].
    2:{ specialize (IH _ _ _ _ _ _ _ _ _ H Hn Hci). lia. }
    returned_calls H. cbv zeta in H.
    replace (Z.of_nat n + 1) with (Z.of_nat (S n)) in H by lia.
    destruct (Z.eqb_spec (Z.of_nat (S n)) (len clips)) as [Hlast|Hmore].
    { rewrite (last_end_nth clips 0 Hn) by (unfold len in Hlast; lia).
      pose proof (len_nonneg items). lia. }
    rewrite Nat2Z.id in H.
    destruct (nth_error clips (S n)) as [[s' e']|] eqn:Hn1; [|discriminate H].
    specialize (IH _ _ _ _ _ _ _ _ _ H Hn1 Hci). lia.
Qed.

(** Over frames that all decode, with an engine and a file system that do
    not raise, the loop itself does not raise. *)
Lemma segment_loop_frames_return (m : nat) :
  engine_ok E ->
  forall frame_idx (n : nat) s e out w,
    nth_error clips n = Some (s, e) ->
    exists r w',
      segment_loop E fmt clips (repeat Frame m) frame_idx (Z.of_nat n) s e out w = (Ret r, w').
Proof.
  intros Hok.
  induction m as [|m IH]; intros frame_idx n s e out w Hn; cbn [repeat segment_loop].
  - unfold ret. eauto.
  - rewrite bind_emit.
    destruct (frame_idx =? s); [ok_calls Hok; now apply IH|].
    destruct ((s <? frame_idx) && (frame_idx <? e - 1))%bool;
      [ok_calls Hok; now apply IH|].
    destruct (frame_idx =? e - 1); [|now apply IH].
    ok_calls Hok. cbv zeta.
    replace (Z.of_nat n + 1) with (Z.of_nat (S n)) by lia.
    destruct (Z.eqb_spec (Z.of_nat (S n)) (len clips)) as [Hl|Hl]; [unfold ret; eauto|].
    rewrite Nat2Z.id.
    destruct (nth_error clips (S n)) as [[s' e']|] eqn:Hn1; [now apply IH|].
    exfalso. apply nth_error_None in Hn1.
    assert ((n < List.length clips)%nat) by (apply nth_error_Some; now rewrite Hn).
    unfold len in Hl. lia.
Qed.

End SegmentShort.

(** X24.  With an engine and a file system that do not raise, a video that
    decodes, without error, to fewer frames than the end of the last clip
    makes [process_one_video] fail with [AssertionError], whatever the clips
    are; [decoder.finish()] is not reached, and the files of the clips
    completed before the video ran out, some first clips of the list, stay
    written. *)
Theorem process_one_video_short_video (E : env) (video_filename : string)
        (fmt : Z -> Z -> string) (clips : list (Z * Z)) (n : nat) (w : world) :
  engine_ok E ->
  clips <> [] ->
  video E video_filename = repeat Frame n ->
  Z.of_nat n < last_end 0 clips ->
  exists w' t (k : nat),
    process_one_video E video_filename fmt clips w = (Raise AssertionError, w') /\
    trace w' = trace w ++ t /\
    count_event EvDecoderFinish t = 0%nat /\
    (k < List.length clips)%nat /\
    written t = map (clip_name fmt) (firstn k clips).
Proof.
  intros Hok Hne Hv Hn. unfold process_one_video.
  destruct clips as [|[s0 e0] rest] eqn:Ec; [contradiction|].
  rewrite <- Ec in *. ok_calls Hok. unfold bind at 1. rewrite Hv.
  set (w0 := mkWorld _ _ _ _).
  assert (Hnth : nth_error clips 0 = Some (s0, e0)) by now rewrite Ec.
  destruct (segment_loop E fmt clips (repeat Frame n) 0 0 s0 e0 [] w0)
    as [[[clip_idx out1]|ex] w1] eqn:El.
  - change 0 with (Z.of_nat 0) in El at 2.
    pose proof El as El1. apply segment_loop_no_finish in El1.
    destruct El1 as (t1 & Ht1 & Hf1).
    pose proof El as El2.
    eapply segment_loop_names in El2; [|exact Hnth|reflexivity].
    destruct El2 as (k & t & Hk & Hkl & Hout & Ht & Hw).
    assert (t1 = t) by (rewrite Ht in Ht1; now apply app_inv_head in Ht1). subst t1.
    destruct (Z.eqb_spec clip_idx (len clips)) as [Heq|Hneq].
    { exfalso. pose proof (@segment_loop_needs_frames E fmt clips _ _ _ _ _ _ _ _ _ _ El Hnth Heq) as Hb.
      unfold len in Hb. rewrite repeat_length in Hb. lia. }
    cbn [andb]. exists w1, ([EvDecoderInit video_filename] ++ t), k.
    split; [reflexivity|]. rewrite Ht. cbn [trace w0]. rewrite <- app_assoc.
    split; [reflexivity|]. split; [rewrite count_event_app; exact Hf1|].
    split; [unfold len in Hneq; lia|].
    rewrite written_app. cbn [written flat_map app]. cbn [app] in Hw.
    now rewrite <- Hw.
  - exfalso.
    destruct (@segment_loop_frames_return E fmt clips n Hok 0 0%nat s0 e0 [] w0 Hnth)
      as (r & w2 & Er).
    change (Z.of_nat 0) with 0 in Er. rewrite Er in El. discriminate El.
Qed.

Lemma process_one_video_short_video_witness :
  engine_ok (env_ok 5) /\
  [(0, 2); (4, 7)] <> [] /\
  video (env_ok 5) "v.mp4" = repeat Frame 5 /\
  Z.of_nat 5 < last_end 0 [(0, 2); (4, 7)] /\
  exists w' t (k : nat),
    process_one_video (env_ok 5) "v.mp4" plain_format [(0, 2); (4, 7)] w_init
    = (Raise AssertionError, w') /\
    trace w' = trace w_init ++ t /\
    count_event EvDecoderFinish t = 0%nat /\
    (k < List.length [(0, 2); (4, 7)])%nat /\
    written t = map (clip_name plain_format) (firstn k [(0, 2); (4, 7)]).
Proof.
  assert (H0 : engine_ok (env_ok 5)) by (split; reflexivity).
  assert (H1 : [(0, 2); (4, 7)] <> @nil (Z * Z)) by discriminate.
  assert (H2 : video (env_ok 5) "v.mp4" = repeat Frame 5) by reflexivity.
  assert (H3 : Z.of_nat 5 < last_end 0 [(0, 2); (4, 7)]) by (cbn; lia).
  split; [exact H0|]. split; [exact H1|]. split; [exact H2|]. split; [exact H3|].
  exact (@process_one_video_short_video (env_ok 5) "v.mp4" plain_format
           [(0, 2); (4, 7)] 5 w_init H0 H1 H2 H3).
Defined.

(** ** The [ffmpeg] fallback *)

Section FfmpegMore.
Variable E : env.
Variables video_path output_dir video_id : string.

Lemma bind_div_float (B : Type) (n : Z) (k : unit -> M B) (w : world) :
  float_overflows n = false -> bind (div_float n) k w = k tt w.
Proof. intros H. unfold div_float. now rewrite H. Qed.

(** X13.  Let the frame numbers of the clips be within the range of a
    double (so that the times given to [ffmpeg] can be computed).  When
    [ffmpeg] fails for some clips with [CalledProcessError] (a nonzero
    exit) and with nothing else, [process_with_ffmpeg] does not raise: it
    goes on with the remaining clips and returns, in clip order, the output
    files of the clips that succeeded, which are exactly the files it has
    written. *)
Theorem process_with_ffmpeg_skips_failures (clips : list (Z * Z)) :
  (forall c, In c clips -> in_float_range c = true) ->
  (forall c ex, In c clips ->
                ffmpeg_error E (ffmpeg_output output_dir video_id c) = Some ex ->
                ex = CalledProcessError) ->
  forall w,
  exists w' t,
    process_with_ffmpeg E video_path clips output_dir video_id w
    = (Ret (ffmpeg_ok_outputs E output_dir video_id clips), w') /\
    trace w' = trace w ++ t /\
    written t = ffmpeg_ok_outputs E output_dir video_id clips.
Proof.
  induction clips as [|[s e] rest IH]; intros Hrange Hex w.
  - exists w, []. rewrite app_nil_r. repeat split.
  - cbn [process_with_ffmpeg].
    pose proof (Hrange (s, e) (or_introl eq_refl)) as Hse.
    unfold in_float_range in Hse. cbn [fst snd] in Hse.
    apply andb_prop in Hse. destruct Hse as [Hs Hd].
    apply negb_true_iff in Hs, Hd.
    rewrite !bind_div_float by assumption.
    specialize (IH (fun c Hc => Hrange c (or_intror Hc))).
    change (os_path_join output_dir
              (video_id ++ "_" ++ format_07d s ++ "_" ++ format_07d e ++ ".mp4")%string)
      with (ffmpeg_output output_dir video_id (s, e)).
    set (p := ffmpeg_output output_dir video_id (s, e)).
    unfold ffmpeg_ok_outputs in *. cbn [map filter]. fold p.
    unfold bind at 1, try_except, bind at 1, run_ffmpeg.
    destruct (ffmpeg_error E p) as [ex|] eqn:Ep.
    + rewrite (Hex (s, e) ex (or_introl eq_refl) Ep).
      unfold logging. rewrite bind_emit. unfold ret at 1.
      unfold bind at 1.
      set (w1 := mkWorld _ _ _ _).
      destruct (IH (fun c ex' Hc => Hex c ex' (or_intror Hc)) w1) as (w' & t & El & Ht & Hw).
      rewrite El. unfold ret. exists w', ([EvLog ERROR] ++ t).
      split; [reflexivity|]. split; [rewrite Ht; cbn [trace w1]; now rewrite <- app_assoc|].
      rewrite written_app. exact Hw.
    + unfold create_file. cbv beta iota. unfold logging. rewrite bind_emit.
      unfold ret at 1. unfold bind at 1.
      set (w1 := mkWorld _ _ _ _).
      destruct (IH (fun c ex' Hc => Hex c ex' (or_intror Hc)) w1) as (w' & t & El & Ht & Hw).
      rewrite El. unfold ret. exists w', ([EvWrite p; EvLog INFO] ++ t).
      split; [reflexivity|].
      split; [rewrite Ht; cbn [trace w1]; now rewrite <- !app_assoc|].
      rewrite written_app, Hw. reflexivity.
Qed.

End FfmpegMore.

Lemma process_with_ffmpeg_skips_failures_witness :
  (forall c, In c [(0, 2); (3, 5)] -> in_float_range c = true) /\
  (forall c ex, In c [(0, 2); (3, 5)] ->
                ffmpeg_error env_ffmpeg_flaky (ffmpeg_output "out" "vid" c) = Some ex ->
                ex = CalledProcessError) /\
  exists w' t,
    process_with_ffmpeg env_ffmpeg_flaky "tmp/vid.mp4" [(0, 2); (3, 5)] "out" "vid" w_init
    = (Ret ["out/vid_0000003_0000005.mp4"], w') /\
    trace w' = trace w_init ++ t /\
    written t = ["out/vid_0000003_0000005.mp4"].
Proof.
  assert (H : forall c ex, In c [(0, 2); (3, 5)] ->
                ffmpeg_error env_ffmpeg_flaky (ffmpeg_output "out" "vid" c) = Some ex ->
                ex = CalledProcessError).
  { intros c ex [<-|[<-|[]]] Hc; vm_compute in Hc; [now injection Hc as <-|discriminate]. }
  assert (R : forall c, In c [(0, 2); (3, 5)] -> in_float_range c = true).
  { intros c [<-|[<-|[]]]; vm_compute; reflexivity. }
  split; [exact R|]. split; [exact H|].
  exact (@process_with_ffmpeg_skips_failures env_ffmpeg_flaky "tmp/vid.mp4" "out" "vid"
           [(0, 2); (3, 5)] R H w_init).
Defined.

(** ** The worker: the paths of a job *)

Section JobPaths.
Variable E : env.
Variable seg : segmenter.
Variables input_clip_dir output_dir temp_video_dir url : string.

(** What the exception handler of the job loop does: it never raises. *)
Lemma job_handler_total (w : world) :
  exists w',
    (logging ERROR ;;;
     try_except
       (vp <- get_video_path ;;
        match vp with
        | Some p =>
            found <- os_path_exists p ;;
            if found then os_remove E p else ret tt
        | None => ret tt
        end)
       (fun _ => ret tt) ;;;
     incr_failed) w = (Ret tt, w').
Proof.
  unfold logging. rewrite bind_emit. unfold bind at 1, try_except.
  set (w1 := mkWorld _ _ _ _).
  destruct ((vp <- get_video_path;;
             match vp with
             | Some p => found <- os_path_exists p;; (if found then os_remove E p else ret tt)
             | None => ret tt
             end) w1) as [[[]|ex] w2]; unfold ret, incr_failed; eauto.
Qed.

(** X14.  A job never stops the worker: whatever the downloader, the file
    system, the clip file and the segmenting do, the body of the job loop
    ends normally; every exception is taken by its handler, whose own
    cleanup cannot raise either. *)
Theorem process_job_never_raises (w : world) :
  exists w',
    process_job E seg input_clip_dir output_dir temp_video_dir url w = (Ret tt, w').
Proof.
  unfold process_job, try_except.
  match goal with
  | |- exists w', match ?body w with _ => _ end = _ =>
      destruct (body w) as [[[]|ex] w1]
  end.
  - eauto.
  - apply job_handler_total.
Qed.

Lemma recorded_outcome_skipped (before after : locals) :
  processed_count after = processed_count before ->
  failed_count after = failed_count before ->
  recorded_outcome before after = Some Skipped.
Proof.
  intros Hp Hf. unfold recorded_outcome. rewrite Hp, Hf, !Z.sub_diag. reflexivity.
Qed.

Lemma recorded_outcome_completed (before after : locals) :
  processed_count after = processed_count before + 1 ->
  failed_count after = failed_count before ->
  recorded_outcome before after = Some Completed.
Proof.
  intros Hp Hf. unfold recorded_outcome. rewrite Hp, Hf, Z.sub_diag.
  replace (processed_count before + 1 - processed_count before) with 1 by lia.
  reflexivity.
Qed.

(** X15.  A job whose fetch fails is tallied as failed; no file is removed,
    nothing is written and the segmenting is not started: the job ends in
    the world the fetch left, but for two log lines and the tally. *)
Theorem process_job_not_fetched (w w1 : world) :
  download_single_video E url temp_video_dir 3 (job_start w) = (Ret NotFetched, w1) ->
  exists w2,
    process_job E seg input_clip_dir output_dir temp_video_dir url w = (Ret tt, w2) /\
    recorded_outcome (vars w) (vars w2) = Some Failed /\
    files w2 = files w1 /\
    runs w2 = runs w1 /\
    trace w2 = trace w1 ++ [EvLog ERROR].
Proof.
  intros Hd.
  destruct (download_loop_frame _ _ _ _ _ _ _ Hd) as (Hv & _ & _).
  cbn [vars job_start] in Hv.
  unfold process_job, try_except, logging.
  rewrite bind_emit. unfold bind at 1. fold (job_start w). rewrite Hd.
  unfold bind, set_video_path, emit, incr_failed, ret. cbn.
  eexists. split; [reflexivity|]. cbn.
  split; [|repeat split].
  apply recorded_outcome_failed; cbn; now rewrite Hv.
Qed.

(** X16.  A job whose clip file exists and holds no clip is skipped: no tally
    changes, nothing is written, and the fetched video is deleted, when the
    system allows the deletion.  When it refuses, the handler tallies the
    job as failed. *)
Theorem process_job_empty_manifest (w w1 : world) (video_path video_id : string) :
  download_single_video E url temp_video_dir 3 (job_start w)
  = (Ret (Fetched video_path video_id), w1) ->
  existsb (path_eqb (os_path_join input_clip_dir (video_id ++ ".txt"))) (files w1)
  = true ->
  manifest E (os_path_join input_clip_dir (video_id ++ ".txt")) = Ret [] ->
  exists w2,
    process_job E seg input_clip_dir output_dir temp_video_dir url w = (Ret tt, w2) /\
    (exists t, trace w2 = trace w1 ++ t /\ written t = []) /\
    match remove_error E video_path with
    | None =>
        recorded_outcome (vars w) (vars w2) = Some Skipped /\
        files w2 = filter (fun e => negb (path_eqb video_path e)) (files w1) /\
        existsb (path_eqb video_path) (files w2) = false
    | Some _ =>
        recorded_outcome (vars w) (vars w2) = Some Failed /\
        files w2 = files w1
    end.
Proof.
  intros Hd Hm Hc.
  destruct (download_loop_frame _ _ _ _ _ _ _ Hd) as (Hv & _ & Hp).
  specialize (Hp _ _ eq_refl). cbn [vars job_start] in Hv.
  unfold process_job, try_except, logging.
  rewrite bind_emit. unfold bind at 1. fold (job_start w). rewrite Hd.
  unfold bind, set_video_path, emit, os_path_exists, read_clips, os_remove,
    get_video_path, incr_failed, ret. cbn.
  rewrite Hm, Hc. cbn. rewrite Hp.
  destruct (remove_error E video_path) as [ex|] eqn:Er; cbn.
  - repeat (first [rewrite Hp | rewrite Er]; cbn).
    eexists. split; [reflexivity|]. cbn. split.
    + exists [EvLog INFO; EvLog WARNING; EvLog ERROR].
      split; [now rewrite <- !app_assoc|reflexivity].
    + split; [|reflexivity]. apply recorded_outcome_failed; cbn; now rewrite Hv.
  - eexists. split; [reflexivity|]. cbn. split.
    + exists [EvLog INFO; EvLog WARNING; EvRemove video_path].
      split; [now rewrite <- !app_assoc|reflexivity].
    + split; [apply recorded_outcome_skipped; cbn; now rewrite Hv|].
      split; [reflexivity|apply existsb_filter_negb].
Qed.

(** X17.  A job whose segmenting raises is tallied as failed and not as
    processed, and its handler deletes the fetched video, when the video is
    still there and the system allows the deletion. *)
Theorem process_job_segment_error (w w1 w2 : world) (video_path video_id : string)
        (clips : list (Z * Z)) (ex : exn) :
  download_single_video E url temp_video_dir 3 (job_start w)
  = (Ret (Fetched video_path video_id), w1) ->
  existsb (path_eqb (os_path_join input_clip_dir (video_id ++ ".txt"))) (files w1)
  = true ->
  manifest E (os_path_join input_clip_dir (video_id ++ ".txt")) = Ret clips ->
  clips <> [] ->
  seg video_path (os_path_join output_dir video_id) video_id clips
      (segment_start w1 video_path) = (Raise ex, w2) ->
  vars w2 = vars (segment_start w1 video_path) ->
  existsb (path_eqb video_path) (files w2) = true ->
  remove_error E video_path = None ->
  exists w3,
    process_job E seg input_clip_dir output_dir temp_video_dir url w = (Ret tt, w3) /\
    recorded_outcome (vars w) (vars w3) = Some Failed /\
    files w3 = filter (fun e => negb (path_eqb video_path e)) (files w2) /\
    existsb (path_eqb video_path) (files w3) = false /\
    trace w3 = trace w2 ++ [EvLog ERROR; EvRemove video_path].
Proof.
  intros Hd Hm Hc Hne Hs Hvars Hex Hr.
  destruct (download_loop_frame _ _ _ _ _ _ _ Hd) as (Hv & _ & _).
  cbn [vars job_start] in Hv.
  assert (Hlen : (len clips =? 0) = false).
  { destruct clips; [contradiction|]. apply Z.eqb_neq. unfold len. cbn [List.length]. lia. }
  unfold process_job, try_except, logging.
  rewrite bind_emit. unfold bind at 1. fold (job_start w). rewrite Hd.
  unfold bind, set_video_path, emit, os_path_exists, read_clips, ret. cbn.
  rewrite Hm, Hc. cbn. rewrite Hlen.
  unfold segment_start in Hs, Hvars. cbn in Hs, Hvars |- *. rewrite Hs. cbn.
  unfold os_remove, get_video_path, incr_failed. cbn.
  rewrite Hvars. cbn.
  repeat (first [rewrite Hex | rewrite Hr]; cbn).
  eexists. split; [reflexivity|]. cbn.
  split; [apply recorded_outcome_failed; cbn; now rewrite Hv|].
  split; [reflexivity|]. split; [apply existsb_filter_negb|].
  now rewrite <- app_assoc.
Qed.

(** X18.  A job whose segmenting returns and whose fetched video the system
    lets delete is tallied as processed once and not as failed, and the
    video is gone afterwards; the segmenting's files stay. *)
Theorem process_job_completed (w w1 w2 : world) (video_path video_id : string)
        (clips : list (Z * Z)) (out : list string) :
  download_single_video E url temp_video_dir 3 (job_start w)
  = (Ret (Fetched video_path video_id), w1) ->
  existsb (path_eqb (os_path_join input_clip_dir (video_id ++ ".txt"))) (files w1)
  = true ->
  manifest E (os_path_join input_clip_dir (video_id ++ ".txt")) = Ret clips ->
  clips <> [] ->
  seg video_path (os_path_join output_dir video_id) video_id clips
      (segment_start w1 video_path) = (Ret out, w2) ->
  vars w2 = vars (segment_start w1 video_path) ->
  existsb (path_eqb video_path) (files w2) = true ->
  remove_error E video_path = None ->
  exists w3,
    process_job E seg input_clip_dir output_dir temp_video_dir url w = (Ret tt, w3) /\
    recorded_outcome (vars w) (vars w3) = Some Completed /\
    files w3 = filter (fun e => negb (path_eqb video_path e)) (files w2) /\
    existsb (path_eqb video_path) (files w3) = false /\
    trace w3 = trace w2 ++ [EvLog INFO; EvRemove video_path; EvLog INFO].
Proof.
  intros Hd Hm Hc Hne Hs Hvars Hex Hr.
  destruct (download_loop_frame _ _ _ _ _ _ _ Hd) as (Hv & _ & _).
  cbn [vars job_start] in Hv.
  assert (Hlen : (len clips =? 0) = false).
  { destruct clips; [contradiction|]. apply Z.eqb_neq. unfold len. cbn [List.length]. lia. }
  unfold process_job, try_except, logging.
  rewrite bind_emit. unfold bind at 1. fold (job_start w). rewrite Hd.
  unfold bind, set_video_path, emit, os_path_exists, read_clips, ret. cbn.
  rewrite Hm, Hc. cbn. rewrite Hlen.
  unfold segment_start in Hs, Hvars. cbn in Hs, Hvars |- *. rewrite Hs. cbn.
  unfold os_remove, incr_processed. cbn.
  repeat (first [rewrite Hex | rewrite Hr]; cbn).
  eexists. split; [reflexivity|]. cbn.
  split; [apply recorded_outcome_completed; cbn; rewrite Hvars; cbn; now rewrite Hv|].
  split; [reflexivity|]. split; [apply existsb_filter_negb|].
  now rewrite <- !app_assoc.
Qed.

End JobPaths.

Lemma process_job_not_fetched_witness :
  exists w1,
    download_single_video env_timeouts "u" "tmp" 3 (job_start w_init)
    = (Ret NotFetched, w1) /\
    exists w2,
      process_job env_timeouts (segment_cuda env_timeouts) "clips" "out" "tmp" "u" w_init
      = (Ret tt, w2) /\
      recorded_outcome (vars w_init) (vars w2) = Some Failed /\
      files w2 = files w1 /\ runs w2 = runs w1 /\ trace w2 = trace w1 ++ [EvLog ERROR].
Proof.
  pose (p := download_single_video env_timeouts "u" "tmp" 3 (job_start w_init)).
  assert (Hp : p = (Ret NotFetched, snd p)) by (vm_compute; reflexivity).
  exists (snd p). split; [exact Hp|].
  exact (@process_job_not_fetched env_timeouts (segment_cuda env_timeouts)
           "clips" "out" "tmp" "u" w_init (snd p) Hp).
Defined.

Lemma process_job_empty_manifest_witness :
  exists w1,
    download_single_video env_empty_manifest "u" "tmp" 3 (job_start w_clips)
    = (Ret (Fetched "tmp/vid.mp4" "vid"), w1) /\
    existsb (path_eqb (os_path_join "clips" ("vid" ++ ".txt"))) (files w1) = true /\
    manifest env_empty_manifest (os_path_join "clips" ("vid" ++ ".txt")) = Ret [] /\
    exists w2,
      process_job env_empty_manifest (segment_cuda env_empty_manifest)
                  "clips" "out" "tmp" "u" w_clips = (Ret tt, w2) /\
      recorded_outcome (vars w_clips) (vars w2) = Some Skipped /\
      existsb (path_eqb "tmp/vid.mp4") (files w2) = false.
Proof.
  pose (p := download_single_video env_empty_manifest "u" "tmp" 3 (job_start w_clips)).
  assert (Hp : p = (Ret (Fetched "tmp/vid.mp4" "vid"), snd p)) by (vm_compute; reflexivity).
  assert (Hm : existsb (path_eqb (os_path_join "clips" ("vid" ++ ".txt"))) (files (snd p))
               = true) by (vm_compute; reflexivity).
  assert (Hc : manifest env_empty_manifest (os_path_join "clips" ("vid" ++ ".txt")) = Ret [])
    by reflexivity.
  exists (snd p). split; [exact Hp|]. split; [exact Hm|]. split; [exact Hc|].
  destruct (@process_job_empty_manifest env_empty_manifest
              (segment_cuda env_empty_manifest) "clips" "out" "tmp" "u"
              w_clips (snd p) "tmp/vid.mp4" "vid" Hp Hm Hc)
    as (w2 & Hj & _ & Ho).
  cbn [remove_error env_empty_manifest] in Ho. destruct Ho as (Ho & _ & Hg).
  exists w2. split; [exact Hj|]. split; [exact Ho|exact Hg].
Defined.

Lemma process_job_segment_error_witness :
  exists w1 w2,
    download_single_video (env_ok 1) "u" "tmp" 3 (job_start w_clips)
    = (Ret (Fetched "tmp/vid.mp4" "vid"), w1) /\
    existsb (path_eqb (os_path_join "clips" ("vid" ++ ".txt"))) (files w1) = true /\
    manifest (env_ok 1) (os_path_join "clips" ("vid" ++ ".txt")) = Ret [(0, 2)] /\
    [(0, 2)] <> [] /\
    segment_cuda (env_ok 1) "tmp/vid.mp4" (os_path_join "out" "vid") "vid" [(0, 2)]
                 (segment_start w1 "tmp/vid.mp4") = (Raise AssertionError, w2) /\
    vars w2 = vars (segment_start w1 "tmp/vid.mp4") /\
    existsb (path_eqb "tmp/vid.mp4") (files w2) = true /\
    remove_error (env_ok 1) "tmp/vid.mp4" = None /\
    exists w3,
      process_job (env_ok 1) (segment_cuda (env_ok 1)) "clips" "out" "tmp" "u" w_clips
      = (Ret tt, w3) /\
      recorded_outcome (vars w_clips) (vars w3) = Some Failed /\
      existsb (path_eqb "tmp/vid.mp4") (files w3) = false.
Proof.
  pose (p := download_single_video (env_ok 1) "u" "tmp" 3 (job_start w_clips)).
  assert (Hp : p = (Ret (Fetched "tmp/vid.mp4" "vid"), snd p)) by (vm_compute; reflexivity).
  assert (Hm : existsb (path_eqb (os_path_join "clips" ("vid" ++ ".txt"))) (files (snd p))
               = true) by (vm_compute; reflexivity).
  assert (Hc : manifest (env_ok 1) (os_path_join "clips" ("vid" ++ ".txt")) = Ret [(0, 2)])
    by reflexivity.
  assert (Hne : [(0, 2)] <> @nil (Z * Z)) by discriminate.
  pose (q := segment_cuda (env_ok 1) "tmp/vid.mp4" (os_path_join "out" "vid") "vid" [(0, 2)]
                          (segment_start (snd p) "tmp/vid.mp4")).
  assert (Hq : q = (Raise AssertionError, snd q)) by (vm_compute; reflexivity).
  assert (Hv : vars (snd q) = vars (segment_start (snd p) "tmp/vid.mp4"))
    by (vm_compute; reflexivity).
  assert (Hex : existsb (path_eqb "tmp/vid.mp4") (files (snd q)) = true)
    by (vm_compute; reflexivity).
  assert (Hr : remove_error (env_ok 1) "tmp/vid.mp4" = None) by reflexivity.
  exists (snd p), (snd q).
  split; [exact Hp|]. split; [exact Hm|]. split; [exact Hc|]. split; [exact Hne|].
  split; [exact Hq|]. split; [exact Hv|]. split; [exact Hex|]. split; [exact Hr|].
  destruct (@process_job_segment_error (env_ok 1) (segment_cuda (env_ok 1))
              "clips" "out" "tmp" "u" w_clips (snd p) (snd q) "tmp/vid.mp4" "vid"
              [(0, 2)] AssertionError Hp Hm Hc Hne Hq Hv Hex Hr)
    as (w3 & Hj & Ho & _ & Hg & _).
  exists w3. split; [exact Hj|]. split; [exact Ho|exact Hg].
Defined.

Lemma process_job_completed_witness :
  exists w1 w2,
    download_single_video (env_ok 2) "u" "tmp" 3 (job_start w_clips)
    = (Ret (Fetched "tmp/vid.mp4" "vid"), w1) /\
    existsb (path_eqb (os_path_join "clips" ("vid" ++ ".txt"))) (files w1) = true /\
    manifest (env_ok 2) (os_path_join "clips" ("vid" ++ ".txt")) = Ret [(0, 2)] /\
    [(0, 2)] <> [] /\
    segment_cuda (env_ok 2) "tmp/vid.mp4" (os_path_join "out" "vid") "vid" [(0, 2)]
                 (segment_start w1 "tmp/vid.mp4")
    = (Ret ["out/vid/vid_0000000_0000002.hevc"], w2) /\
    vars w2 = vars (segment_start w1 "tmp/vid.mp4") /\
    existsb (path_eqb "tmp/vid.mp4") (files w2) = true /\
    remove_error (env_ok 2) "tmp/vid.mp4" = None /\
    exists w3,
      process_job (env_ok 2) (segment_cuda (env_ok 2)) "clips" "out" "tmp" "u" w_clips
      = (Ret tt, w3) /\
      recorded_outcome (vars w_clips) (vars w3) = Some Completed /\
      existsb (path_eqb "tmp/vid.mp4") (files w3) = false.
Proof.
  pose (p := download_single_video (env_ok 2) "u" "tmp" 3 (job_start w_clips)).
  assert (Hp : p = (Ret (Fetched "tmp/vid.mp4" "vid"), snd p)) by (vm_compute; reflexivity).
  assert (Hm : existsb (path_eqb (os_path_join "clips" ("vid" ++ ".txt"))) (files (snd p))
               = true) by (vm_compute; reflexivity).
  assert (Hc : manifest (env_ok 2) (os_path_join "clips" ("vid" ++ ".txt")) = Ret [(0, 2)])
    by reflexivity.
  assert (Hne : [(0, 2)] <> @nil (Z * Z)) by discriminate.
  pose (q := segment_cuda (env_ok 2) "tmp/vid.mp4" (os_path_join "out" "vid") "vid" [(0, 2)]
                          (segment_start (snd p) "tmp/vid.mp4")).
  assert (Hq : q = (Ret ["out/vid/vid_0000000_0000002.hevc"], snd q))
    by (vm_compute; reflexivity).
  assert (Hv : vars (snd q) = vars (segment_start (snd p) "tmp/vid.mp4"))
    by (vm_compute; reflexivity).
  assert (Hex : existsb (path_eqb "tmp/vid.mp4") (files (snd q)) = true)
    by (vm_compute; reflexivity).
  assert (Hr : remove_error (env_ok 2) "tmp/vid.mp4" = None) by reflexivity.
  exists (snd p), (snd q).
  split; [exact Hp|]. split; [exact Hm|]. split; [exact Hc|]. split; [exact Hne|].
  split; [exact Hq|]. split; [exact Hv|]. split; [exact Hex|]. split; [exact Hr|].
  destruct (@process_job_completed (env_ok 2) (segment_cuda (env_ok 2))
              "clips" "out" "tmp" "u" w_clips (snd p) (snd q) "tmp/vid.mp4" "vid"
              [(0, 2)] _ Hp Hm Hc Hne Hq Hv Hex Hr)
    as (w3 & Hj & Ho & _ & Hg & _).
  exists w3. split; [exact Hj|]. split; [exact Ho|exact Hg].
Defined.

(** ** The worker: tallies and cleanup *)

Section SegmentFrame.
Variable E : env.




End SegmentFrame.

Section JobBounds.
Variable E : env.
Variable seg : segmenter.
Variables input_clip_dir output_dir temp_video_dir : string.

Hypothesis seg_frame :
  forall a b c d w r w', seg a b c d w = (r, w') -> vars w' = vars w /\ runs w' = runs w.



End JobBounds.

Section WorkerBounds.
Variable E : env.








End WorkerBounds.



(** ** The thread worker and the cleanup of [multi_download.py] *)

(** X22.  In the thread worker a job whose segmenting raises leaves its
    fetched video behind: the handler only logs, so the job ends normally
    with the files the segmenting left, the source video among them. *)
Theorem thread_job_segment_error (E : env) (seg : segmenter)
        (input_clip_dir output_dir : string) (worker_id : Z) (url : string)
        (w w1 w2 : world) (video_path video_id : string)
        (clips : list (Z * Z)) (ex : exn) :
  download_single_video E url ("/tmp/temp_videos_thread_" ++ decimal worker_id) 3
                        (job_start w)
  = (Ret (Fetched video_path video_id), w1) ->
  existsb (path_eqb (os_path_join input_clip_dir (video_id ++ ".txt"))) (files w1)
  = true ->
  manifest E (os_path_join input_clip_dir (video_id ++ ".txt")) = Ret clips ->
  clips <> [] ->
  seg video_path (os_path_join output_dir video_id) video_id clips
      (mkWorld (files w1) (runs w1) (trace w1 ++ [EvLog INFO]) (vars w1))
  = (Raise ex, w2) ->
  exists w3,
    thread_job E seg input_clip_dir output_dir worker_id url w = (Ret tt, w3) /\
    files w3 = files w2 /\
    trace w3 = trace w2 ++ [EvLog ERROR].
Proof.
  intros Hd Hm Hc Hne Hs.
  assert (Hlen : (len clips =? 0) = false).
  { destruct clips; [contradiction|]. apply Z.eqb_neq. unfold len. cbn [List.length]. lia. }
  unfold thread_job, try_except, logging.
  rewrite bind_emit. unfold bind at 1. fold (job_start w). rewrite Hd.
  unfold bind, emit, os_path_exists, read_clips, ret. cbn.
  rewrite Hm, Hc. cbn. rewrite Hlen, Hs. cbn.
  eexists. repeat split.
Qed.

Lemma thread_job_segment_error_witness :
  exists w1 w2,
    download_single_video (env_ok 1) "u" ("/tmp/temp_videos_thread_" ++ decimal 0) 3
                          (job_start w_clips)
    = (Ret (Fetched "/tmp/temp_videos_thread_0/vid.mp4" "vid"), w1) /\
    existsb (path_eqb (os_path_join "clips" ("vid" ++ ".txt"))) (files w1) = true /\
    manifest (env_ok 1) (os_path_join "clips" ("vid" ++ ".txt")) = Ret [(0, 2)] /\
    [(0, 2)] <> [] /\
    segment_cuda (env_ok 1) "/tmp/temp_videos_thread_0/vid.mp4"
                 (os_path_join "out" "vid") "vid" [(0, 2)]
                 (mkWorld (files w1) (runs w1) (trace w1 ++ [EvLog INFO]) (vars w1))
    = (Raise AssertionError, w2) /\
    exists w3,
      thread_job (env_ok 1) (segment_cuda (env_ok 1)) "clips" "out" 0 "u" w_clips
      = (Ret tt, w3) /\
      files w3 = files w2 /\
      existsb (path_eqb "/tmp/temp_videos_thread_0/vid.mp4") (files w3) = true.
Proof.
  pose (p := download_single_video (env_ok 1) "u"
               ("/tmp/temp_videos_thread_" ++ decimal 0) 3 (job_start w_clips)).
  assert (Hp : p = (Ret (Fetched "/tmp/temp_videos_thread_0/vid.mp4" "vid"), snd p))
    by (vm_compute; reflexivity).
  assert (Hm : existsb (path_eqb (os_path_join "clips" ("vid" ++ ".txt"))) (files (snd p))
               = true) by (vm_compute; reflexivity).
  assert (Hc : manifest (env_ok 1) (os_path_join "clips" ("vid" ++ ".txt")) = Ret [(0, 2)])
    by reflexivity.
  assert (Hne : [(0, 2)] <> @nil (Z * Z)) by discriminate.
  pose (q := segment_cuda (env_ok 1) "/tmp/temp_videos_thread_0/vid.mp4"
               (os_path_join "out" "vid") "vid" [(0, 2)]
               (mkWorld (files (snd p)) (runs (snd p)) (trace (snd p) ++ [EvLog INFO])
                        (vars (snd p)))).
  assert (Hq : q = (Raise AssertionError, snd q)) by (vm_compute; reflexivity).
  assert (Hex : existsb (path_eqb "/tmp/temp_videos_thread_0/vid.mp4") (files (snd q)) = true)
    by (vm_compute; reflexivity).
  exists (snd p), (snd q).
  split; [exact Hp|]. split; [exact Hm|]. split; [exact Hc|]. split; [exact Hne|].
  split; [exact Hq|].
  destruct (@thread_job_segment_error (env_ok 1) (segment_cuda (env_ok 1)) "clips" "out" 0
              "u" w_clips (snd p) (snd q) "/tmp/temp_videos_thread_0/vid.mp4" "vid"
              [(0, 2)] AssertionError Hp Hm Hc Hne Hq)
    as (w3 & Hj & Hf & _).
  exists w3. split; [exact Hj|]. split; [exact Hf|]. rewrite Hf. exact Hex.
Defined.

Section Cleanup.
Variable E : env.

Lemma os_remove_cases (p : string) (w : world) :
  (exists ex, os_remove E p w = (Raise ex, w) /\
              (existsb (path_eqb p) (files w) = false \/ remove_error E p = Some ex)) \/
  (os_remove E p w
   = (Ret tt, mkWorld (filter (fun e => negb (path_eqb p e)) (files w))
                      (runs w) (trace w ++ [EvRemove p]) (vars w)) /\
   remove_error E p = None).
Proof.
  unfold os_remove. destruct (existsb (path_eqb p) (files w)) eqn:Hex.
  - destruct (remove_error E p) as [ex|] eqn:Hr.
    + left. exists ex. split; [reflexivity|now right].
    + right. now split.
  - left. exists FileNotFoundError. split; [reflexivity|now left].
Qed.

(** X23.  [cleanup_temp_files] never raises and a failed deletion does not
    stop it: afterwards no listed file that the system lets delete exists,
    no file has appeared, and every file whose path is not in the list is
    still there. *)
Theorem cleanup_temp_files_spec (split_files : list string) :
  forall w,
  exists w',
    cleanup_temp_files E split_files w = (Ret tt, w') /\
    (forall p, In p split_files -> remove_error E p = None ->
               existsb (path_eqb p) (files w') = false) /\
    (forall e, In e (files w') -> In e (files w)) /\
    (forall e, In e (files w) ->
               (forall p, In p split_files -> path_eqb p e = false) ->
               In e (files w')).
Proof.
  induction split_files as [|p rest IH]; intros w; cbn [cleanup_temp_files].
  - exists w. unfold ret. split; [reflexivity|]. split; [intros p []|]. split; auto.
  - unfold bind at 1, try_except.
    destruct (os_remove_cases p w) as [(ex & Er & Hwhy)|(Er & Hnone)]; rewrite Er.
    + unfold ret. destruct (IH w) as (w' & El & H1 & H2 & H3).
      exists w'. split; [exact El|]. split; [|split].
      * intros q [<-|Hq] Hrem; [|now apply H1].
        destruct Hwhy as [Hno|Hsome]; [|congruence].
        destruct (existsb (path_eqb p) (files w')) eqn:Hex; [|reflexivity].
        apply existsb_exists in Hex. destruct Hex as (e & He & Hpe).
        assert (Hin : existsb (path_eqb p) (files w) = true).
        { apply existsb_exists. exists e. split; [now apply H2|exact Hpe]. }
        congruence.
      * exact H2.
      * intros e He Hnot. apply H3; [exact He|]. intros q Hq. apply Hnot. now right.
    + set (w1 := mkWorld _ _ _ _).
      destruct (IH w1) as (w' & El & H1 & H2 & H3).
      exists w'. split; [exact El|]. split; [|split].
      * intros q [<-|Hq] Hrem; [|now apply H1].
        destruct (existsb (path_eqb p) (files w')) eqn:Hex; [|reflexivity].
        apply existsb_exists in Hex. destruct Hex as (e & He & Hpe).
        apply H2 in He. cbn [files w1] in He. apply filter_In in He.
        destruct He as [_ Hneg]. rewrite Hpe in Hneg. discriminate.
      * intros e He. apply H2 in He. cbn [files w1] in He. apply filter_In in He. tauto.
      * intros e He Hnot. apply H3.
        -- cbn [files w1]. apply filter_In. split; [exact He|].
           rewrite (Hnot p (or_introl eq_refl)). reflexivity.
        -- intros q Hq. apply Hnot. now right.
Qed.

End Cleanup.
